(** * Serialized mesh loader and mesh-attribute texture: a shallow embedding

    The development follows two plugins of the renderer:

    - [textures/mesh_attribute.cpp]: the constructor of [MeshAttribute];
    - the [serialized] shape plugin: the constructor of [SerializedMesh]
      with its helpers [has_flag], [read_helper] and [advance_helper].

    Integers are [Z] with the wrap-around of their C++ type written out,
    streams are lists of bytes with a position, and everything that can
    throw returns a [result]. *)

From Stdlib Require Import ZArith List String Ascii Bool Lia Strings.Byte.
From Stdlib Require DecimalString.
Import ListNotations.

Local Open Scope Z_scope.

(* ===================================================================== *)
(** * Results, fixed-width integers, bytes *)
(* ===================================================================== *)

(** Every failure of the loader is a C++ exception; the constructors name
    the message (or the collaborator) it comes from. *)
Inductive load_error : Type :=
| FileNotFound          (* fail("file not found") *)
| NegativeShapeIndex    (* fail("shape index must be nonnegative!") *)
| InvalidFormat         (* fail("encountered an invalid file format!") *)
| IncompatibleVersion   (* fail("encountered an incompatible file version!") *)
| ShapeIndexOutOfRange  (* fail("... shape index is out of range! ...") *)
| IOError               (* a stream read that cannot deliver its bytes *)
| FieldNotFound         (* Struct::offset on a name the layout lacks *)
| MemoryFault.          (* an access outside an allocated buffer *)

Inductive result (A : Type) : Type :=
| Ok (a : A)
| Fail (e : load_error).
Arguments Ok {A} a.
Arguments Fail {A} e.

Definition rbind {A B} (r : result A) (k : A -> result B) : result B :=
  match r with
  | Ok a => k a
  | Fail e => Fail e
  end.

Declare Scope result_scope.
Delimit Scope result_scope with res.
Notation "x <- c ;; k" := (rbind c (fun x => k))
  (at level 61, c at next level, right associativity) : result_scope.
Notation "' p <- c ;; k" := (rbind c (fun x => match x with p => k end))
  (at level 61, p pattern, c at next level, right associativity) : result_scope.

(** [x mod 2^bits]: the value an unsigned [bits]-wide C++ integer keeps. *)
Definition wrap (bits : Z) (x : Z) : Z := x mod 2 ^ bits.

(** Reinterpretation of the low [bits] bits as a two's complement number
    (the conversions to [short] and to [int] in the loader). *)
Definition to_signed (bits : Z) (x : Z) : Z :=
  let y := wrap bits x in
  if y <? 2 ^ (bits - 1) then y else y - 2 ^ bits.

Definition byte_val (b : byte) : Z := Z.of_N (Byte.to_N b).

(** Byte built from a number (0 when out of range); used to write inputs. *)
Definition B (n : N) : byte :=
  match Byte.of_N n with
  | Some b => b
  | None => x00
  end.

(** Little-endian value of a byte sequence ([Stream::ELittleEndian]). *)
Fixpoint le_decode (bs : list byte) : Z :=
  match bs with
  | [] => 0
  | b :: rest => byte_val b + 256 * le_decode rest
  end.

(** Little-endian encoding of [x] on [n] bytes; used to write inputs. *)
Fixpoint le_encode (n : nat) (x : Z) : list byte :=
  match n with
  | O => []
  | S k => B (Z.to_N (x mod 256)) :: le_encode k (x / 256)
  end.

Definition zlen {A} (l : list A) : Z := Z.of_nat (List.length l).
Definition take {A} (n : Z) (l : list A) : list A := firstn (Z.to_nat n) l.
Definition drop {A} (n : Z) (l : list A) : list A := skipn (Z.to_nat n) l.

(* ===================================================================== *)
(** * The mesh-attribute texture *)
(* ===================================================================== *)

Module MeshAttribute.

(** [std::string::find(sub)] from position 0: the index of the first
    occurrence, [None] for [npos]. *)
Fixpoint find (s sub : string) : option nat :=
  if String.prefix sub s then Some O
  else match s with
       | EmptyString => None
       | String _ rest => option_map S (find rest sub)
       end.

(** [sub] occurs somewhere in [s]. *)
Definition contains (s sub : string) : Prop :=
  exists pre post : string, s = (pre ++ sub ++ post)%string.

Inductive attr_error : Type :=
| MissingProperty (key : string)   (* Properties::string without default *)
| InvalidAttributeName (name : string).

Section Texture.
(** The scale is a [float]; only its identity matters here. *)
Variable Float : Type.
Variable one : Float.              (* the literal 1.f *)

(** The two properties the constructor queries. *)
Record Properties : Type := {
  prop_name : option string;       (* "name", mandatory *)
  prop_scale : option Float        (* "scale", optional *)
}.

Record MeshAttribute : Type := {
  m_name : string;
  m_scale : Float
}.

(** MeshAttribute::MeshAttribute(const Properties &props) *)
Definition MeshAttribute_new (props : Properties)
  : attr_error + MeshAttribute :=
  match prop_name props with
  | None => inl (MissingProperty "name")
  | Some name =>
      match find name "vertex_", find name "face_" with
      | None, None => inl (InvalidAttributeName name)
      | _, _ =>
          let scale := match prop_scale props with
                       | Some s => s
                       | None => one
                       end in
          inr {| m_name := name; m_scale := scale |}
      end
  end.

Definition throws (r : attr_error + MeshAttribute) : Prop :=
  match r with
  | inl _ => True
  | inr _ => False
  end.
End Texture.

Arguments prop_name {Float} _.
Arguments prop_scale {Float} _.
Arguments m_name {Float} _.
Arguments m_scale {Float} _.
Arguments MeshAttribute_new {Float} one props.
Arguments throws {Float} r.

End MeshAttribute.

(* ===================================================================== *)
(** * The serialized mesh loader *)
(* ===================================================================== *)

Module SerializedMesh.

Definition MTS_FILEFORMAT_HEADER : Z := 0x041C.
Definition MTS_FILEFORMAT_VERSION_V3 : Z := 0x0003.
Definition MTS_FILEFORMAT_VERSION_V4 : Z := 0x0004.

Inductive TriMeshFlags : Type :=
| HasNormals
| HasTexcoords
| HasTangents      (* unused *)
| HasColors
| FaceNormals
| SinglePrecision
| DoublePrecision.

Definition flag_value (f : TriMeshFlags) : Z :=
  match f with
  | HasNormals      => 0x0001
  | HasTexcoords    => 0x0002
  | HasTangents     => 0x0004
  | HasColors       => 0x0008
  | FaceNormals     => 0x0010
  | SinglePrecision => 0x1000
  | DoublePrecision => 0x2000
  end.

(** has_flag(uint32_t flags, TriMeshFlags f) *)
Definition has_flag (flags : Z) (f : TriMeshFlags) : bool :=
  negb (Z.land flags (flag_value f) =? 0).

(** ** Record layouts *)

(** Modelled from the spec: the [Struct] class of the core library is not
    part of the sources at hand.  A layout is the ordered list of its named
    scalar fields; a field starts where the previous one ends and the
    record size is the sum of the field widths. *)
Record Field : Type := {
  field_name : string;
  field_size : Z
}.

Definition Struct : Type := list Field.

Definition struct_append (s : Struct) (name : string) (size : Z) : Struct :=
  s ++ [{| field_name := name; field_size := size |}].

(** for (auto name : { ... }) s->append(name, type) *)
Definition struct_append_all (s : Struct) (names : list string) (size : Z)
  : Struct :=
  fold_left (fun acc name => struct_append acc name size) names s.

Definition struct_size (s : Struct) : Z :=
  fold_right (fun f acc => field_size f + acc) 0 s.

Fixpoint struct_offset (s : Struct) (name : string) : result Z :=
  match s with
  | [] => Fail FieldNotFound
  | f :: rest =>
      if String.eqb (field_name f) name then Ok 0
      else match struct_offset rest name with
           | Ok off => Ok (field_size f + off)
           | Fail e => Fail e
           end
  end.


(** ** What the loader does to the outside world *)

Inductive io_event : Type :=
| EvResolve (name : string)   (* fs->resolve(props.string("filename")) *)
| EvExists (path : string)    (* fs::exists(file_path) *)
| EvOpen (path : string)      (* new FileStream(file_path) *)
| EvRead (pos n : Z)          (* stream->read of n bytes at position pos *)
| EvSize                      (* stream->size() *)
| EvSeek (pos : Z)            (* stream->seek(pos) *)
| EvSkip (n : Z)              (* stream->skip(n) *)
| EvInflate (pos : Z)         (* new ZStream(stream), file position pos *)
| EvRecomputeNormals          (* recompute_vertex_normals() *)
| EvEmitterSetShape           (* emitter()->set_shape(this) *)
| EvSensorSetShape.           (* sensor()->set_shape(this) *)

(** The position of the file stream and the events so far.  A failing
    step keeps the state, so that the events before a throw can be read. *)
Record io_state : Type := {
  io_pos : Z;
  io_trace : list io_event
}.

Definition IO (A : Type) : Type := io_state -> result A * io_state.

Definition io_ret {A} (a : A) : IO A := fun s => (Ok a, s).

Definition io_bind {A B} (c : IO A) (k : A -> IO B) : IO B :=
  fun s =>
    match c s with
    | (Ok a, s') => k a s'
    | (Fail e, s') => (Fail e, s')
    end.

Definition io_fail {A} (e : load_error) : IO A := fun s => (Fail e, s).

Definition io_lift {A} (r : result A) : IO A := fun s => (r, s).

Definition io_log (e : io_event) : IO unit :=
  fun s => (Ok tt, {| io_pos := io_pos s; io_trace := io_trace s ++ [e] |}).

Definition io_tell : IO Z := fun s => (Ok (io_pos s), s).

Definition io_set_pos (p : Z) : IO unit :=
  fun s => (Ok tt, {| io_pos := p; io_trace := io_trace s |}).

Declare Scope io_scope.
Delimit Scope io_scope with io.
Notation "x <- c ;; k" := (io_bind c (fun x => k))
  (at level 61, c at next level, right associativity) : io_scope.
Notation "c ;; k" := (io_bind c (fun _ => k))
  (at level 61, right associativity) : io_scope.

(** ** The file stream *)

Section FileStream.
Variable data : list byte.
Local Open Scope io_scope.

(** Modelled from the spec: [FileStream] (read, size, seek, skip) is not
    part of the sources at hand.  It is a seekable stream over the bytes
    [data] of the file; a read that cannot deliver its byte count fails,
    a seek only moves the position. *)
Definition stream_read (n : Z) : IO (list byte) :=
  pos <- io_tell ;;
  io_log (EvRead pos n) ;;
  if (0 <=? pos) && (pos + n <=? zlen data)
  then io_set_pos (pos + n) ;; io_ret (take n (drop pos data))
  else io_fail IOError.

Definition stream_size : IO Z :=
  io_log EvSize ;; io_ret (zlen data).

Definition stream_seek (pos : Z) : IO unit :=
  io_log (EvSeek pos) ;; io_set_pos pos.

(** Stream::skip(amount) is seek(tell() + amount) on a [size_t]. *)
Definition stream_skip (n : Z) : IO unit :=
  pos <- io_tell ;;
  io_log (EvSkip n) ;; io_set_pos (wrap 64 (pos + n)).

(** stream->read(x) for [short], [uint32_t] and [size_t] *)
Definition read_short : IO Z :=
  bs <- stream_read 2 ;; io_ret (to_signed 16 (le_decode bs)).
Definition read_uint32 : IO Z :=
  bs <- stream_read 4 ;; io_ret (le_decode bs).
Definition read_uint64 : IO Z :=
  bs <- stream_read 8 ;; io_ret (le_decode bs).

(** The block under [if (shape_index != 0)]: find the requested
    sub-stream through the directory at the end of the file.  The
    differences are taken in the types the source takes them in:
    [count - shape_index] is a [uint32_t], the positions are [size_t]. *)
Definition locate_submesh (version shape_index : Z) : IO unit :=
  file_size <- stream_size ;;
  stream_seek (wrap 64 (file_size - 4)) ;;
  count <- read_uint32 ;;
  if shape_index >? to_signed 32 count
  then io_fail ShapeIndexOutOfRange
  else
    (if version =? MTS_FILEFORMAT_VERSION_V4
     then
       stream_seek
         (wrap 64 (file_size - 8 * wrap 32 (count - shape_index) - 4)) ;;
       offset <- read_uint64 ;;
       stream_seek offset
     else
       stream_seek
         (wrap 64 (file_size - 4 * wrap 32 (count - shape_index + 1))) ;;
       offset <- read_uint32 ;;
       stream_seek offset) ;;
    stream_skip 4.

(** From [new FileStream] to the end of the [shape_index != 0] block:
    the two header fields are read and checked, then the sub-stream is
    located.  Returns the version. *)
Definition open_stream (path : string) (shape_index : Z) : IO Z :=
  io_log (EvOpen path) ;;
  format <- read_short ;;
  version <- read_short ;;
  if negb (format =? MTS_FILEFORMAT_HEADER)
  then io_fail InvalidFormat
  else if negb (version =? MTS_FILEFORMAT_VERSION_V3)
          && negb (version =? MTS_FILEFORMAT_VERSION_V4)
  then io_fail IncompatibleVersion
  else
    (if negb (shape_index =? 0)
     then locate_submesh version shape_index
     else io_ret tt) ;;
    io_ret version.
End FileStream.

(** ** Buffers *)

(** [new uint8_t[n]]: [n] bytes whose content is whatever the allocator
    hands out, given here by [fresh]. *)
Definition alloc (fresh : Z -> byte) (n : Z) : list byte :=
  map (fun i => fresh (Z.of_nat i)) (seq 0 (Z.to_nat n)).

(** A store of [bs] at byte offset [off].  A store that leaves the buffer
    is undefined behaviour in the source; here it ends the run with
    [MemoryFault], so that no statement leans on it. *)
Definition write_at (buf : list byte) (off : Z) (bs : list byte)
  : result (list byte) :=
  if (0 <=? off) && (off + zlen bs <=? zlen buf)
  then Ok (take off buf ++ bs ++ drop (off + zlen bs) buf)
  else Fail MemoryFault.

Definition read_at (buf : list byte) (off n : Z) : result (list byte) :=
  if (0 <=? off) && (0 <=? n) && (off + n <=? zlen buf)
  then Ok (take n (drop off buf))
  else Fail MemoryFault.

(** A value of a type of [n] bytes, as the bytes a store of it writes. *)
Definition fit (n : Z) (bs : list byte) : list byte :=
  take n (bs ++ repeat x00 (Z.to_nat n)).

(** for (i = start; i < start + n; ++i) body *)
Fixpoint for_from {S : Type} (i : Z) (n : nat)
    (body : Z -> S -> result S) (s : S) : result S :=
  match n with
  | O => Ok s
  | Datatypes.S k =>
      match body i s with
      | Ok s' => for_from (i + 1) k body s'
      | Fail e => Fail e
      end
  end.

Definition for_loop {S : Type} (n : Z) (body : Z -> S -> result S) (s : S)
  : result S :=
  for_from 0 (Z.to_nat n) body s.

(** ** The decompressing stream *)

(** Modelled from the spec: [ZStream] is not part of the sources at hand.
    It delivers the inflated bytes in order and cannot seek: [z_rest] is
    what is still to be delivered, [z_pos] counts the bytes delivered so
    far.  A read that cannot deliver its byte count fails. *)
Record ZStream : Type := {
  z_rest : list byte;
  z_pos : Z
}.

Local Open Scope result_scope.

Definition z_read (n : Z) (z : ZStream) : result (list byte * ZStream) :=
  if (0 <=? n) && (n <=? zlen (z_rest z))
  then Ok (take n (z_rest z),
           {| z_rest := drop n (z_rest z); z_pos := z_pos z + n |})
  else Fail IOError.

(** stream->read_array(ptr, count) for a type of [w] bytes *)
Definition z_read_array (w count : Z) (z : ZStream)
  : result (list byte * ZStream) :=
  z_read (wrap 64 (count * w)) z.

Definition z_read_uint32 (z : ZStream) : result (Z * ZStream) :=
  '(bs, z') <- z_read 4 z ;; Ok (le_decode bs, z').

Definition z_read_uint64 (z : ZStream) : result (Z * ZStream) :=
  '(bs, z') <- z_read 8 z ;; Ok (le_decode bs, z').

(** The do-while loop that reads the name: characters up to the first
    zero byte, which is consumed too. *)
Fixpoint read_name_loop (rest : list byte) (pos : Z) (name : string)
  : result (string * ZStream) :=
  match rest with
  | [] => Fail IOError
  | ch :: rest' =>
      if Byte.eqb ch x00
      then Ok (name, {| z_rest := rest'; z_pos := pos + 1 |})
      else read_name_loop rest' (pos + 1)
             (name ++ String (ascii_of_byte ch) EmptyString)
  end.

Definition read_name (z : ZStream) : result (string * ZStream) :=
  read_name_loop (z_rest z) (z_pos z) EmptyString.

(** ** The world around the loader *)

(** What the template parameters and the collaborators fix.  The float
    operations are kept as functions on the bytes of their operands. *)
Record Env : Type := {
  scalar_double : bool;          (* ScalarFloat is double, else float *)
  size_bits : Z;                 (* width of Base::ScalarSize in bits *)
  index_bytes : Z;               (* sizeof(Base::ScalarIndex) *)
  f64_to_f32 : list byte -> list byte;     (* (float) x *)
  f32_to_f64 : list byte -> list byte;     (* (double) x *)
  inflate : list byte -> list byte;        (* zlib, from a file position *)
  fresh_vertices : Z -> byte;    (* content of the new vertex buffer *)
  fresh_faces : Z -> byte;       (* content of the new face buffer *)
  Transform : Type;              (* ScalarTransform4f *)
  transform_point : Transform -> list byte -> list byte;  (* to_world * p *)
  transform_normal : Transform -> list byte -> list byte;
                                 (* normalize(to_world * n) *)
  BBox : Type;
  bbox_empty : BBox;
  bbox_expand : BBox -> list byte -> BBox;
  normal_zero : list byte;       (* the zero normal *)
  face_normal : list byte -> list byte -> list byte -> Z -> list byte;
                                 (* what the face with these three corners
                                    adds to the normal of its corner j *)
  normal_add : list byte -> list byte -> list byte;       (* a + n *)
  normal_finish : list byte -> list byte;  (* the sum, at unit length *)
  file_pos_after : Z -> option Z -> Z
                                 (* where the decompressing stream leaves
                                    the file stream: see [io_filter] *)
}.

Record FileSystem : Type := {
  fs_resolve : string -> string;       (* FileResolver::resolve *)
  fs_exists : string -> bool;          (* fs::exists *)
  fs_filename : string -> string;      (* fs::path::filename *)
  fs_content : string -> list byte     (* the bytes of the file *)
}.

(** tfm::format("%s@%i", filename, shape_index) *)
Definition format_name (filename : string) (shape_index : Z) : string :=
  (filename ++ "@"
   ++ DecimalString.NilZero.string_of_int (Z.to_int shape_index))%string.

Section Loader.
Variable env : Env.

(** sizeof(ScalarFloat) *)
Definition float_size : Z := if scalar_double env then 8 else 4.

(** The properties the constructor and its base constructors read.
    Modelled from the spec: the constructor of the [Mesh] base class is
    not part of the sources at hand; it takes the caller's wish to
    suppress vertex normals, the property [face_normals], into
    [m_disable_vertex_normals]. *)
Record Properties : Type := {
  filename : string;
  shape_index : Z;               (* int, default 0 *)
  face_normals : bool;           (* default false *)
  to_world : Transform env;
  has_emitter : bool;            (* is_emitter() *)
  has_sensor : bool              (* is_sensor() *)
}.

(** The members of the mesh the constructor assigns. *)
Record Mesh : Type := {
  m_name : string;
  m_disable_vertex_normals : bool;
  m_vertex_struct : Struct;
  m_face_struct : Struct;
  m_normal_offset : Z;
  m_texcoord_offset : Z;
  m_color_offset : Z;
  m_vertex_size : Z;
  m_vertex_count : Z;
  m_face_size : Z;
  m_face_count : Z;
  m_vertices : list byte;
  m_faces : list byte;
  m_bbox : BBox env
}.

Definition set_vertices (m : Mesh) (buf : list byte) : Mesh :=
  {| m_name := m_name m;
     m_disable_vertex_normals := m_disable_vertex_normals m;
     m_vertex_struct := m_vertex_struct m;
     m_face_struct := m_face_struct m;
     m_normal_offset := m_normal_offset m;
     m_texcoord_offset := m_texcoord_offset m;
     m_color_offset := m_color_offset m;
     m_vertex_size := m_vertex_size m;
     m_vertex_count := m_vertex_count m;
     m_face_size := m_face_size m;
     m_face_count := m_face_count m;
     m_vertices := buf;
     m_faces := m_faces m;
     m_bbox := m_bbox m |}.

Definition set_faces (m : Mesh) (buf : list byte) : Mesh :=
  {| m_name := m_name m;
     m_disable_vertex_normals := m_disable_vertex_normals m;
     m_vertex_struct := m_vertex_struct m;
     m_face_struct := m_face_struct m;
     m_normal_offset := m_normal_offset m;
     m_texcoord_offset := m_texcoord_offset m;
     m_color_offset := m_color_offset m;
     m_vertex_size := m_vertex_size m;
     m_vertex_count := m_vertex_count m;
     m_face_size := m_face_size m;
     m_face_count := m_face_count m;
     m_vertices := m_vertices m;
     m_faces := buf;
     m_bbox := m_bbox m |}.

Definition set_bbox (m : Mesh) (b : BBox env) : Mesh :=
  {| m_name := m_name m;
     m_disable_vertex_normals := m_disable_vertex_normals m;
     m_vertex_struct := m_vertex_struct m;
     m_face_struct := m_face_struct m;
     m_normal_offset := m_normal_offset m;
     m_texcoord_offset := m_texcoord_offset m;
     m_color_offset := m_color_offset m;
     m_vertex_size := m_vertex_size m;
     m_vertex_count := m_vertex_count m;
     m_face_size := m_face_size m;
     m_face_count := m_face_count m;
     m_vertices := m_vertices m;
     m_faces := m_faces m;
     m_bbox := b |}.

(** Modelled from the spec: the accessor [vertex] of the [Mesh] base
    class is not part of the sources at hand.  The buffer is contiguous:
    record [i] starts [m_vertex_size * i] bytes into it. *)
Definition vertex (m : Mesh) (i : Z) : Z := m_vertex_size m * i.

(** Modelled from the spec: the query [has_vertex_normals] of the [Mesh]
    base class is not part of the sources at hand.  Normals are present
    exactly when the offset of their group has been recorded (the offsets
    start out as 0, and no optional group can sit at offset 0, where the
    position is). *)
Definition has_vertex_normals (m : Mesh) : bool :=
  negb (m_normal_offset m =? 0).

(** Modelled from the spec: the query [has_vertex_texcoords] of the [Mesh]
    base class is not part of the sources at hand; as for the normals. *)
Definition has_vertex_texcoords (m : Mesh) : bool :=
  negb (m_texcoord_offset m =? 0).

(** *** The vertex layout (the [Struct] part of the constructor) *)

Record Layout : Type := {
  l_struct : Struct;
  l_normal_offset : Z;
  l_texcoord_offset : Z;
  l_color_offset : Z
}.

(** One optional group: append its fields when [present], and record
    the offset of its first field, cast to [ScalarIndex]. *)
Definition append_group (present : bool) (names : list string)
    (first : string) (s : Struct) : result (Struct * Z) :=
  if present
  then
    let s' := struct_append_all s names float_size in
    off <- struct_offset s' first ;;
    Ok (s', wrap (8 * index_bytes env) off)
  else Ok (s, 0).

Definition build_layout (disable_vertex_normals : bool) (flags : Z)
  : result Layout :=
  let s := struct_append_all [] ["x"; "y"; "z"]%string float_size in
  '(s, normal_offset) <-
     append_group (negb disable_vertex_normals)
       ["nx"; "ny"; "nz"]%string "nx" s ;;
  '(s, texcoord_offset) <-
     append_group (has_flag flags HasTexcoords)
       ["u"; "v"]%string "u" s ;;
  '(s, color_offset) <-
     append_group (has_flag flags HasColors)
       ["r"; "g"; "b"]%string "r" s ;;
  Ok {| l_struct := s;
        l_normal_offset := normal_offset;
        l_texcoord_offset := texcoord_offset;
        l_color_offset := color_offset |}.

(** for (i = 0; i < 3; ++i) append(format("i%i", i), ScalarIndex) *)
Definition build_face_struct : Struct :=
  struct_append_all [] ["i0"; "i1"; "i2"]%string (index_bytes env).

(** *** Bulk reads *)

(** The scatter loop of [read_helper]: [values] holds [dim] scalars of
    [w] bytes per vertex.  Without a conversion the [dim] scalars of a
    vertex are copied in one [memcpy]; with one they are converted and
    stored one by one as [ScalarFloat]. *)
Definition scatter (w : Z) (conv : option (list byte -> list byte))
    (values : list byte) (offset dim : Z) (m : Mesh)
  : result (list byte) :=
  for_loop (m_vertex_count m)
    (fun i buf =>
       let src := drop (dim * i * w) values in
       let dst := vertex m i + offset in
       match conv with
       | None => write_at buf dst (take (w * dim) src)
       | Some f =>
           for_loop dim
             (fun d buf =>
                write_at buf (dst + d * float_size)
                  (fit float_size (f (take w (drop (d * w) src)))))
             buf
       end)
    (m_vertices m).

(** read_helper(stream, dp, offset, dim) *)
Definition read_helper (z : ZStream) (dp : bool) (offset dim : Z)
    (m : Mesh) : result (ZStream * Mesh) :=
  if dp
  then
    '(values, z') <- z_read_array 8 (wrap 64 (m_vertex_count m * dim)) z ;;
    buf <- scatter 8
             (if scalar_double env then None else Some (f64_to_f32 env))
             values offset dim m ;;
    Ok (z', set_vertices m buf)
  else
    '(values, z') <- z_read_array 4 (wrap 64 (m_vertex_count m * dim)) z ;;
    buf <- scatter 4
             (if scalar_double env then Some (f32_to_f64 env) else None)
             values offset dim m ;;
    Ok (z', set_vertices m buf).

(** advance_helper(stream, dp, dim): read and discard. *)
Definition advance_helper (z : ZStream) (dp : bool) (dim : Z) (m : Mesh)
  : result ZStream :=
  if dp
  then
    '(_, z') <- z_read_array 8 (wrap 64 (m_vertex_count m * dim)) z ;;
    Ok z'
  else
    '(_, z') <- z_read_array 4 (wrap 64 (m_vertex_count m * dim)) z ;;
    Ok z'.

(** *** The compressed body *)

(** The locals of the constructor that later statements refer to. *)
Record Header : Type := {
  h_version : Z;
  h_flags : Z;
  h_vertex_count : Z;            (* size_t vertex_count *)
  h_face_count : Z               (* size_t face_count *)
}.

(** The normals of the file: stored, skipped, or absent. *)
Definition read_normals (z : ZStream) (flags : Z) (dp : bool) (m : Mesh)
  : result (ZStream * Mesh) :=
  if has_flag flags HasNormals
  then
    if m_disable_vertex_normals m
    then z' <- advance_helper z dp 3 m ;; Ok (z', m)
    else
      off <- struct_offset (m_vertex_struct m) "nx" ;;
      read_helper z dp off 3 m
  else Ok (z, m).

Definition read_texcoords (z : ZStream) (flags : Z) (dp : bool) (m : Mesh)
  : result (ZStream * Mesh) :=
  if has_flag flags HasTexcoords
  then
    off <- struct_offset (m_vertex_struct m) "u" ;;
    read_helper z dp off 2 m
  else Ok (z, m).

Definition read_colors (z : ZStream) (flags : Z) (dp : bool) (m : Mesh)
  : result (ZStream * Mesh) :=
  if has_flag flags HasColors
  then
    off <- struct_offset (m_vertex_struct m) "r" ;;
    read_helper z dp off 3 m
  else Ok (z, m).

(** stream->read(m_faces.get(), m_face_count * sizeof(ScalarIndex) * 3) *)
Definition read_faces (z : ZStream) (m : Mesh) : result (ZStream * Mesh) :=
  '(bytes, z') <-
     z_read (wrap 64 (m_face_count m * index_bytes env * 3)) z ;;
  buf <- write_at (m_faces m) 0 bytes ;;
  Ok (z', set_faces m buf).

(** The layouts, the counts and the two buffers: from
    [m_vertex_struct = new Struct()] to the allocation of [m_faces].
    The sizes and counts are [ScalarSize] values, and so is the number
    of bytes asked from [new]. *)
Definition init_mesh (disable_vertex_normals : bool) (flags : Z)
    (name : string) (vertex_count face_count : Z) : result Mesh :=
  layout <- build_layout disable_vertex_normals flags ;;
  let face_struct := build_face_struct in
  let vertex_size := wrap (size_bits env) (struct_size (l_struct layout)) in
  let n_vertices := wrap (size_bits env) vertex_count in
  let face_size := wrap (size_bits env) (struct_size face_struct) in
  let n_faces := wrap (size_bits env) face_count in
  Ok {| m_name := name;
        m_disable_vertex_normals := disable_vertex_normals;
        m_vertex_struct := l_struct layout;
        m_face_struct := face_struct;
        m_normal_offset := l_normal_offset layout;
        m_texcoord_offset := l_texcoord_offset layout;
        m_color_offset := l_color_offset layout;
        m_vertex_size := vertex_size;
        m_vertex_count := n_vertices;
        m_face_size := face_size;
        m_face_count := n_faces;
        m_vertices :=
          alloc (fresh_vertices env)
            (wrap (size_bits env) ((n_vertices + 1) * vertex_size));
        m_faces :=
          alloc (fresh_faces env)
            (wrap (size_bits env) ((n_faces + 1) * face_size));
        m_bbox := bbox_empty env |}.

(** The arrays of the body, in file order. *)
Definition read_arrays (z : ZStream) (flags : Z) (m : Mesh)
  : result (ZStream * Mesh) :=
  let double_precision := has_flag flags DoublePrecision in
  off_x <- struct_offset (m_vertex_struct m) "x" ;;
  '(z, m) <- read_helper z double_precision off_x 3 m ;;
  '(z, m) <- read_normals z flags double_precision m ;;
  '(z, m) <- read_texcoords z flags double_precision m ;;
  '(z, m) <- read_colors z flags double_precision m ;;
  read_faces z m.

(** The fields in front of the arrays: the flags, the name (version 4
    only; [name0] is the name the mesh has before) and the two counts. *)
Definition read_body_header (version : Z) (name0 : string) (z : ZStream)
  : result (Z * string * Z * Z * ZStream) :=
  '(flags, z) <- z_read_uint32 z ;;
  '(name, z) <-
     (if version =? MTS_FILEFORMAT_VERSION_V4
      then read_name z
      else Ok (name0, z)) ;;
  '(vertex_count, z) <- z_read_uint64 z ;;
  '(face_count, z) <- z_read_uint64 z ;;
  Ok (flags, name, vertex_count, face_count, z).

(** From [stream->read(flags)] to the read of the faces. *)
Definition decode (disable_vertex_normals : bool) (version : Z)
    (name0 : string) (z : ZStream) : result (Mesh * Header * ZStream) :=
  '(flags, name, vertex_count, face_count, z) <-
     read_body_header version name0 z ;;
  m <- init_mesh disable_vertex_normals flags name
         vertex_count face_count ;;
  '(z, m) <- read_arrays z flags m ;;
  Ok (m,
      {| h_version := version; h_flags := flags;
         h_vertex_count := vertex_count; h_face_count := face_count |},
      z).

(** *** Post-processing *)

(** One round of the loop over the vertices. *)
Definition post_process_vertex (tw : Transform env) (i : Z) (m : Mesh)
  : result Mesh :=
  pos <- read_at (m_vertices m) (vertex m i) (3 * float_size) ;;
  let p := fit (3 * float_size) (transform_point env tw pos) in
  buf <- write_at (m_vertices m) (vertex m i) p ;;
  let bbox := bbox_expand env (m_bbox m) p in
  buf <-
    (if has_vertex_normals m
     then
       n <- read_at buf (vertex m i + m_normal_offset m)
              (3 * float_size) ;;
       write_at buf (vertex m i + m_normal_offset m)
         (fit (3 * float_size) (transform_normal env tw n))
     else Ok buf) ;;
  buf <-
    (if has_vertex_texcoords m
     then
       uv <- read_at buf (vertex m i + m_texcoord_offset m)
               (2 * float_size) ;;
       write_at buf (vertex m i + m_texcoord_offset m) uv
     else Ok buf) ;;
  Ok (set_bbox (set_vertices m buf) bbox).

Definition post_process (tw : Transform env) (m : Mesh) : result Mesh :=
  for_loop (m_vertex_count m) (post_process_vertex tw) m.

(** The test that guards [recompute_vertex_normals()]. *)
Definition recompute_needed (m : Mesh) (flags : Z) : bool :=
  negb (m_disable_vertex_normals m) && negb (has_flag flags HasNormals).

(** *** The recomputation of the vertex normals *)

(** Modelled from the spec: [recompute_vertex_normals] of the [Mesh] base
    class is not part of the sources at hand.  It is the smooth-normal
    recomputation pass: every face adds a normal to each of its three
    vertices, which it finds through the indices stored in the face
    buffer, the sums being kept in one accumulator per vertex; every
    vertex then gets its sum, brought to unit length, stored in its
    normal field.  The arithmetic is the environment's.  An index that
    does not lie below the vertex count reaches outside the accumulators,
    and a position or an index outside its buffer is a fault. *)

(** Index [j] of face [f], as stored in the face buffer. *)
Definition face_index (m : Mesh) (f j : Z) : result Z :=
  bs <- read_at (m_faces m) (m_face_size m * f + j * index_bytes env)
          (index_bytes env) ;;
  Ok (le_decode bs).

Definition vertex_position (m : Mesh) (i : Z) : result (list byte) :=
  read_at (m_vertices m) (vertex m i) (3 * float_size).

(** normals[i] += n *)
Definition accumulate (acc : list (list byte)) (i : Z) (n : list byte)
  : result (list (list byte)) :=
  if (0 <=? i) && (i <? zlen acc)
  then Ok (take i acc
           ++ normal_add env (nth (Z.to_nat i) acc []) n
           :: drop (i + 1) acc)
  else Fail MemoryFault.

(** One round of the loop over the faces. *)
Definition accumulate_face (m : Mesh) (f : Z) (acc : list (list byte))
  : result (list (list byte)) :=
  i0 <- face_index m f 0 ;;
  i1 <- face_index m f 1 ;;
  i2 <- face_index m f 2 ;;
  p0 <- vertex_position m i0 ;;
  p1 <- vertex_position m i1 ;;
  p2 <- vertex_position m i2 ;;
  acc <- accumulate acc i0 (face_normal env p0 p1 p2 0) ;;
  acc <- accumulate acc i1 (face_normal env p0 p1 p2 1) ;;
  accumulate acc i2 (face_normal env p0 p1 p2 2).

(** One round of the loop over the vertices. *)
Definition store_normal (acc : list (list byte)) (i : Z) (m : Mesh)
  : result Mesh :=
  buf <- write_at (m_vertices m) (vertex m i + m_normal_offset m)
           (fit (3 * float_size)
              (normal_finish env (nth (Z.to_nat i) acc []))) ;;
  Ok (set_vertices m buf).

Definition recompute_vertex_normals (m : Mesh) : result Mesh :=
  acc <- for_loop (m_face_count m) (accumulate_face m)
           (repeat (normal_zero env) (Z.to_nat (m_vertex_count m))) ;;
  for_loop (m_vertex_count m) (store_normal acc) m.

(** if (!m_disable_vertex_normals && !has_flag(flags, HasNormals))
        recompute_vertex_normals(); *)
Definition finish_normals (m : Mesh) (flags : Z) : result Mesh :=
  if recompute_needed m flags then recompute_vertex_normals m else Ok m.

(** *** The constructor *)

Record Loaded : Type := {
  ld_mesh : Mesh;
  ld_header : Header;
  ld_stream : ZStream            (* the ZStream after the last read *)
}.

Local Open Scope io_scope.

(** Modelled from the spec: the decompression filter wraps the file
    stream and takes its compressed input from it, from the position the
    file stream has when the filter is created.  These reads are the
    filter's, not calls of the constructor: the trace does not list
    them, [EvInflate pos] marks where they begin.  How far the filter
    has read into the file when it has delivered a number of inflated
    bytes, or when one of its reads has failed ([None]), is its own
    business and a parameter here, [file_pos_after]. *)
Definition io_filter {A} (delivered : A -> Z) (c : result A) : IO A :=
  fun s =>
    (c,
     {| io_pos := file_pos_after env (io_pos s)
                    (match c with
                     | Ok a => Some (delivered a)
                     | Fail _ => None
                     end);
        io_trace := io_trace s |}).

(** The constructor from [stream = new ZStream(stream)] on, the
    decompressing stream being [z]. *)
Definition load_body (props : Properties) (version : Z) (name0 : string)
    (z : ZStream) : IO Loaded :=
  r <- io_filter (fun r => z_pos (snd r) - z_pos z)
         (decode (face_normals props) version name0 z) ;;
  let '(m, header, z') := r in
  m <- io_lift (post_process (to_world props) m) ;;
  m <- (if recompute_needed m (h_flags header)
        then io_log EvRecomputeNormals ;;
             io_lift (recompute_vertex_normals m)
        else io_ret m) ;;
  (if has_emitter props then io_log EvEmitterSetShape else io_ret tt) ;;
  (if has_sensor props then io_log EvSensorSetShape else io_ret tt) ;;
  io_ret {| ld_mesh := m; ld_header := header; ld_stream := z' |}.

(** SerializedMesh::SerializedMesh(const Properties &props).  The base
    constructor has copied the property [face_normals] into
    [m_disable_vertex_normals].  [new ZStream(stream)] wraps the file
    stream where it stands, at [pos]: what the filter delivers is the
    inflation of the bytes of the file from there on, and the file
    stream moves as the filter reads, in [load_body]. *)
Definition SerializedMesh_new (fs : FileSystem) (props : Properties)
  : IO Loaded :=
  io_log (EvResolve (filename props)) ;;
  let file_path := fs_resolve fs (filename props) in
  io_log (EvExists file_path) ;;
  if negb (fs_exists fs file_path)
  then io_fail FileNotFound
  else if shape_index props <? 0
  then io_fail NegativeShapeIndex
  else
    let name0 := format_name (fs_filename fs file_path)
                   (shape_index props) in
    let data := fs_content fs file_path in
    version <- open_stream data file_path (shape_index props) ;;
    pos <- io_tell ;;
    io_log (EvInflate pos) ;;
    load_body props version name0
      {| z_rest := inflate env (drop pos data); z_pos := 0 |}.

(** A load from scratch: its outcome and the events it caused. *)
Definition load (fs : FileSystem) (props : Properties)
  : result Loaded * list io_event :=
  let '(r, s) := SerializedMesh_new fs props
                   {| io_pos := 0; io_trace := [] |} in
  (r, io_trace s).

End Loader.

Arguments filename {env} _.
Arguments shape_index {env} _.
Arguments face_normals {env} _.
Arguments to_world {env} _.
Arguments has_emitter {env} _.
Arguments has_sensor {env} _.
Arguments m_name {env} _.
Arguments m_disable_vertex_normals {env} _.
Arguments m_vertex_struct {env} _.
Arguments m_face_struct {env} _.
Arguments m_normal_offset {env} _.
Arguments m_texcoord_offset {env} _.
Arguments m_color_offset {env} _.
Arguments m_vertex_size {env} _.
Arguments m_vertex_count {env} _.
Arguments m_face_size {env} _.
Arguments m_face_count {env} _.
Arguments m_vertices {env} _.
Arguments m_faces {env} _.
Arguments m_bbox {env} _.
Arguments set_vertices {env} m buf.
Arguments set_faces {env} m buf.
Arguments set_bbox {env} m b.
Arguments vertex {env} m i.
Arguments has_vertex_normals {env} m.
Arguments has_vertex_texcoords {env} m.
Arguments recompute_needed {env} m flags.
Arguments ld_mesh {env} _.
Arguments ld_header {env} _.
Arguments ld_stream {env} _.

(** ** Notions used in the statements *)

(** The leading [u16] of a file and the [u16] after it. *)
Definition leading_u16 (data : list byte) : Z := le_decode (take 2 data).
Definition version_u16 (data : list byte) : Z :=
  le_decode (take 2 (drop 2 data)).

(** The mesh count of the directory: the last [u32] of the file. *)
Definition directory_count (data : list byte) : Z :=
  le_decode (take 4 (drop (zlen data - 4) data)).

(** The mesh without its buffers and its bounding box: what the reads and
    the post-processing leave alone. *)
Definition shape {env : Env} (m : Mesh env) : Mesh env :=
  set_bbox (set_faces (set_vertices m []) []) (bbox_empty env).

Definition fields (size : Z) (names : list string) : Struct :=
  map (fun name => {| field_name := name; field_size := size |}) names.

(** The layout the statements expect for a given preference and flags. *)
Definition expected_struct (size : Z) (disable : bool) (flags : Z) : Struct :=
  fields size ["x"; "y"; "z"]%string
  ++ (if disable then [] else fields size ["nx"; "ny"; "nz"]%string)
  ++ (if has_flag flags HasTexcoords
      then fields size ["u"; "v"]%string else [])
  ++ (if has_flag flags HasColors
      then fields size ["r"; "g"; "b"]%string else []).


(** The arrays of the body read and thrown away: what the reads of
    [read_arrays] take from the stream, whatever they store. *)
Definition skip_arrays (env : Env) (z : ZStream) (flags : Z) (m : Mesh env)
  : result ZStream :=
  let dp := has_flag flags DoublePrecision in
  z <- advance_helper env z dp 3 m ;;
  z <- (if has_flag flags HasNormals
        then advance_helper env z dp 3 m else Ok z) ;;
  z <- (if has_flag flags HasTexcoords
        then advance_helper env z dp 2 m else Ok z) ;;
  z <- (if has_flag flags HasColors
        then advance_helper env z dp 3 m else Ok z) ;;
  '(_, z) <- z_read (wrap 64 (m_face_count m * index_bytes env * 3)) z ;;
  Ok z.

(** The position of the bit a flag stands for. *)
Definition flag_bit (f : TriMeshFlags) : Z :=
  match f with
  | HasNormals      => 0
  | HasTexcoords    => 1
  | HasTangents     => 2
  | HasColors       => 3
  | FaceNormals     => 4
  | SinglePrecision => 12
  | DoublePrecision => 13
  end.

(** Two flags words that differ at most in the bit [HasTangents]. *)
Definition flags_agree (flags1 flags2 : Z) : Prop :=
  forall f, f <> HasTangents -> has_flag flags1 f = has_flag flags2 f.

(** The byte [b] with the bits of [k] flipped. *)
Definition byte_xor (b : byte) (k : N) : byte := B (N.lxor (Byte.to_N b) k).

(** A body with bit 0x0004 of its flags word flipped.  The word is the
    first field of the body and is little-endian, so the bit is bit 2 of
    the first byte. *)
Definition flip_tangents (body : list byte) : list byte :=
  match body with
  | [] => []
  | b :: rest => byte_xor b 4 :: rest
  end.

Definition result_map {A B : Type} (f : A -> B) (r : result A) : result B :=
  match r with
  | Ok a => Ok (f a)
  | Fail e => Fail e
  end.

(** A loaded mesh without the local [flags]: the mesh (layouts, offsets,
    sizes, counts, name, buffers, bounding box), the stream after the last
    read, and the version and counts of the header. *)
Definition observable {env : Env} (ld : Loaded env)
  : Mesh env * ZStream * Z * Z * Z :=
  (ld_mesh ld, ld_stream ld, h_version (ld_header ld),
   h_vertex_count (ld_header ld), h_face_count (ld_header ld)).

(** ** Notions used in the proofs *)

(** Two results that fail alike or succeed with related values. *)
Definition result_rel {A : Type} (R : A -> A -> Prop) (r1 r2 : result A)
  : Prop :=
  match r1, r2 with
  | Ok a1, Ok a2 => R a1 a2
  | Fail e1, Fail e2 => e1 = e2
  | _, _ => False
  end.

(** The invariant of the stores: the length of the buffer and everything
    from byte [K] on stay as they were in [buf0]. *)
Definition keeps_from (K : Z) (buf0 buf : list byte) : Prop :=
  zlen buf = zlen buf0 /\ drop K buf = drop K buf0.

(** The byte where the sentinel record of the vertex buffer starts. *)
Definition sentinel_start {env : Env} (m : Mesh env) : Z :=
  m_vertex_size m * m_vertex_count m.

(** Where the fields of the layout sit inside a record. *)
Definition layout_ok {env : Env} (m : Mesh env) : Prop :=
  0 <= m_vertex_count m /\ 3 * float_size env <= m_vertex_size m /\
  (forall name dim off,
     In (name, dim) [("x", 3); ("nx", 3); ("u", 2); ("r", 3)]%string ->
     struct_offset (m_vertex_struct m) name = Ok off ->
     0 <= off /\ off + dim * float_size env <= m_vertex_size m) /\
  (has_vertex_normals m = true ->
   0 <= m_normal_offset m /\
   m_normal_offset m + 3 * float_size env <= m_vertex_size m) /\
  (has_vertex_texcoords m = true ->
   0 <= m_texcoord_offset m /\
   m_texcoord_offset m + 2 * float_size env <= m_vertex_size m).

(** A step that stores into the vertex buffer only, below the sentinel. *)
Definition vertex_step {env : Env} (m m' : Mesh env) : Prop :=
  shape m' = shape m /\ m_faces m' = m_faces m /\
  keeps_from (sentinel_start m) (m_vertices m) (m_vertices m').

(** ** Notions used in further statements *)

(** The [n] elements of [l] from index [off] on. *)
Definition slice {A : Type} (l : list A) (off n : Z) : list A :=
  take n (drop off l).

(** The bits of the flags word the loader tests: HasNormals,
    HasTexcoords, HasColors and DoublePrecision. *)
Definition tested_flags : Z := 0x200B.

(** The declared counts are small enough for the byte sizes of the two
    buffers to be computed in [ScalarSize] without wrap-around. *)
Definition sizes_fit (env : Env) (disable : bool)
    (flags vertex_count face_count : Z) : Prop :=
  (vertex_count + 1)
  * struct_size (expected_struct (float_size env) disable flags)
  < 2 ^ size_bits env /\
  (face_count + 1) * (3 * index_bytes env) < 2 ^ size_bits env.

(** A mesh whose layout is the one built for [flags] and whose vertex
    buffer reaches at least to its sentinel record. *)
Definition in_bounds {env : Env} (flags : Z) (m : Mesh env) : Prop :=
  layout_ok m /\
  m_vertex_struct m
    = expected_struct (float_size env) (m_disable_vertex_normals m) flags /\
  sentinel_start m <= zlen (m_vertices m).
(** The width of a scalar of the file, by the bit [DoublePrecision]. *)
Definition file_width (dp : bool) : Z := if dp then 8 else 4.

(** The conversion [read_helper] applies to the scalars of the file:
    none when the file has the precision of the build. *)
Definition conversion (env : Env) (dp : bool)
  : option (list byte -> list byte) :=
  if dp
  then (if scalar_double env then None else Some (f64_to_f32 env))
  else (if scalar_double env then Some (f32_to_f64 env) else None).

(** What the buffer holds for the scalar [x] of the file. *)
Definition stored (env : Env) (conv : option (list byte -> list byte))
    (x : list byte) : list byte :=
  match conv with
  | None => x
  | Some f => fit (float_size env) (f x)
  end.

(** The byte range [p, p + n) lies outside the field of [len] bytes at
    [offset] of each of the first [count] records of [size] bytes. *)
Definition outside_field (size count offset len p n : Z) : Prop :=
  forall i, 0 <= i < count ->
            p + n <= size * i + offset \/ size * i + offset + len <= p.

(** The field of [dim] scalars at [offset] of every record of [m] holds
    the array of the stream that starts [start] bytes into [rest], each
    scalar as [read_helper] stores it. *)
Definition holds_array {env : Env} (dp : bool) (rest : list byte)
    (start : Z) (m : Mesh env) (offset dim : Z) : Prop :=
  forall i d, 0 <= i < m_vertex_count m -> 0 <= d < dim ->
    slice (m_vertices m) (vertex m i + offset + d * float_size env)
      (float_size env)
    = stored env (conversion env dp)
        (slice rest (start + (dim * i + d) * file_width dp)
           (file_width dp)).

(** Where the optional groups sit inside a record. *)
Definition texcoords_field (env : Env) (disable : bool) : Z :=
  float_size env * (if disable then 3 else 6).

Definition colors_field (env : Env) (disable : bool) (flags : Z) : Z :=
  float_size env * ((if disable then 3 else 6)
                    + (if has_flag flags HasTexcoords then 2 else 0)).

(** The bytes an array of [dim] scalars per vertex takes in the body. *)
Definition array_bytes (flags count dim : Z) : Z :=
  count * dim * file_width (has_flag flags DoublePrecision).

(** Where the arrays start in the body, counted from the end of its
    header: the positions come first. *)
Definition normals_start (flags count : Z) : Z := array_bytes flags count 3.

Definition texcoords_start (flags count : Z) : Z :=
  normals_start flags count
  + (if has_flag flags HasNormals then array_bytes flags count 3 else 0).

Definition colors_start (flags count : Z) : Z :=
  texcoords_start flags count
  + (if has_flag flags HasTexcoords then array_bytes flags count 2 else 0).

Definition faces_start (flags count : Z) : Z :=
  colors_start flags count
  + (if has_flag flags HasColors then array_bytes flags count 3 else 0).

(** What the post-processing stores for vertex [i], from the buffer of
    [m]: the position and the normal in world space. *)
Definition world_position {env : Env} (tw : Transform env) (m : Mesh env)
    (i : Z) : list byte :=
  fit (3 * float_size env)
    (transform_point env tw
       (slice (m_vertices m) (vertex m i) (3 * float_size env))).

Definition world_normal {env : Env} (tw : Transform env) (m : Mesh env)
    (i : Z) : list byte :=
  fit (3 * float_size env)
    (transform_normal env tw
       (slice (m_vertices m) (vertex m i + m_normal_offset m)
          (3 * float_size env))).

(** The box [b] expanded by the world positions of the first [k]
    vertices of [m], in the order of the vertices. *)
Definition expand_by_vertices {env : Env} (tw : Transform env)
    (m : Mesh env) (k : nat) (b : BBox env) : BBox env :=
  fold_left
    (fun b i => bbox_expand env b (world_position tw m (Z.of_nat i)))
    (seq 0 k) b.

(** The [dim] scalars of vertex [i] of the array that starts [start]
    bytes into [rest], each as [read_helper] stores it, one behind the
    other. *)
Definition file_vector (env : Env) (dp : bool) (rest : list byte)
    (start dim i : Z) : list byte :=
  flat_map
    (fun d =>
       stored env (conversion env dp)
         (slice rest (start + (dim * i + Z.of_nat d) * file_width dp)
            (file_width dp)))
    (seq 0 (Z.to_nat dim)).

(** Every index of the face buffer, read the way the recomputation of
    the normals reads it, lies below the vertex count. *)
Definition faces_valid {env : Env} (m : Mesh env) : Prop :=
  forall f j, 0 <= f < m_face_count m -> 0 <= j < 3 ->
    le_decode (slice (m_faces m)
                 (m_face_size m * f + j * index_bytes env)
                 (index_bytes env))
    < m_vertex_count m.



End SerializedMesh.

(* ===================================================================== *)
(** * Concrete inputs *)
(* ===================================================================== *)

Module Examples.
Import SerializedMesh.

Definition bytes (l : list N) : list byte := map B l.

(** A single-precision build with 32-bit sizes and indices, files stored
    without compression and read by the filter as far as it delivers,
    an identity [to_world], and a bounding box that keeps the points it
    was expanded by.  The normals are those of faces that lie in the xy
    plane and wind counter-clockwise, as the faces of the examples do:
    every face adds the z axis, and the sums are kept at unit length. *)
Definition env32 : Env :=
  {| scalar_double := false;
     size_bits := 32;
     index_bytes := 4;
     f64_to_f32 := fun bs => skipn 4 bs;
     f32_to_f64 := fun bs => bytes [0; 0; 0; 0]%N ++ bs;
     inflate := fun bs => bs;
     fresh_vertices := fun _ => B 0xCD;
     fresh_faces := fun _ => B 0xCD;
     Transform := unit;
     transform_point := fun _ p => p;
     transform_normal := fun _ n => n;
     BBox := list (list byte);
     bbox_empty := [];
     bbox_expand := fun b p => b ++ [p];
     normal_zero := bytes [0; 0; 0; 0; 0; 0; 0; 0; 0; 0; 0; 0]%N;
     face_normal := fun _ _ _ _ =>
                      bytes [0; 0; 0; 0; 0; 0; 0; 0; 0; 0; 128; 63]%N;
     normal_add := fun _ n => n;
     normal_finish := fun n => n;
     file_pos_after := fun pos n =>
                         match n with
                         | Some k => pos + k
                         | None => pos
                         end |}.

Definition f32_0 : list byte := bytes [0; 0; 0; 0]%N.
Definition f32_1 : list byte := bytes [0; 0; 0x80; 0x3F]%N.

(** The body of a triangle: [flags], the name, 3 vertices, 1 face. *)
Definition tri_body (flags : Z) (name : list byte) : list byte :=
  le_encode 4 flags ++ name
  ++ le_encode 8 3 ++ le_encode 8 1
  ++ (f32_0 ++ f32_0 ++ f32_0)
  ++ (f32_1 ++ f32_0 ++ f32_0)
  ++ (f32_0 ++ f32_1 ++ f32_0)
  ++ le_encode 4 0 ++ le_encode 4 1 ++ le_encode 4 2.

(** The same body with a face that names the vertices 0, 1 and 7. *)
Definition stray_index_body (flags : Z) (name : list byte) : list byte :=
  le_encode 4 flags ++ name
  ++ le_encode 8 3 ++ le_encode 8 1
  ++ (f32_0 ++ f32_0 ++ f32_0)
  ++ (f32_1 ++ f32_0 ++ f32_0)
  ++ (f32_0 ++ f32_1 ++ f32_0)
  ++ le_encode 4 0 ++ le_encode 4 1 ++ le_encode 4 7.

Definition name_tri : list byte := bytes [116; 114; 105; 0]%N.

(** Version 4, one mesh named "tri", directory [0] and count 1. *)
Definition tri_file : list byte :=
  le_encode 2 0x041C ++ le_encode 2 4 ++ tri_body 0x1000 name_tri
  ++ le_encode 8 0 ++ le_encode 4 1.

(** The same with the face-normal flag 0x0010 set. *)
Definition tri_file_face_normals : list byte :=
  le_encode 2 0x041C ++ le_encode 2 4 ++ tri_body 0x1010 name_tri
  ++ le_encode 8 0 ++ le_encode 4 1.

(** Version 3 (no name, 32-bit directory), one mesh. *)
Definition tri_file_v3 : list byte :=
  le_encode 2 0x041C ++ le_encode 2 3 ++ tri_body 0x1000 []
  ++ le_encode 4 0 ++ le_encode 4 1.

(** Version 4, one mesh, and a count field of 2^31. *)
Definition signed_count_file : list byte :=
  le_encode 2 0x041C ++ le_encode 2 4 ++ tri_body 0x1000 name_tri
  ++ le_encode 8 0 ++ le_encode 4 (2 ^ 31).

(** Version 4, two meshes: the second record starts at byte 76. *)
Definition two_file : list byte :=
  le_encode 2 0x041C ++ le_encode 2 4 ++ tri_body 0x1000 name_tri
  ++ le_encode 2 0x041C ++ le_encode 2 4 ++ tri_body 0x1000 name_tri
  ++ le_encode 8 0 ++ le_encode 8 76 ++ le_encode 4 2.

(** Version 4, normals stored in the file (flag 0x0001), one vertex and
    no face. *)
Definition normals_file : list byte :=
  le_encode 2 0x041C ++ le_encode 2 4
  ++ le_encode 4 0x1001 ++ bytes [0]%N
  ++ le_encode 8 1 ++ le_encode 8 0
  ++ (f32_0 ++ f32_0 ++ f32_0)
  ++ (f32_0 ++ f32_0 ++ f32_1)
  ++ le_encode 8 0 ++ le_encode 4 1.

(** Version 4, an empty name, a declared vertex count of 2^32, no face,
    and no array data. *)
Definition huge_count_file : list byte :=
  le_encode 2 0x041C ++ le_encode 2 4
  ++ le_encode 4 0x1000 ++ bytes [0]%N
  ++ le_encode 8 (2 ^ 32) ++ le_encode 8 0
  ++ le_encode 8 0 ++ le_encode 4 1.

Definition fs_of (present : bool) (data : list byte) : FileSystem :=
  {| fs_resolve := fun n => n;
     fs_exists := fun _ => present;
     fs_filename := fun p => p;
     fs_content := fun _ => data |}.

Definition props_of (index : Z) (face_normals : bool) : Properties env32 :=
  {| filename := "tri.serialized";
     shape_index := index;
     face_normals := face_normals;
     to_world := tt : Transform env32;
     has_emitter := false;
     has_sensor := false |}.

Definition io_start : io_state := {| io_pos := 0; io_trace := [] |}.

(** Version 4, no mesh, and a directory that claims 2^31 meshes. *)
Definition big_count_file : list byte :=
  le_encode 2 0x041C ++ le_encode 2 4 ++ le_encode 4 (2 ^ 31).

End Examples.


(* ===================================================================== *)
(** * Facts about the mesh-attribute texture *)
(* ===================================================================== *)

Module MeshAttributeFacts.
Import MeshAttribute.

Lemma prefix_true_app (p s : string) :
  String.prefix p s = true -> exists post, s = (p ++ post)%string.
Proof.
  revert s; induction p as [|c p IH]; intros s H.
  - exists s; reflexivity.
  - destruct s as [|d s]; simpl in H; [discriminate|].
    destruct (Ascii.ascii_dec c d) as [->|]; [|discriminate].
    destruct (IH _ H) as [post ->]. exists post; reflexivity.
Qed.

Lemma prefix_app (p post : string) : String.prefix p (p ++ post) = true.
Proof.
  induction p as [|c p IH]; simpl.
  - destruct post; reflexivity.
  - destruct (Ascii.ascii_dec c c); [exact IH|congruence].
Qed.

Lemma find_unfold (s sub : string) :
  find s sub =
  if String.prefix sub s then Some O
  else match s with
       | EmptyString => None
       | String _ rest => option_map S (find rest sub)
       end.
Proof. destruct s; reflexivity. Qed.

Lemma find_some_contains (s sub : string) (n : nat) :
  find s sub = Some n -> contains s sub.
Proof.
  revert n; induction s as [|c s IH]; intros n; rewrite find_unfold;
    match goal with |- context [String.prefix ?a ?b] =>
      destruct (String.prefix a b) eqn:E end; intros H.
  - destruct (prefix_true_app _ _ E) as [post Hp].
    exists EmptyString, post; exact Hp.
  - discriminate.
  - destruct (prefix_true_app _ _ E) as [post Hp].
    exists EmptyString, post; exact Hp.
  - destruct (find s sub) as [k|] eqn:F; [|discriminate].
    destruct (IH k eq_refl) as (pre & post & Hp).
    exists (String c pre), post; simpl; rewrite Hp; reflexivity.
Qed.

Lemma find_none_not_contains (s sub : string) :
  find s sub = None -> ~ contains s sub.
Proof.
  induction s as [|c s IH]; rewrite find_unfold;
    match goal with |- context [String.prefix ?a ?b] =>
      destruct (String.prefix a b) eqn:E end; intros H; try discriminate.
  - intros (pre & post & Hp).
    destruct pre; [|discriminate].
    simpl in Hp. rewrite Hp, prefix_app in E. discriminate.
  - destruct (find s sub) eqn:F; [discriminate|].
    intros (pre & post & Hp).
    destruct pre as [|d pre].
    + simpl in Hp. rewrite Hp, prefix_app in E. discriminate.
    + simpl in Hp. injection Hp as _ Hp.
      apply IH; [reflexivity|]. exists pre, post; exact Hp.
Qed.

Lemma find_none_iff (s sub : string) :
  find s sub = None <-> ~ contains s sub.
Proof.
  split; [apply find_none_not_contains|].
  intros H. destruct (find s sub) eqn:F; [|reflexivity].
  exfalso. apply H. eapply find_some_contains; eassumption.
Qed.

(** C9: with a "name" property present, the constructor throws exactly when
    the name contains neither "vertex_" nor "face_" anywhere; when it does
    not throw, the name is stored as given and the scale is the "scale"
    property, or 1.0 when that property is absent. *)
Theorem mesh_attribute_name_check
    (Float : Type) (one : Float) (props : Properties Float) (name : string)
    (Hname : prop_name props = Some name) :
  (throws (MeshAttribute_new one props) <->
     ~ contains name "vertex_" /\ ~ contains name "face_") /\
  (forall t, MeshAttribute_new one props = inr t ->
     m_name t = name /\
     m_scale t = match prop_scale props with Some s => s | None => one end).
Proof.
  unfold MeshAttribute_new. rewrite Hname.
  pose proof (find_none_iff name "vertex_") as Hv.
  pose proof (find_none_iff name "face_") as Hf.
  destruct (find name "vertex_") as [i|] eqn:Ev;
    destruct (find name "face_") as [j|] eqn:Ef; simpl; split.
  - split; [tauto|]. intros [Hc _]. apply Hc.
    eapply find_some_contains; eassumption.
  - intros t [= <-]; split; reflexivity.
  - split; [tauto|]. intros [Hc _]. apply Hc.
    eapply find_some_contains; eassumption.
  - intros t [= <-]; split; reflexivity.
  - split; [tauto|]. intros [_ Hc]. apply Hc.
    eapply find_some_contains; eassumption.
  - intros t [= <-]; split; reflexivity.
  - split; [intros _|trivial]. split; [apply Hv|apply Hf]; reflexivity.
  - intros t H; discriminate.
Qed.

(** The name "my_face_id" has no accepted prefix, yet it is accepted, and
    the default scale is stored. *)
Lemma mesh_attribute_name_check_witness :
  let props := {| prop_name := Some "my_face_id"%string;
                  prop_scale := @None nat |} in
  MeshAttribute_new 1%nat props
    = inr {| m_name := "my_face_id"%string; m_scale := 1%nat |} /\
  (throws (MeshAttribute_new 1%nat props) <->
     ~ contains "my_face_id" "vertex_" /\ ~ contains "my_face_id" "face_").
Proof.
  split; [reflexivity|].
  apply (mesh_attribute_name_check nat 1%nat
           {| prop_name := Some "my_face_id"%string; prop_scale := None |}
           "my_face_id"%string eq_refl).
Defined.

End MeshAttributeFacts.

(* ===================================================================== *)
(** * Facts about the serialized mesh loader *)
(* ===================================================================== *)

Module SerializedMeshFacts.
Import SerializedMesh Examples.

(** ** Integers and bytes *)

Lemma byte_val_range (b : byte) : 0 <= byte_val b < 256.
Proof.
  unfold byte_val. pose proof (Byte.to_N_bounded b). lia.
Qed.

Lemma le_decode_range (bs : list byte) :
  0 <= le_decode bs < 256 ^ zlen bs.
Proof.
  unfold zlen. induction bs as [|b bs IH]; cbn [le_decode].
  - simpl. lia.
  - pose proof (byte_val_range b).
    change (List.length (b :: bs)) with (S (List.length bs)).
    rewrite Nat2Z.inj_succ, Z.pow_succ_r by lia. lia.
Qed.

Lemma zlen_nonneg {A} (l : list A) : 0 <= zlen l.
Proof. unfold zlen. lia. Qed.

Lemma zlen_take {A} (n : Z) (l : list A) :
  0 <= n <= zlen l -> zlen (take n l) = n.
Proof.
  unfold zlen, take. intros H. rewrite length_firstn. lia.
Qed.

Lemma zlen_take_le {A} (n : Z) (l : list A) :
  0 <= n -> zlen (take n l) <= n.
Proof.
  unfold zlen, take. intros H. rewrite length_firstn. lia.
Qed.

Lemma zlen_drop {A} (n : Z) (l : list A) :
  0 <= n <= zlen l -> zlen (drop n l) = zlen l - n.
Proof.
  unfold zlen, drop. intros H. rewrite length_skipn. lia.
Qed.

Lemma zlen_app {A} (l1 l2 : list A) : zlen (l1 ++ l2) = zlen l1 + zlen l2.
Proof. unfold zlen. rewrite length_app. lia. Qed.

Lemma wrap_small (bits x : Z) : 0 <= x < 2 ^ bits -> wrap bits x = x.
Proof. intros H. unfold wrap. apply Z.mod_small. exact H. Qed.

Lemma wrap_bounds (bits x : Z) : 0 <= x -> 0 <= wrap bits x <= x.
Proof.
  intros H. unfold wrap.
  destruct (Z.eq_dec (2 ^ bits) 0) as [E|E].
  - rewrite E. rewrite Z.mod_0_r. lia.
  - assert (0 < 2 ^ bits) by (pose proof (Z.pow_nonneg 2 bits); lia).
    pose proof (Z.mod_pos_bound x (2 ^ bits) ltac:(lia)).
    pose proof (Z.mod_le x (2 ^ bits) ltac:(lia) ltac:(lia)). lia.
Qed.

Lemma to_signed_small (bits x : Z) :
  0 < bits -> 0 <= x < 2 ^ (bits - 1) -> to_signed bits x = x.
Proof.
  intros Hb Hx. unfold to_signed.
  assert (2 ^ bits = 2 * 2 ^ (bits - 1)) as E.
  { replace bits with (Z.succ (bits - 1)) at 1 by lia.
    rewrite Z.pow_succ_r by lia. reflexivity. }
  rewrite wrap_small by lia.
  destruct (x <? 2 ^ (bits - 1)) eqn:C; [reflexivity|].
  apply Z.ltb_ge in C. lia.
Qed.

(** A [short] read from two bytes equals a constant below 2^15 exactly
    when the unsigned 16-bit value does. *)
Lemma to_signed_16_eq (x c : Z) :
  0 <= x < 65536 -> 0 <= c < 32768 ->
  (to_signed 16 x =? c) = (x =? c).
Proof.
  intros Hx Hc. unfold to_signed.
  rewrite wrap_small by (change (2 ^ 16) with 65536; lia).
  change (2 ^ (16 - 1)) with 32768. change (2 ^ 16) with 65536.
  destruct (x <? 32768) eqn:C; [reflexivity|].
  apply Z.ltb_ge in C.
  destruct (x - 65536 =? c) eqn:E1; destruct (x =? c) eqn:E2; try reflexivity;
    try apply Z.eqb_eq in E1; try apply Z.eqb_eq in E2; lia.
Qed.

(** ** Running the file stream *)

Lemma stream_read_ok (data : list byte) (n pos : Z) (tr : list io_event) :
  0 <= pos -> pos + n <= zlen data ->
  stream_read data n {| io_pos := pos; io_trace := tr |} =
    (Ok (take n (drop pos data)),
     {| io_pos := pos + n; io_trace := tr ++ [EvRead pos n] |}).
Proof.
  intros H1 H2. unfold stream_read, io_bind, io_tell, io_log, io_set_pos,
    io_ret, io_fail. simpl.
  destruct (0 <=? pos) eqn:C1; [|apply Z.leb_gt in C1; lia].
  destruct (pos + n <=? zlen data) eqn:C2; [|apply Z.leb_gt in C2; lia].
  reflexivity.
Qed.

Lemma stream_read_short (data : list byte) (n pos : Z) (tr : list io_event) :
  zlen data < pos + n ->
  stream_read data n {| io_pos := pos; io_trace := tr |} =
    (Fail IOError,
     {| io_pos := pos; io_trace := tr ++ [EvRead pos n] |}).
Proof.
  intros H. unfold stream_read, io_bind, io_tell, io_log, io_set_pos,
    io_ret, io_fail. simpl.
  destruct (pos + n <=? zlen data) eqn:C2; [apply Z.leb_le in C2; lia|].
  rewrite andb_false_r. reflexivity.
Qed.

Lemma read_short_ok (data : list byte) (pos : Z) (tr : list io_event) :
  0 <= pos -> pos + 2 <= zlen data ->
  read_short data {| io_pos := pos; io_trace := tr |} =
    (Ok (to_signed 16 (le_decode (take 2 (drop pos data)))),
     {| io_pos := pos + 2; io_trace := tr ++ [EvRead pos 2] |}).
Proof.
  intros H1 H2. unfold read_short, io_bind.
  rewrite stream_read_ok by assumption. reflexivity.
Qed.

Lemma read_uint32_ok (data : list byte) (pos : Z) (tr : list io_event) :
  0 <= pos -> pos + 4 <= zlen data ->
  read_uint32 data {| io_pos := pos; io_trace := tr |} =
    (Ok (le_decode (take 4 (drop pos data))),
     {| io_pos := pos + 4; io_trace := tr ++ [EvRead pos 4] |}).
Proof.
  intros H1 H2. unfold read_uint32, io_bind.
  rewrite stream_read_ok by assumption. reflexivity.
Qed.

Lemma read_uint64_ok (data : list byte) (pos : Z) (tr : list io_event) :
  0 <= pos -> pos + 8 <= zlen data ->
  read_uint64 data {| io_pos := pos; io_trace := tr |} =
    (Ok (le_decode (take 8 (drop pos data))),
     {| io_pos := pos + 8; io_trace := tr ++ [EvRead pos 8] |}).
Proof.
  intros H1 H2. unfold read_uint64, io_bind.
  rewrite stream_read_ok by assumption. reflexivity.
Qed.

Lemma le_decode_take_u16 (data : list byte) (pos : Z) :
  0 <= le_decode (take 2 (drop pos data)) < 65536.
Proof.
  pose proof (le_decode_range (take 2 (drop pos data))) as H.
  pose proof (zlen_take_le 2 (drop pos data) ltac:(lia)) as L.
  pose proof (zlen_nonneg (take 2 (drop pos data))) as L0.
  assert (256 ^ zlen (take 2 (drop pos data)) <= 256 ^ 2)
    by (apply Z.pow_le_mono_r; lia).
  change (256 ^ 2) with 65536 in *. lia.
Qed.

(** ** The header *)

(** C6, as amended: a negative index makes the load fail after the file
    name has been resolved and the file probed for existence, and before
    the file is opened or read; a missing file is reported as such. *)
Theorem negative_index_fails_before_open
    (env : Env) (fs : FileSystem) (props : Properties env)
    (Hneg : shape_index props < 0) :
  load env fs props =
    (Fail (if fs_exists fs (fs_resolve fs (filename props))
           then NegativeShapeIndex else FileNotFound),
     [EvResolve (filename props);
      EvExists (fs_resolve fs (filename props))]).
Proof.
  unfold load, SerializedMesh_new, io_bind, io_log, io_fail. simpl.
  destruct (fs_exists fs (fs_resolve fs (filename props))); simpl.
  - destruct (shape_index props <? 0) eqn:C; [reflexivity|].
    apply Z.ltb_ge in C. lia.
  - reflexivity.
Qed.

Lemma negative_index_fails_before_open_witness :
  load env32 (fs_of true tri_file) (props_of (-1) false) =
    (Fail NegativeShapeIndex,
     [EvResolve "tri.serialized"; EvExists "tri.serialized"]).
Proof.
  apply (negative_index_fails_before_open env32 (fs_of true tri_file)
           (props_of (-1) false)).
  simpl. lia.
Defined.

(** C6 as stated does not hold: with index -1 the file is probed for
    existence before the index is looked at, and when the file is missing
    it is that probe which fails the load. *)
Lemma negative_index_probes_the_file :
  (let r := load env32 (fs_of true tri_file) (props_of (-1) false) in
   fst r = Fail NegativeShapeIndex /\
   In (EvExists "tri.serialized") (snd r)) /\
  (let r := load env32 (fs_of false tri_file) (props_of (-1) false) in
   fst r = Fail FileNotFound /\
   In (EvExists "tri.serialized") (snd r)).
Proof.
  split; (split; [reflexivity | simpl; auto]).
Qed.

(** The two header fields, read from a file of at least four bytes. *)
Lemma open_stream_header (data : list byte) (path : string) (index : Z)
    (tr : list io_event) :
  4 <= zlen data ->
  open_stream data path index {| io_pos := 0; io_trace := tr |} =
    let s := {| io_pos := 4;
                io_trace := ((tr ++ [EvOpen path]) ++ [EvRead 0 2])
                            ++ [EvRead 2 2] |} in
    if negb (leading_u16 data =? MTS_FILEFORMAT_HEADER)
    then (Fail InvalidFormat, s)
    else if negb (version_u16 data =? MTS_FILEFORMAT_VERSION_V3)
            && negb (version_u16 data =? MTS_FILEFORMAT_VERSION_V4)
    then (Fail IncompatibleVersion, s)
    else
      io_bind
        (if negb (index =? 0)
         then locate_submesh data (version_u16 data) index
         else io_ret tt)
        (fun _ => io_ret (version_u16 data)) s.
Proof.
  intros Hlen. unfold open_stream.
  unfold io_bind at 1. unfold io_log at 1. cbn [io_pos io_trace].
  unfold io_bind at 1. rewrite read_short_ok by lia.
  unfold io_bind at 1. rewrite read_short_ok by lia.
  change (0 + 2) with 2. change (2 + 2) with 4.
  change (drop 0 data) with data.
  fold (leading_u16 data). fold (version_u16 data).
  pose proof (le_decode_take_u16 data 0) as R1.
  pose proof (le_decode_take_u16 data 2) as R2.
  change (drop 0 data) with data in R1.
  fold (leading_u16 data) in R1. fold (version_u16 data) in R2.
  unfold MTS_FILEFORMAT_HEADER, MTS_FILEFORMAT_VERSION_V3,
    MTS_FILEFORMAT_VERSION_V4.
  rewrite !to_signed_16_eq by lia.
  destruct (leading_u16 data =? 1052); cbn [negb]; [|reflexivity].
  destruct (version_u16 data =? 3) eqn:E3; cbn [negb andb].
  - apply Z.eqb_eq in E3.
    rewrite (to_signed_small 16 (version_u16 data)) by (simpl; lia).
    reflexivity.
  - destruct (version_u16 data =? 4) eqn:E4; cbn [negb]; [|reflexivity].
    apply Z.eqb_eq in E4.
    rewrite (to_signed_small 16 (version_u16 data)) by (simpl; lia).
    reflexivity.
Qed.

(** C7, as amended: when the file holds the four header bytes, a leading
    u16 other than 0x041C fails the load with the invalid-format error,
    and otherwise a version other than 3 and 4 fails it with the
    incompatible-version error; in both cases nothing is read after the
    two header fields and no mesh results. *)
Theorem header_mismatch_is_fatal
    (env : Env) (fs : FileSystem) (props : Properties env)
    (Hexists : fs_exists fs (fs_resolve fs (filename props)) = true)
    (Hindex : 0 <= shape_index props)
    (Hlen : 4 <= zlen (fs_content fs (fs_resolve fs (filename props)))) :
  let path := fs_resolve fs (filename props) in
  let data := fs_content fs path in
  let events := [EvResolve (filename props); EvExists path; EvOpen path;
                 EvRead 0 2; EvRead 2 2] in
  (leading_u16 data <> 0x041C ->
   load env fs props = (Fail InvalidFormat, events)) /\
  (leading_u16 data = 0x041C ->
   version_u16 data <> 0x0003 -> version_u16 data <> 0x0004 ->
   load env fs props = (Fail IncompatibleVersion, events)).
Proof.
  intros path data events.
  assert (forall k,
    SerializedMesh_new env fs props {| io_pos := 0; io_trace := [] |} =
    io_bind (open_stream data path (shape_index props)) k
      {| io_pos := 0;
         io_trace := [EvResolve (filename props); EvExists path] |} ->
    (leading_u16 data <> 0x041C ->
       load env fs props = (Fail InvalidFormat, events)) /\
    (leading_u16 data = 0x041C ->
       version_u16 data <> 0x0003 -> version_u16 data <> 0x0004 ->
       load env fs props = (Fail IncompatibleVersion, events))) as Key.
  { intros k Hrun. unfold load. rewrite Hrun. unfold io_bind.
    rewrite open_stream_header by exact Hlen. cbv zeta.
    unfold MTS_FILEFORMAT_HEADER, MTS_FILEFORMAT_VERSION_V3,
      MTS_FILEFORMAT_VERSION_V4.
    split.
    - intros Hm. apply Z.eqb_neq in Hm. rewrite Hm. reflexivity.
    - intros Hm H3 H4. apply Z.eqb_eq in Hm. apply Z.eqb_neq in H3, H4.
      rewrite Hm, H3, H4. reflexivity. }
  eapply Key.
  unfold SerializedMesh_new.
  unfold io_bind at 1. unfold io_log at 1.
  unfold io_bind at 1. unfold io_log at 1. cbn [io_pos io_trace app].
  cbv zeta. rewrite Hexists. cbn [negb].
  destruct (shape_index props <? 0) eqn:C; [apply Z.ltb_lt in C; lia|].
  reflexivity.
Qed.

Lemma header_mismatch_is_fatal_witness :
  load env32 (fs_of true (bytes [0x1C; 0x04; 0x05; 0x00]%N))
    (props_of 0 false) =
    (Fail IncompatibleVersion,
     [EvResolve "tri.serialized"; EvExists "tri.serialized";
      EvOpen "tri.serialized"; EvRead 0 2; EvRead 2 2]).
Proof.
  refine (proj2 (header_mismatch_is_fatal env32
                   (fs_of true (bytes [0x1C; 0x04; 0x05; 0x00]%N))
                   (props_of 0 false) eq_refl _ _) _ _ _).
  - simpl. lia.
  - vm_compute. discriminate.
  - reflexivity.
  - vm_compute. discriminate.
  - vm_compute. discriminate.
Defined.

(** C7 as stated does not hold for every stream: a file of two bytes has
    a leading u16 that is not the magic constant, and the load fails on
    the read of the version, before the format is compared. *)
Lemma short_file_fails_on_read :
  let data := bytes [0; 0]%N in
  leading_u16 data <> 0x041C /\
  load env32 (fs_of true data) (props_of 0 false) =
    (Fail IOError,
     [EvResolve "tri.serialized"; EvExists "tri.serialized";
      EvOpen "tri.serialized"; EvRead 0 2; EvRead 2 2]).
Proof.
  split; [vm_compute; discriminate | reflexivity].
Qed.

(** C1, on the code: an index equal to the directory count passes the
    range test.  In the version-3 file of one mesh, index 1 makes the
    loader take the count itself for an offset and start decompressing at
    byte 5; in the version-4 file of one mesh, index 1 makes it read eight
    bytes where four are left.  Only index 2 meets the range error. *)
Theorem index_equal_to_count_passes_range_check :
  open_stream tri_file_v3 "tri.serialized" 1 io_start =
    (Ok 3,
     {| io_pos := 5;
        io_trace := [EvOpen "tri.serialized"; EvRead 0 2; EvRead 2 2;
                     EvSize; EvSeek 76; EvRead 76 4; EvSeek 76;
                     EvRead 76 4; EvSeek 1; EvSkip 4] |}) /\
  load env32 (fs_of true tri_file) (props_of 1 false) =
    (Fail IOError,
     [EvResolve "tri.serialized"; EvExists "tri.serialized";
      EvOpen "tri.serialized"; EvRead 0 2; EvRead 2 2;
      EvSize; EvSeek 84; EvRead 84 4; EvSeek 84; EvRead 84 8]) /\
  fst (load env32 (fs_of true tri_file) (props_of 2 false)) =
    Fail ShapeIndexOutOfRange.
Proof.
  split; [|split]; vm_compute; reflexivity.
Qed.

(** C2, on the code: the face-normal flag 0x0010 of the file is not
    looked at.  The triangle with flags 0x1010 (no normals stored) and
    normal storage enabled is loaded, and the recomputation of the vertex
    normals is run. *)
Theorem face_normal_flag_does_not_stop_recomputation :
  has_flag 0x1010 FaceNormals = true /\
  has_flag 0x1010 HasNormals = false /\
  match fst (load env32 (fs_of true tri_file_face_normals)
               (props_of 0 false)) with
  | Ok ld => h_flags (ld_header ld) = 0x1010
  | Fail _ => False
  end /\
  snd (load env32 (fs_of true tri_file_face_normals) (props_of 0 false)) =
    [EvResolve "tri.serialized"; EvExists "tri.serialized";
     EvOpen "tri.serialized"; EvRead 0 2; EvRead 2 2; EvInflate 4;
     EvRecomputeNormals].
Proof.
  split; [|split; [|split]]; vm_compute; reflexivity.
Qed.

(** ** The directory *)

Lemma locate_submesh_run (data : list byte) (version index pos0 : Z)
    (tr : list io_event) :
  let size := zlen data in
  let count := directory_count data in
  let w := if version =? 4 then 8 else 4 in
  let entry := if version =? 4
               then size - 8 * (count - index) - 4
               else size - 4 * (count - index + 1) in
  let offset := le_decode (take w (drop entry data)) in
  size < 2 ^ 64 -> 0 < index <= count -> count < 2 ^ 31 ->
  0 <= entry -> entry + w <= size ->
  locate_submesh data version index {| io_pos := pos0; io_trace := tr |} =
    (Ok tt,
     {| io_pos := wrap 64 (offset + 4);
        io_trace := tr ++ [EvSize; EvSeek (size - 4); EvRead (size - 4) 4;
                           EvSeek entry; EvRead entry w; EvSeek offset;
                           EvSkip 4] |}).
Proof.
  intros size count w entry offset Hsize Hidx Hcount Hentry Hend.
  assert (Hw : w = 8 \/ w = 4) by (subst w; destruct (version =? 4); auto).
  assert (H64 : 2 ^ 64 = 18446744073709551616) by reflexivity.
  assert (H31 : 2 ^ 31 = 2147483648) by reflexivity.
  assert (H32 : 2 ^ 32 = 4294967296) by reflexivity.
  assert (Hseek : forall p q t, stream_seek p {| io_pos := q; io_trace := t |}
             = (Ok tt, {| io_pos := p; io_trace := t ++ [EvSeek p] |}))
    by reflexivity.
  unfold locate_submesh.
  unfold io_bind at 1. unfold stream_size. unfold io_bind at 1.
  unfold io_log at 1. unfold io_ret at 1.
  cbn [io_pos io_trace]. fold size.
  unfold io_bind at 1. rewrite Hseek.
  rewrite (wrap_small 64 (size - 4)) by lia.
  unfold io_bind at 1. rewrite read_uint32_ok by (fold size; lia).
  fold size. change (le_decode (take 4 (drop (size - 4) data))) with count.
  rewrite (to_signed_small 32 count) by (change (32 - 1) with 31; lia).
  destruct (index >? count) eqn:C; [apply Z.gtb_lt in C; lia|].
  unfold MTS_FILEFORMAT_VERSION_V4.
  unfold io_bind at 1.
  destruct (version =? 4) eqn:V.
  - subst w entry.
    rewrite (wrap_small 32 (count - index)) by lia.
    rewrite (wrap_small 64 (size - 8 * (count - index) - 4)) by lia.
    unfold io_bind at 1. rewrite Hseek.
    unfold io_bind at 1. rewrite read_uint64_ok by (fold size; lia).
    fold offset. rewrite Hseek.
    unfold stream_skip, io_bind, io_log, io_set_pos, io_tell.
    cbn [io_pos io_trace].
    rewrite <- !app_assoc. reflexivity.
  - subst w entry.
    rewrite (wrap_small 32 (count - index + 1)) by lia.
    rewrite (wrap_small 64 (size - 4 * (count - index + 1))) by lia.
    unfold io_bind at 1. rewrite Hseek.
    unfold io_bind at 1. rewrite read_uint32_ok by (fold size; lia).
    fold offset. rewrite Hseek.
    unfold stream_skip, io_bind, io_log, io_set_pos, io_tell.
    cbn [io_pos io_trace].
    rewrite <- !app_assoc. reflexivity.
Qed.

(** The body of the constructor only adds events. *)
Lemma load_body_result (env : Env) (props : Properties env) (version : Z)
    (name0 : string) (z : ZStream) (s : io_state) :
  fst (load_body env props version name0 z s) =
    rbind (decode env (face_normals props) version name0 z)
      (fun r =>
         rbind (post_process env (to_world props) (fst (fst r)))
           (fun m1 =>
              rbind (finish_normals env m1 (h_flags (snd (fst r))))
                (fun m2 =>
                   Ok {| ld_mesh := m2; ld_header := snd (fst r);
                         ld_stream := snd r |}))).
Proof.
  unfold load_body, io_bind, io_filter, io_lift, finish_normals.
  destruct (decode env (face_normals props) version name0 z)
    as [[[m h] z']|e]; [|reflexivity].
  cbn [rbind fst snd].
  destruct (post_process env (to_world props) m) as [m1|e]; [|reflexivity].
  cbn [rbind].
  destruct (recompute_needed m1 (h_flags h)).
  - unfold io_log. destruct (recompute_vertex_normals env m1) as [m2|e];
      [|reflexivity].
    cbn [rbind]. destruct (has_emitter props), (has_sensor props);
      reflexivity.
  - unfold io_ret, io_log. cbn [rbind].
    destruct (has_emitter props), (has_sensor props); reflexivity.
Qed.

Lemma load_body_trace (env : Env) (props : Properties env) (version : Z)
    (name0 : string) (z : ZStream) (s : io_state) :
  exists rest,
    io_trace (snd (load_body env props version name0 z s)) =
    io_trace s ++ rest.
Proof.
  unfold load_body, io_bind, io_filter, io_lift.
  destruct (decode env (face_normals props) version name0 z)
    as [[[m h] z']|e]; [|exists []; simpl; rewrite app_nil_r; reflexivity].
  destruct (post_process env (to_world props) m) as [m'|e];
    [|exists []; simpl; rewrite app_nil_r; reflexivity].
  destruct (recompute_needed m' (h_flags h)).
  - unfold io_log at 1. cbn [io_trace io_pos].
    destruct (recompute_vertex_normals env m') as [m2|e];
      [|eexists; reflexivity].
    destruct (has_emitter props), (has_sensor props);
      unfold io_log, io_ret; cbn [io_trace snd];
      rewrite <- ?app_assoc; eexists; reflexivity.
  - destruct (has_emitter props), (has_sensor props);
      unfold io_log, io_ret; cbn [io_trace snd];
      rewrite <- ?app_assoc; eexists; try reflexivity;
      symmetry; apply app_nil_r.
Qed.

(** The start of the constructor when the file exists and the index is
    not negative. *)
Lemma SerializedMesh_new_open (env : Env) (fs : FileSystem)
    (props : Properties env) :
  let path := fs_resolve fs (filename props) in
  let data := fs_content fs path in
  fs_exists fs path = true -> 0 <= shape_index props ->
  SerializedMesh_new env fs props {| io_pos := 0; io_trace := [] |} =
  io_bind (open_stream data path (shape_index props))
    (fun version =>
       io_bind io_tell (fun pos =>
       io_bind (io_log (EvInflate pos)) (fun _ =>
       load_body env props version
         (format_name (fs_filename fs path) (shape_index props))
         {| z_rest := inflate env (drop pos data); z_pos := 0 |})))
    {| io_pos := 0;
       io_trace := [EvResolve (filename props); EvExists path] |}.
Proof.
  intros path data Hexists Hindex.
  unfold SerializedMesh_new.
  unfold io_bind at 1. unfold io_log at 1.
  unfold io_bind at 1. unfold io_log at 1. cbn [io_pos io_trace app].
  cbv zeta. fold path. rewrite Hexists. cbn [negb].
  destruct (shape_index props <? 0) eqn:C; [apply Z.ltb_lt in C; lia|].
  reflexivity.
Qed.

(** C3, as amended: let N < 2^31 be the count of the directory and i > 0
    the index asked for, and let the entry of i lie inside the file.
    Under version 4 the entry is the 8 bytes at [size - 8 * (N - i) - 4]:
    they lie inside the file when i < N and they start inside it; the
    loader reads the u64 offset there.  Under version 3 it is the 4 bytes
    at [size - 4 * (N - i + 1)]: they lie inside the file when i <= N and
    they start inside it; the loader reads the u32 offset there.  It then
    seeks to that offset, skips 4 bytes, and starts decompressing at that
    point. *)
Theorem directory_entry_position
    (env : Env) (fs : FileSystem) (props : Properties env)
    (Hexists : fs_exists fs (fs_resolve fs (filename props)) = true)
    (Hmagic : leading_u16 (fs_content fs (fs_resolve fs (filename props)))
              = 0x041C)
    (Hindex : 0 < shape_index props)
    (Hcount : directory_count
                (fs_content fs (fs_resolve fs (filename props))) < 2 ^ 31)
    (Hsize : zlen (fs_content fs (fs_resolve fs (filename props)))
             < 2 ^ 64) :
  let path := fs_resolve fs (filename props) in
  let data := fs_content fs path in
  let size := zlen data in
  let count := directory_count data in
  let index := shape_index props in
  (version_u16 data = 0x0004 ->
   index < count -> 8 * (count - index) + 4 <= size ->
   let entry := size - 8 * (count - index) - 4 in
   let offset := le_decode (take 8 (drop entry data)) in
   exists rest,
     snd (load env fs props) =
       [EvResolve (filename props); EvExists path; EvOpen path;
        EvRead 0 2; EvRead 2 2;
        EvSize; EvSeek (size - 4); EvRead (size - 4) 4;
        EvSeek entry; EvRead entry 8;
        EvSeek offset; EvSkip 4; EvInflate (wrap 64 (offset + 4))]
       ++ rest) /\
  (version_u16 data = 0x0003 ->
   index <= count -> 4 * (count - index + 1) <= size ->
   let entry := size - 4 * (count - index + 1) in
   let offset := le_decode (take 4 (drop entry data)) in
   exists rest,
     snd (load env fs props) =
       [EvResolve (filename props); EvExists path; EvOpen path;
        EvRead 0 2; EvRead 2 2;
        EvSize; EvSeek (size - 4); EvRead (size - 4) 4;
        EvSeek entry; EvRead entry 4;
        EvSeek offset; EvSkip 4; EvInflate (wrap 64 (offset + 4))]
       ++ rest).
Proof.
  intros path data size count index.
  assert (H31 : 2 ^ 31 = 2147483648) by reflexivity.
  pose proof (SerializedMesh_new_open env fs props Hexists
                ltac:(lia)) as Hopen.
  cbv zeta in Hopen.
  split; intros Hv Hlt Hdir entry offset; subst index count size data path.
  - unfold load. rewrite Hopen. unfold io_bind at 1.
    rewrite open_stream_header by lia.
    cbv zeta. rewrite Hmagic, Hv.
    change (negb (1052 =? MTS_FILEFORMAT_HEADER)) with false.
    change (negb (4 =? MTS_FILEFORMAT_VERSION_V3)
            && negb (4 =? MTS_FILEFORMAT_VERSION_V4)) with false.
    cbv iota.
    replace (negb (shape_index props =? 0)) with true
      by (symmetry; apply negb_true_iff, Z.eqb_neq; lia).
    unfold io_bind at 1.
    rewrite (locate_submesh_run _ 4 (shape_index props))
      by (cbn [Z.eqb Pos.eqb]; lia).
    cbn [Z.eqb Pos.eqb]. fold entry. fold offset.
    unfold io_ret at 1. unfold io_bind at 1, io_tell at 1.
    unfold io_bind at 1, io_log at 1. cbn [io_pos io_trace].
    match goal with |- context [load_body ?e ?p ?v ?n ?z ?s] =>
      destruct (load_body_trace e p v n z s) as [rest Hrest];
      destruct (load_body e p v n z s) as [r s'] end.
    cbn [snd io_trace] in Hrest |- *. rewrite Hrest.
    exists rest. rewrite <- !app_assoc. reflexivity.
  - unfold load. rewrite Hopen. unfold io_bind at 1.
    rewrite open_stream_header by lia.
    cbv zeta. rewrite Hmagic, Hv.
    change (negb (1052 =? MTS_FILEFORMAT_HEADER)) with false.
    change (negb (3 =? MTS_FILEFORMAT_VERSION_V3)
            && negb (3 =? MTS_FILEFORMAT_VERSION_V4)) with false.
    cbv iota.
    replace (negb (shape_index props =? 0)) with true
      by (symmetry; apply negb_true_iff, Z.eqb_neq; lia).
    unfold io_bind at 1.
    rewrite (locate_submesh_run _ 3 (shape_index props))
      by (cbn [Z.eqb Pos.eqb]; lia).
    cbn [Z.eqb Pos.eqb]. fold entry. fold offset.
    unfold io_ret at 1. unfold io_bind at 1, io_tell at 1.
    unfold io_bind at 1, io_log at 1. cbn [io_pos io_trace].
    match goal with |- context [load_body ?e ?p ?v ?n ?z ?s] =>
      destruct (load_body_trace e p v n z s) as [rest Hrest];
      destruct (load_body e p v n z s) as [r s'] end.
    cbn [snd io_trace] in Hrest |- *. rewrite Hrest.
    exists rest. rewrite <- !app_assoc. reflexivity.
Qed.

(** The second mesh of a version-4 file of two meshes (172 bytes): the
    entry is read at byte 160, holds 76, and decompression starts at 80. *)
Lemma directory_entry_position_witness :
  exists rest,
    snd (load env32 (fs_of true two_file) (props_of 1 false)) =
      [EvResolve "tri.serialized"; EvExists "tri.serialized";
       EvOpen "tri.serialized"; EvRead 0 2; EvRead 2 2;
       EvSize; EvSeek 168; EvRead 168 4; EvSeek 160; EvRead 160 8;
       EvSeek 76; EvSkip 4; EvInflate 80] ++ rest.
Proof.
  refine (proj1 (directory_entry_position env32 (fs_of true two_file)
                   (props_of 1 false) eq_refl _ _ _ _) _ _ _).
  - vm_compute; reflexivity.
  - vm_compute; reflexivity.
  - vm_compute; reflexivity.
  - vm_compute; reflexivity.
  - vm_compute; reflexivity.
  - vm_compute; reflexivity.
  - vm_compute; discriminate.
Defined.

(** C3, on the code: not every index i > 0 gets its entry read.  In the
    version-4 file of one mesh the index 1 = N passes the range test, the
    8 bytes of its entry would start at size - 4 = 84 and end behind the
    file, the read fails, and nothing is sought, skipped or decompressed.
    With a count field of 2^31 the count is negative as the [int] of the
    range test, which turns down the index 2^31 - 1 although its entry,
    at size - 12 = 76, lies inside the file. *)
Lemma entries_that_are_not_read :
  (0 < shape_index (props_of 1 false) /\
   version_u16 tri_file = 0x0004 /\
   directory_count tri_file = 1 /\
   zlen tri_file - 8 * (1 - 1) - 4 = 84 /\
   load env32 (fs_of true tri_file) (props_of 1 false) =
     (Fail IOError,
      [EvResolve "tri.serialized"; EvExists "tri.serialized";
       EvOpen "tri.serialized"; EvRead 0 2; EvRead 2 2;
       EvSize; EvSeek 84; EvRead 84 4; EvSeek 84; EvRead 84 8]) /\
   ~ (exists offset rest,
        snd (load env32 (fs_of true tri_file) (props_of 1 false)) =
          [EvResolve "tri.serialized"; EvExists "tri.serialized";
           EvOpen "tri.serialized"; EvRead 0 2; EvRead 2 2;
           EvSize; EvSeek 84; EvRead 84 4; EvSeek 84; EvRead 84 8;
           EvSeek offset; EvSkip 4; EvInflate (wrap 64 (offset + 4))]
          ++ rest)) /\
  (0 < shape_index (props_of (2 ^ 31 - 1) false) /\
   version_u16 signed_count_file = 0x0004 /\
   directory_count signed_count_file = 2 ^ 31 /\
   zlen signed_count_file - 8 * (2 ^ 31 - (2 ^ 31 - 1)) - 4 = 76 /\
   load env32 (fs_of true signed_count_file) (props_of (2 ^ 31 - 1) false) =
     (Fail ShapeIndexOutOfRange,
      [EvResolve "tri.serialized"; EvExists "tri.serialized";
       EvOpen "tri.serialized"; EvRead 0 2; EvRead 2 2;
       EvSize; EvSeek 84; EvRead 84 4]) /\
   ~ (exists offset rest,
        snd (load env32 (fs_of true signed_count_file)
               (props_of (2 ^ 31 - 1) false)) =
          [EvResolve "tri.serialized"; EvExists "tri.serialized";
           EvOpen "tri.serialized"; EvRead 0 2; EvRead 2 2;
           EvSize; EvSeek 84; EvRead 84 4; EvSeek 76; EvRead 76 8;
           EvSeek offset; EvSkip 4; EvInflate (wrap 64 (offset + 4))]
          ++ rest)).
Proof.
  assert (load env32 (fs_of true tri_file) (props_of 1 false) =
            (Fail IOError,
             [EvResolve "tri.serialized"; EvExists "tri.serialized";
              EvOpen "tri.serialized"; EvRead 0 2; EvRead 2 2;
              EvSize; EvSeek 84; EvRead 84 4; EvSeek 84; EvRead 84 8]))
    as E1 by (vm_compute; reflexivity).
  assert (load env32 (fs_of true signed_count_file)
            (props_of (2 ^ 31 - 1) false) =
            (Fail ShapeIndexOutOfRange,
             [EvResolve "tri.serialized"; EvExists "tri.serialized";
              EvOpen "tri.serialized"; EvRead 0 2; EvRead 2 2;
              EvSize; EvSeek 84; EvRead 84 4]))
    as E2 by (vm_compute; reflexivity).
  split.
  - split; [reflexivity|]. split; [vm_compute; reflexivity|].
    split; [vm_compute; reflexivity|]. split; [vm_compute; reflexivity|].
    split; [exact E1|].
    rewrite E1. intros (offset & rest & H). discriminate H.
  - split; [reflexivity|]. split; [vm_compute; reflexivity|].
    split; [vm_compute; reflexivity|]. split; [vm_compute; reflexivity|].
    split; [exact E2|].
    rewrite E2. intros (offset & rest & H). discriminate H.
Qed.

(** ** Taking a successful load apart *)

Lemma load_ok_inv (env : Env) (fs : FileSystem) (props : Properties env)
    (ld : Loaded env) :
  fst (load env fs props) = Ok ld ->
  let path := fs_resolve fs (filename props) in
  let data := fs_content fs path in
  exists version s1 m m1,
    open_stream data path (shape_index props)
      {| io_pos := 0;
         io_trace := [EvResolve (filename props); EvExists path] |}
      = (Ok version, s1) /\
    decode env (face_normals props) version
      (format_name (fs_filename fs path) (shape_index props))
      {| z_rest := inflate env (drop (io_pos s1) data); z_pos := 0 |}
      = Ok (m, ld_header ld, ld_stream ld) /\
    post_process env (to_world props) m = Ok m1 /\
    finish_normals env m1 (h_flags (ld_header ld)) = Ok (ld_mesh ld).
Proof.
  unfold load, SerializedMesh_new.
  unfold io_bind at 1. unfold io_log at 1.
  unfold io_bind at 1. unfold io_log at 1. cbv zeta.
  destruct (negb (fs_exists fs (fs_resolve fs (filename props))));
    [intros H; discriminate|].
  destruct (shape_index props <? 0); [intros H; discriminate|].
  unfold io_bind at 1. cbn [io_pos io_trace app].
  match goal with |- context [open_stream ?d ?p ?i ?s] =>
    destruct (open_stream d p i s) as [[version|e] s1] end;
    [|intros H; discriminate].
  unfold io_bind at 1, io_tell at 1. unfold io_bind at 1, io_log at 1.
  match goal with |- context [load_body ?e ?p ?v ?n ?z ?s] =>
    pose proof (load_body_result e p v n z s) as R;
    destruct (load_body e p v n z s) as [r s'] end.
  cbn [fst] in R |- *. intros H. rewrite H in R. symmetry in R.
  match type of R with rbind ?c _ = _ =>
    destruct c as [[[m h] z']|err] eqn:D end; [|discriminate].
  cbn [rbind fst snd] in R.
  destruct (post_process env (to_world props) m) as [m1|err] eqn:P;
    [|discriminate].
  cbn [rbind] in R.
  destruct (finish_normals env m1 (h_flags h)) as [m2|err] eqn:F;
    [|discriminate].
  cbn [rbind] in R. injection R as <-.
  cbn [ld_mesh ld_header ld_stream].
  exists version, s1, m, m1.
  split; [reflexivity|]. split; [exact D|]. split; [exact P | exact F].
Qed.

Lemma rbind_ok_inv {A B} (c : result A) (k : A -> result B) (b : B) :
  rbind c k = Ok b -> exists a, c = Ok a /\ k a = Ok b.
Proof.
  destruct c as [a|e]; simpl; intros H; [|discriminate].
  exists a. split; [reflexivity | exact H].
Qed.

Lemma decode_ok_inv (env : Env) (disable : bool) (version : Z)
    (name0 : string) (z z' : ZStream) (m : Mesh env) (h : Header) :
  decode env disable version name0 z = Ok (m, h, z') ->
  exists name z0 m0,
    read_body_header version name0 z
      = Ok (h_flags h, name, h_vertex_count h, h_face_count h, z0) /\
    init_mesh env disable (h_flags h) name
      (h_vertex_count h) (h_face_count h) = Ok m0 /\
    read_arrays env z0 (h_flags h) m0 = Ok (z', m) /\
    h_version h = version.
Proof.
  unfold decode. intros H.
  apply rbind_ok_inv in H as ([[[[flags name] vc] fc] z4] & Hhdr & H).
  apply rbind_ok_inv in H as (m0 & Hinit & H).
  apply rbind_ok_inv in H as ([z5 m5] & Harr & H).
  injection H as <- <- <-. cbn [h_flags h_vertex_count h_face_count h_version].
  exists name, z4, m0. auto.
Qed.

(** ** Loops *)

Lemma for_from_invariant {S : Type} (P : S -> Prop)
    (body : Z -> S -> result S) (n : nat) :
  forall (i : Z) (s s' : S),
    (forall j t t', i <= j < i + Z.of_nat n -> P t ->
                    body j t = Ok t' -> P t') ->
    P s -> for_from i n body s = Ok s' -> P s'.
Proof.
  induction n as [|n IH]; intros i s s' Hbody Hs Hrun.
  - simpl in Hrun. injection Hrun as <-. exact Hs.
  - cbn [for_from] in Hrun.
    destruct (body i s) as [t|e] eqn:E; [|discriminate].
    apply (IH (i + 1) t s'); [|eapply Hbody; [|exact Hs|exact E]; lia|exact Hrun].
    intros j u u' Hj. apply Hbody. lia.
Qed.

Lemma for_loop_invariant {S : Type} (P : S -> Prop)
    (body : Z -> S -> result S) (n : Z) (s s' : S) :
  (forall j t t', 0 <= j < n -> P t -> body j t = Ok t' -> P t') ->
  P s -> for_loop n body s = Ok s' -> P s'.
Proof.
  unfold for_loop. intros Hbody Hs Hrun.
  apply (for_from_invariant P body (Z.to_nat n) 0 s s'); auto.
  intros j t t' Hj. apply Hbody. lia.
Qed.

(** ** The reads leave the shape of the mesh alone *)

Lemma read_helper_shape (env : Env) (z z' : ZStream) (dp : bool)
    (offset dim : Z) (m m' : Mesh env) :
  read_helper env z dp offset dim m = Ok (z', m') -> shape m' = shape m.
Proof.
  unfold read_helper. destruct dp; intros H;
    apply rbind_ok_inv in H as ([values z1] & _ & H);
    apply rbind_ok_inv in H as (buf & _ & H);
    injection H as _ <-; reflexivity.
Qed.

Lemma read_arrays_shape (env : Env) (z z' : ZStream) (flags : Z)
    (m m' : Mesh env) :
  read_arrays env z flags m = Ok (z', m') -> shape m' = shape m.
Proof.
  unfold read_arrays. intros H.
  apply rbind_ok_inv in H as (off & _ & H).
  apply rbind_ok_inv in H as ([z1 m1] & H1 & H).
  apply rbind_ok_inv in H as ([z2 m2] & H2 & H).
  apply rbind_ok_inv in H as ([z3 m3] & H3 & H).
  apply rbind_ok_inv in H as ([z4 m4] & H4 & H).
  apply read_helper_shape in H1.
  assert (shape m2 = shape m1) as E2.
  { revert H2. unfold read_normals.
    destruct (has_flag flags HasNormals); [|intros [= _ <-]; reflexivity].
    destruct (m_disable_vertex_normals m1); intros H2.
    - apply rbind_ok_inv in H2 as (zz & _ & H2).
      injection H2 as _ <-. reflexivity.
    - apply rbind_ok_inv in H2 as (o & _ & H2).
      eapply read_helper_shape; exact H2. }
  assert (shape m3 = shape m2) as E3.
  { revert H3. unfold read_texcoords.
    destruct (has_flag flags HasTexcoords); [|intros [= _ <-]; reflexivity].
    intros H3. apply rbind_ok_inv in H3 as (o & _ & H3).
    eapply read_helper_shape; exact H3. }
  assert (shape m4 = shape m3) as E4.
  { revert H4. unfold read_colors.
    destruct (has_flag flags HasColors); [|intros [= _ <-]; reflexivity].
    intros H4. apply rbind_ok_inv in H4 as (o & _ & H4).
    eapply read_helper_shape; exact H4. }
  assert (shape m' = shape m4) as E5.
  { revert H. unfold read_faces. intros H.
    apply rbind_ok_inv in H as ([bs zz] & _ & H).
    apply rbind_ok_inv in H as (buf & _ & H).
    injection H as _ <-. reflexivity. }
  congruence.
Qed.

Lemma post_process_vertex_shape (env : Env) (tw : Transform env) (i : Z)
    (m m' : Mesh env) :
  post_process_vertex env tw i m = Ok m' -> shape m' = shape m.
Proof.
  unfold post_process_vertex. intros H.
  apply rbind_ok_inv in H as (pos & _ & H).
  apply rbind_ok_inv in H as (b1 & _ & H).
  apply rbind_ok_inv in H as (b2 & _ & H).
  apply rbind_ok_inv in H as (b3 & _ & H).
  injection H as <-. reflexivity.
Qed.

Lemma post_process_shape (env : Env) (tw : Transform env)
    (m m' : Mesh env) :
  post_process env tw m = Ok m' -> shape m' = shape m.
Proof.
  unfold post_process. intros H.
  set (n := m_vertex_count m) in H. clearbody n.
  revert H. apply for_loop_invariant with (P := fun t => shape t = shape m).
  - intros j t t' _ Ht Hb. apply post_process_vertex_shape in Hb. congruence.
  - reflexivity.
Qed.

(** The recomputation stores into the vertex buffer and nowhere else. *)
Lemma store_normal_keeps (env : Env) (acc : list (list byte)) (i : Z)
    (m m' : Mesh env) :
  store_normal env acc i m = Ok m' ->
  shape m' = shape m /\ m_faces m' = m_faces m /\ m_bbox m' = m_bbox m.
Proof.
  unfold store_normal. intros H.
  apply rbind_ok_inv in H as (buf & _ & H).
  injection H as <-. repeat split.
Qed.

Lemma recompute_keeps (env : Env) (m m' : Mesh env) :
  recompute_vertex_normals env m = Ok m' ->
  shape m' = shape m /\ m_faces m' = m_faces m /\ m_bbox m' = m_bbox m.
Proof.
  unfold recompute_vertex_normals. intros H.
  apply rbind_ok_inv in H as (acc & _ & H).
  set (n := m_vertex_count m) in H. clearbody n.
  revert H.
  apply for_loop_invariant
    with (P := fun t => shape t = shape m /\ m_faces t = m_faces m /\
                        m_bbox t = m_bbox m).
  - intros j t t' _ (H1 & H2 & H3) Hb.
    apply store_normal_keeps in Hb as (K1 & K2 & K3).
    repeat split; congruence.
  - repeat split.
Qed.

Lemma finish_normals_keeps (env : Env) (m m' : Mesh env) (flags : Z) :
  finish_normals env m flags = Ok m' ->
  shape m' = shape m /\ m_faces m' = m_faces m /\ m_bbox m' = m_bbox m.
Proof.
  unfold finish_normals. destruct (recompute_needed m flags).
  - apply recompute_keeps.
  - intros [= <-]. repeat split.
Qed.

(** ** The vertex layout *)

Lemma build_layout_spec (env : Env) (disable : bool) (flags : Z) :
  build_layout env disable flags =
    Ok {| l_struct := expected_struct (float_size env) disable flags;
          l_normal_offset :=
            if disable then 0
            else wrap (8 * index_bytes env) (3 * float_size env);
          l_texcoord_offset :=
            if has_flag flags HasTexcoords
            then wrap (8 * index_bytes env)
                   (float_size env * (if disable then 3 else 6))
            else 0;
          l_color_offset :=
            if has_flag flags HasColors
            then wrap (8 * index_bytes env)
                   (float_size env
                    * ((if disable then 3 else 6)
                       + (if has_flag flags HasTexcoords then 2 else 0)))
            else 0 |}.
Proof.
  unfold build_layout, expected_struct, append_group, float_size.
  destruct disable, (has_flag flags HasTexcoords),
    (has_flag flags HasColors), (scalar_double env); reflexivity.
Qed.


Lemma init_mesh_ok (env : Env) (disable : bool) (flags : Z) (name : string)
    (vc fc : Z) (m : Mesh env) :
  init_mesh env disable flags name vc fc = Ok m ->
  m_vertex_struct m = expected_struct (float_size env) disable flags /\
  m_disable_vertex_normals m = disable /\
  m_texcoord_offset m =
    (if has_flag flags HasTexcoords
     then wrap (8 * index_bytes env)
            (float_size env * (if disable then 3 else 6))
     else 0) /\
  m_normal_offset m =
    (if disable then 0
     else wrap (8 * index_bytes env) (3 * float_size env)) /\
  m_vertex_size m =
    wrap (size_bits env)
      (struct_size (expected_struct (float_size env) disable flags)) /\
  m_vertex_count m = wrap (size_bits env) vc /\
  m_face_size m = wrap (size_bits env) (struct_size (build_face_struct env)) /\
  m_face_count m = wrap (size_bits env) fc /\
  m_vertices m =
    alloc (fresh_vertices env)
      (wrap (size_bits env) ((m_vertex_count m + 1) * m_vertex_size m)) /\
  m_faces m =
    alloc (fresh_faces env)
      (wrap (size_bits env) ((m_face_count m + 1) * m_face_size m)).
Proof.
  unfold init_mesh. rewrite build_layout_spec. cbn [rbind].
  intros [= <-]. cbn. repeat split; reflexivity.
Qed.

Lemma shape_fields (env : Env) (m m' : Mesh env) :
  shape m' = shape m ->
  m_vertex_struct m' = m_vertex_struct m /\
  m_disable_vertex_normals m' = m_disable_vertex_normals m /\
  m_normal_offset m' = m_normal_offset m /\
  m_texcoord_offset m' = m_texcoord_offset m /\
  m_vertex_size m' = m_vertex_size m /\
  m_vertex_count m' = m_vertex_count m /\
  m_face_size m' = m_face_size m /\
  m_face_count m' = m_face_count m.
Proof.
  intros H.
  pose proof (f_equal m_vertex_struct H).
  pose proof (f_equal m_disable_vertex_normals H).
  pose proof (f_equal m_normal_offset H).
  pose proof (f_equal m_texcoord_offset H).
  pose proof (f_equal m_vertex_size H).
  pose proof (f_equal m_vertex_count H).
  pose proof (f_equal m_face_size H).
  pose proof (f_equal m_face_count H).
  repeat split; assumption.
Qed.

Lemma z_read_uint64_nonneg (z z' : ZStream) (x : Z) :
  z_read_uint64 z = Ok (x, z') -> 0 <= x.
Proof.
  unfold z_read_uint64. intros H.
  apply rbind_ok_inv in H as ([bs z1] & _ & H). injection H as <- _.
  apply le_decode_range.
Qed.

Lemma read_body_header_nonneg (version : Z) (name0 name : string)
    (z z' : ZStream) (flags vc fc : Z) :
  read_body_header version name0 z = Ok (flags, name, vc, fc, z') ->
  0 <= vc /\ 0 <= fc.
Proof.
  unfold read_body_header. intros H.
  apply rbind_ok_inv in H as ([f z1] & _ & H).
  apply rbind_ok_inv in H as ([n z2] & _ & H).
  apply rbind_ok_inv in H as ([v z3] & Hv & H).
  apply rbind_ok_inv in H as ([c z4] & Hc & H).
  injection H as _ _ <- <- _.
  split; eapply z_read_uint64_nonneg; eassumption.
Qed.

(** A successful load, down to the mesh before the reads. *)
Lemma load_ok_init (env : Env) (fs : FileSystem) (props : Properties env)
    (ld : Loaded env) :
  fst (load env fs props) = Ok ld ->
  exists name z0 m0 m1 m2,
    init_mesh env (face_normals props) (h_flags (ld_header ld)) name
      (h_vertex_count (ld_header ld)) (h_face_count (ld_header ld))
      = Ok m0 /\
    read_arrays env z0 (h_flags (ld_header ld)) m0
      = Ok (ld_stream ld, m1) /\
    post_process env (to_world props) m1 = Ok m2 /\
    finish_normals env m2 (h_flags (ld_header ld)) = Ok (ld_mesh ld) /\
    0 <= h_vertex_count (ld_header ld) /\
    0 <= h_face_count (ld_header ld).
Proof.
  intros H. apply load_ok_inv in H as (version & s1 & m1 & m2 & _ & D & P & F).
  apply decode_ok_inv in D as (name & z0 & m0 & B & I & R & _).
  apply read_body_header_nonneg in B as [Hv Hf].
  exists name, z0, m0, m1, m2. repeat split; assumption.
Qed.



(** ** What the reads take from the stream *)

Lemma z_read_pos (n : Z) (z z' : ZStream) (bs : list byte) :
  z_read n z = Ok (bs, z') -> z_pos z' = z_pos z + n.
Proof.
  unfold z_read.
  destruct ((0 <=? n) && (n <=? zlen (z_rest z))); [|discriminate].
  intros [= _ <-]. reflexivity.
Qed.

Lemma read_helper_advance (env : Env) (z z' : ZStream) (dp : bool)
    (offset dim : Z) (m m' : Mesh env) :
  read_helper env z dp offset dim m = Ok (z', m') ->
  advance_helper env z dp dim m = Ok z'.
Proof.
  unfold read_helper, advance_helper. destruct dp; intros H;
    apply rbind_ok_inv in H as ([values z1] & Hr & H);
    apply rbind_ok_inv in H as (buf & _ & H);
    injection H as <- _; rewrite Hr; reflexivity.
Qed.

Lemma advance_helper_counts (env : Env) (z : ZStream) (dp : bool) (dim : Z)
    (m1 m2 : Mesh env) :
  m_vertex_count m1 = m_vertex_count m2 ->
  advance_helper env z dp dim m1 = advance_helper env z dp dim m2.
Proof.
  intros E. unfold advance_helper. rewrite E. reflexivity.
Qed.

Lemma advance_helper_pos (env : Env) (z z' : ZStream) (dp : bool) (dim : Z)
    (m : Mesh env) :
  advance_helper env z dp dim m = Ok z' ->
  z_pos z' = z_pos z
             + wrap 64 (wrap 64 (m_vertex_count m * dim)
                        * (if dp then 8 else 4)).
Proof.
  unfold advance_helper, z_read_array. destruct dp; intros H;
    apply rbind_ok_inv in H as ([values z1] & Hr & H);
    injection H as <-; apply z_read_pos in Hr; exact Hr.
Qed.

(** The normals step of a mesh with normals disabled: nothing is stored,
    and the stream moves as [advance_helper] moves it. *)
Lemma read_normals_disabled (env : Env) (z z' : ZStream) (flags : Z)
    (dp : bool) (m m' : Mesh env) :
  has_flag flags HasNormals = true ->
  m_disable_vertex_normals m = true ->
  read_normals env z flags dp m = Ok (z', m') ->
  m' = m /\ advance_helper env z dp 3 m = Ok z'.
Proof.
  unfold read_normals. intros -> -> H.
  apply rbind_ok_inv in H as (z1 & Ha & H).
  injection H as <- <-. split; [reflexivity | exact Ha].
Qed.

Lemma read_normals_advance (env : Env) (z z' : ZStream) (flags : Z)
    (dp : bool) (m m' : Mesh env) :
  read_normals env z flags dp m = Ok (z', m') ->
  (if has_flag flags HasNormals
   then advance_helper env z dp 3 m else Ok z) = Ok z'.
Proof.
  unfold read_normals.
  destruct (has_flag flags HasNormals); [|intros [= <- _]; reflexivity].
  destruct (m_disable_vertex_normals m); intros H.
  - apply rbind_ok_inv in H as (z1 & Ha & H).
    injection H as <- _. exact Ha.
  - apply rbind_ok_inv in H as (o & _ & H).
    eapply read_helper_advance; exact H.
Qed.

Lemma read_normals_shape (env : Env) (z z' : ZStream) (flags : Z)
    (dp : bool) (m m' : Mesh env) :
  read_normals env z flags dp m = Ok (z', m') -> shape m' = shape m.
Proof.
  unfold read_normals.
  destruct (has_flag flags HasNormals); [|intros [= _ <-]; reflexivity].
  destruct (m_disable_vertex_normals m); intros H.
  - apply rbind_ok_inv in H as (zz & _ & H).
    injection H as _ <-. reflexivity.
  - apply rbind_ok_inv in H as (o & _ & H).
    eapply read_helper_shape; exact H.
Qed.

Lemma read_texcoords_advance (env : Env) (z z' : ZStream) (flags : Z)
    (dp : bool) (m m' : Mesh env) :
  read_texcoords env z flags dp m = Ok (z', m') ->
  (if has_flag flags HasTexcoords
   then advance_helper env z dp 2 m else Ok z) = Ok z' /\
  shape m' = shape m.
Proof.
  unfold read_texcoords.
  destruct (has_flag flags HasTexcoords);
    [|intros [= <- <-]; split; reflexivity].
  intros H. apply rbind_ok_inv in H as (o & _ & H).
  split; [eapply read_helper_advance | eapply read_helper_shape]; exact H.
Qed.

Lemma read_colors_advance (env : Env) (z z' : ZStream) (flags : Z)
    (dp : bool) (m m' : Mesh env) :
  read_colors env z flags dp m = Ok (z', m') ->
  (if has_flag flags HasColors
   then advance_helper env z dp 3 m else Ok z) = Ok z' /\
  shape m' = shape m.
Proof.
  unfold read_colors.
  destruct (has_flag flags HasColors);
    [|intros [= <- <-]; split; reflexivity].
  intros H. apply rbind_ok_inv in H as (o & _ & H).
  split; [eapply read_helper_advance | eapply read_helper_shape]; exact H.
Qed.

Lemma read_arrays_skip (env : Env) (z z' : ZStream) (flags : Z)
    (m m' : Mesh env) :
  read_arrays env z flags m = Ok (z', m') ->
  skip_arrays env z flags m = Ok z'.
Proof.
  unfold read_arrays, skip_arrays. intros H.
  apply rbind_ok_inv in H as (off & _ & H).
  apply rbind_ok_inv in H as ([z1 m1] & H1 & H).
  apply rbind_ok_inv in H as ([z2 m2] & H2 & H).
  apply rbind_ok_inv in H as ([z3 m3] & H3 & H).
  apply rbind_ok_inv in H as ([z4 m4] & H4 & H).
  pose proof (read_helper_shape _ _ _ _ _ _ _ _ H1) as S1.
  pose proof (read_normals_shape _ _ _ _ _ _ _ H2) as S2.
  apply read_helper_advance in H1.
  apply read_normals_advance in H2.
  apply read_texcoords_advance in H3 as [H3 S3].
  apply read_colors_advance in H4 as [H4 S4].
  apply shape_fields in S1 as (_ & _ & _ & _ & _ & C1 & _ & F1).
  apply shape_fields in S2 as (_ & _ & _ & _ & _ & C2 & _ & F2).
  apply shape_fields in S3 as (_ & _ & _ & _ & _ & C3 & _ & F3).
  apply shape_fields in S4 as (_ & _ & _ & _ & _ & C4 & _ & F4).
  rewrite H1. cbn [rbind].
  rewrite (advance_helper_counts env z1 _ 3 m m1) by congruence.
  rewrite H2. cbn [rbind].
  rewrite (advance_helper_counts env z2 _ 2 m m2) by congruence.
  rewrite H3. cbn [rbind].
  rewrite (advance_helper_counts env z3 _ 3 m m3) by congruence.
  rewrite H4. cbn [rbind].
  revert H. unfold read_faces. intros H.
  apply rbind_ok_inv in H as ([bs zz] & Hr & H).
  apply rbind_ok_inv in H as (buf & _ & H).
  injection H as <- _.
  replace (m_face_count m) with (m_face_count m4) by congruence.
  rewrite Hr. reflexivity.
Qed.

Lemma skip_arrays_counts (env : Env) (z : ZStream) (flags : Z)
    (m1 m2 : Mesh env) :
  m_vertex_count m1 = m_vertex_count m2 ->
  m_face_count m1 = m_face_count m2 ->
  skip_arrays env z flags m1 = skip_arrays env z flags m2.
Proof.
  intros Ev Ef. unfold skip_arrays, advance_helper. rewrite Ev, Ef.
  reflexivity.
Qed.

(** C4: two loads of the same sub-mesh of the same file, one with normals
    suppressed and one without, of a file whose HasNormals flag is set:
    the decompressing stream after the last array is the same in both
    (same bytes taken, same bytes left); and the step that skips the
    normals returns the mesh it was given, vertex buffer included, while
    taking from the stream the 3 scalars per vertex that the storing
    [read_helper] takes. *)
Theorem normal_suppression_keeps_the_stream
    (env : Env) (fs : FileSystem) (p_on p_off : Properties env)
    (ld_on ld_off : Loaded env)
    (Hname : filename p_on = filename p_off)
    (Hindex : shape_index p_on = shape_index p_off)
    (Hon : face_normals p_on = true)
    (Hoff : face_normals p_off = false)
    (Hflag : has_flag (h_flags (ld_header ld_on)) HasNormals = true)
    (Lon : fst (load env fs p_on) = Ok ld_on)
    (Loff : fst (load env fs p_off) = Ok ld_off) :
  ld_header ld_on = ld_header ld_off /\
  ld_stream ld_on = ld_stream ld_off /\
  (forall z z' dp (m m' : Mesh env),
     m_disable_vertex_normals m = true ->
     read_normals env z (h_flags (ld_header ld_on)) dp m = Ok (z', m') ->
     m' = m /\
     z_pos z' = z_pos z
                + wrap 64 (wrap 64 (m_vertex_count m * 3)
                           * (if dp then 8 else 4)) /\
     (forall offset (m2 m2' : Mesh env) z2,
        m_vertex_count m2 = m_vertex_count m ->
        read_helper env z dp offset 3 m2 = Ok (z2, m2') -> z2 = z')).
Proof.
  apply load_ok_inv in Lon as (v1 & s1 & m1 & mp1 & O1 & D1 & _).
  apply load_ok_inv in Loff as (v2 & s2 & m2 & mp2 & O2 & D2 & _).
  rewrite Hname, Hindex in O1, D1. rewrite O1 in O2.
  injection O2 as <- <-.
  apply decode_ok_inv in D1 as (n1 & z1 & a1 & B1 & I1 & R1 & V1).
  apply decode_ok_inv in D2 as (n2 & z2 & a2 & B2 & I2 & R2 & V2).
  rewrite B1 in B2. injection B2 as Ef En Ev Efc Ez.
  assert (ld_header ld_on = ld_header ld_off) as Eh.
  { destruct (ld_header ld_on), (ld_header ld_off). cbn in *. congruence. }
  split; [exact Eh|]. split.
  - apply init_mesh_ok in I1 as (_ & _ & _ & _ & _ & C1 & _ & F1 & _).
    apply init_mesh_ok in I2 as (_ & _ & _ & _ & _ & C2 & _ & F2 & _).
    apply read_arrays_skip in R1. apply read_arrays_skip in R2.
    rewrite <- Ef, <- Ez in R2.
    rewrite (skip_arrays_counts env z1 _ a2 a1) in R2 by congruence.
    congruence.
  - intros z z' dp m m' Hd Hr.
    apply (read_normals_disabled env z z' _ dp m m' Hflag Hd) in Hr
      as [-> Ha].
    split; [reflexivity|]. split.
    + apply advance_helper_pos in Ha. exact Ha.
    + intros offset m2' m2'' zz Ec Hh.
      apply read_helper_advance in Hh.
      rewrite (advance_helper_counts env z dp 3 m2' m Ec) in Hh.
      congruence.
Qed.

(** The file with stored normals, loaded with and without suppression:
    45 bytes of the body are taken in both runs. *)
Lemma normal_suppression_keeps_the_stream_witness :
  exists ld_on ld_off,
    fst (load env32 (fs_of true normals_file) (props_of 0 true)) = Ok ld_on /\
    fst (load env32 (fs_of true normals_file) (props_of 0 false))
      = Ok ld_off /\
    ld_stream ld_on = ld_stream ld_off /\
    z_pos (ld_stream ld_on) = 45.
Proof.
  destruct (fst (load env32 (fs_of true normals_file) (props_of 0 true)))
    as [ld_on|e] eqn:E1; [|vm_compute in E1; discriminate].
  destruct (fst (load env32 (fs_of true normals_file) (props_of 0 false)))
    as [ld_off|e] eqn:E2; [|vm_compute in E2; discriminate].
  exists ld_on, ld_off.
  assert (has_flag (h_flags (ld_header ld_on)) HasNormals = true) as Hf.
  { vm_compute in E1. injection E1 as <-. reflexivity. }
  destruct (normal_suppression_keeps_the_stream env32
              (fs_of true normals_file) (props_of 0 true) (props_of 0 false)
              ld_on ld_off eq_refl eq_refl eq_refl eq_refl Hf E1 E2)
    as (_ & Hs & _).
  repeat split; try exact Hs.
  vm_compute in E1. injection E1 as <-. reflexivity.
Defined.

(** ** Flags, bit by bit *)

Lemma land_pow2 (x k : Z) :
  0 <= k -> Z.land x (2 ^ k) = if Z.testbit x k then 2 ^ k else 0.
Proof.
  intros Hk. apply Z.bits_inj'. intros n Hn.
  rewrite Z.land_spec, Z.pow2_bits_eqb by exact Hk.
  destruct (Z.eqb_spec k n) as [->|Hne].
  - destruct (Z.testbit x n); simpl.
    + rewrite Z.pow2_bits_true by exact Hn. reflexivity.
    + rewrite Z.bits_0. reflexivity.
  - rewrite andb_false_r.
    destruct (Z.testbit x k).
    + rewrite Z.pow2_bits_false by exact Hne. reflexivity.
    + rewrite Z.bits_0. reflexivity.
Qed.

Lemma flag_value_bit (f : TriMeshFlags) : flag_value f = 2 ^ flag_bit f.
Proof. destruct f; reflexivity. Qed.

Lemma has_flag_testbit (flags : Z) (f : TriMeshFlags) :
  has_flag flags f = Z.testbit flags (flag_bit f).
Proof.
  unfold has_flag. rewrite flag_value_bit.
  rewrite land_pow2 by (destruct f; simpl; lia).
  destruct (Z.testbit flags (flag_bit f)); [|reflexivity].
  destruct f; reflexivity.
Qed.

Lemma testbit_low_high (a x k : Z) :
  0 <= a < 256 -> 0 <= k ->
  Z.testbit (a + 256 * x) k =
    if k <? 8 then Z.testbit a k else Z.testbit x (k - 8).
Proof.
  intros Ha Hk. destruct (Z.ltb_spec k 8) as [Hlt|Hge].
  - rewrite <- (Z.mod_pow2_bits_low (a + 256 * x) 8 k) by exact Hlt.
    change (2 ^ 8) with 256.
    replace (a + 256 * x) with (a + x * 256) by lia.
    rewrite Z.mod_add by lia.
    rewrite Z.mod_small by exact Ha. reflexivity.
  - replace k with ((k - 8) + 8) at 1 by lia.
    rewrite <- Z.div_pow2_bits by lia.
    change (2 ^ 8) with 256.
    replace (a + 256 * x) with (a + x * 256) by lia.
    rewrite Z.div_add by lia.
    rewrite Z.div_small by exact Ha. reflexivity.
Qed.

Lemma byte_val_xor_4 (b : byte) :
  byte_val (byte_xor b 4) = Z.lxor (byte_val b) 4.
Proof. destruct b; reflexivity. Qed.

Lemma le_decode_flip_agree (b : byte) (rest : list byte) :
  flags_agree (le_decode (b :: rest)) (le_decode (byte_xor b 4 :: rest)).
Proof.
  intros f Hf. rewrite !has_flag_testbit. cbn [le_decode].
  rewrite !testbit_low_high
    by (try apply byte_val_range; destruct f; simpl; lia).
  destruct (flag_bit f <? 8) eqn:E; [|reflexivity].
  rewrite byte_val_xor_4, Z.lxor_spec.
  replace (Z.testbit 4 (flag_bit f)) with false;
    [rewrite xorb_false_r; reflexivity|].
  destruct f; try reflexivity. congruence.
Qed.

(** ** The flag [HasTangents] is not looked at *)

Lemma build_layout_agree (env : Env) (disable : bool) (flags1 flags2 : Z) :
  flags_agree flags1 flags2 ->
  build_layout env disable flags1 = build_layout env disable flags2.
Proof.
  intros H. rewrite !build_layout_spec. unfold expected_struct.
  rewrite (H HasTexcoords), (H HasColors) by discriminate. reflexivity.
Qed.

Lemma init_mesh_agree (env : Env) (disable : bool) (flags1 flags2 : Z)
    (name : string) (vc fc : Z) :
  flags_agree flags1 flags2 ->
  init_mesh env disable flags1 name vc fc =
  init_mesh env disable flags2 name vc fc.
Proof.
  intros H. unfold init_mesh.
  rewrite (build_layout_agree env disable flags1 flags2 H). reflexivity.
Qed.

Lemma read_arrays_agree (env : Env) (z : ZStream) (flags1 flags2 : Z)
    (m : Mesh env) :
  flags_agree flags1 flags2 ->
  read_arrays env z flags1 m = read_arrays env z flags2 m.
Proof.
  intros H. unfold read_arrays, read_normals, read_texcoords, read_colors.
  rewrite (H HasNormals), (H HasTexcoords), (H HasColors),
    (H DoublePrecision) by discriminate.
  reflexivity.
Qed.

Lemma recompute_needed_agree (env : Env) (m : Mesh env)
    (flags1 flags2 : Z) :
  flags_agree flags1 flags2 ->
  recompute_needed m flags1 = recompute_needed m flags2.
Proof.
  intros H. unfold recompute_needed.
  rewrite (H HasNormals) by discriminate. reflexivity.
Qed.

Lemma read_body_header_flip (version : Z) (name0 : string)
    (body : list byte) (pos : Z) :
  result_rel
    (fun a1 a2 =>
       match a1, a2 with
       | (f1, n1, vc1, fc1, z1), (f2, n2, vc2, fc2, z2) =>
           flags_agree f1 f2 /\ n1 = n2 /\ vc1 = vc2 /\ fc1 = fc2 /\ z1 = z2
       end)
    (read_body_header version name0 {| z_rest := body; z_pos := pos |})
    (read_body_header version name0
       {| z_rest := flip_tangents body; z_pos := pos |}).
Proof.
  unfold read_body_header, z_read_uint32, z_read. cbn [z_rest z_pos].
  destruct body as [|b rest]; [cbn; reflexivity|].
  cbn [flip_tangents].
  change (zlen (byte_xor b 4 :: rest)) with (zlen (b :: rest)).
  destruct ((0 <=? 4) && (4 <=? zlen (b :: rest))); [|cbn; reflexivity].
  cbn [rbind].
  change (drop 4 (byte_xor b 4 :: rest)) with (drop 4 (b :: rest)).
  change (take 4 (byte_xor b 4 :: rest))
    with (byte_xor b 4 :: take 3 rest).
  change (take 4 (b :: rest)) with (b :: take 3 rest).
  pose proof (le_decode_flip_agree b (take 3 rest)) as Hagree.
  set (f1 := le_decode (b :: take 3 rest)) in *.
  set (f2 := le_decode (byte_xor b 4 :: take 3 rest)) in *.
  set (z1 := {| z_rest := drop 4 (b :: rest); z_pos := pos + 4 |}).
  destruct (if version =? MTS_FILEFORMAT_VERSION_V4
            then read_name z1 else Ok (name0, z1)) as [[name z2]|e];
    [|cbn; reflexivity].
  cbn [rbind].
  destruct (z_read_uint64 z2) as [[vc z3]|e]; [|cbn; reflexivity].
  cbn [rbind].
  destruct (z_read_uint64 z3) as [[fc z4]|e]; [|cbn; reflexivity].
  cbn. auto.
Qed.

Lemma decode_flip (env : Env) (disable : bool) (version : Z)
    (name0 : string) (body : list byte) (pos : Z) :
  result_rel
    (fun a1 a2 =>
       match a1, a2 with
       | (m1, h1, z1), (m2, h2, z2) =>
           m1 = m2 /\ z1 = z2 /\
           flags_agree (h_flags h1) (h_flags h2) /\
           h_version h1 = h_version h2 /\
           h_vertex_count h1 = h_vertex_count h2 /\
           h_face_count h1 = h_face_count h2
       end)
    (decode env disable version name0 {| z_rest := body; z_pos := pos |})
    (decode env disable version name0
       {| z_rest := flip_tangents body; z_pos := pos |}).
Proof.
  unfold decode.
  pose proof (read_body_header_flip version name0 body pos) as H.
  destruct (read_body_header version name0
              {| z_rest := body; z_pos := pos |})
    as [[[[[f1 n1] vc1] fc1] z1]|e1];
  destruct (read_body_header version name0
              {| z_rest := flip_tangents body; z_pos := pos |})
    as [[[[[f2 n2] vc2] fc2] z2]|e2]; cbn in H; try contradiction;
    [|cbn; exact H].
  destruct H as (Hf & <- & <- & <- & <-). cbn [rbind].
  rewrite <- (init_mesh_agree env disable f1 f2 n1 vc1 fc1 Hf).
  destruct (init_mesh env disable f1 n1 vc1 fc1) as [m0|e];
    [|cbn; reflexivity].
  cbn [rbind].
  rewrite <- (read_arrays_agree env z1 f1 f2 m0 Hf).
  destruct (read_arrays env z1 f1 m0) as [[z5 m5]|e]; [|cbn; reflexivity].
  cbn. repeat split; try reflexivity. exact Hf.
Qed.

Lemma load_body_cases (env : Env) (props : Properties env) (version : Z)
    (name0 : string) (z : ZStream) (s : io_state) :
  load_body env props version name0 z s =
    match decode env (face_normals props) version name0 z with
    | Fail e =>
        (Fail e,
         {| io_pos := file_pos_after env (io_pos s) None;
            io_trace := io_trace s |})
    | Ok (m, h, z') =>
        let s1 := {| io_pos := file_pos_after env (io_pos s)
                                 (Some (z_pos z' - z_pos z));
                     io_trace := io_trace s |} in
        match post_process env (to_world props) m with
        | Fail e => (Fail e, s1)
        | Ok m' =>
            io_bind
              (if recompute_needed m' (h_flags h)
               then io_bind (io_log EvRecomputeNormals)
                      (fun _ => io_lift (recompute_vertex_normals env m'))
               else io_ret m')
              (fun m2 =>
               io_bind
                 (if has_emitter props
                  then io_log EvEmitterSetShape else io_ret tt)
                 (fun _ =>
                  io_bind
                    (if has_sensor props
                     then io_log EvSensorSetShape else io_ret tt)
                    (fun _ =>
                     io_ret {| ld_mesh := m2; ld_header := h;
                               ld_stream := z' |}))) s1
        end
    end.
Proof.
  unfold load_body. unfold io_bind at 1, io_filter at 1.
  destruct (decode env (face_normals props) version name0 z)
    as [[[m h] z']|e]; [|reflexivity].
  cbn [snd]. cbv zeta. unfold io_bind at 1, io_lift at 1.
  destruct (post_process env (to_world props) m); reflexivity.
Qed.

(** C10: flipping bit 0x0004 of the flags word of a body changes nothing
    that the loader produces: it fails with the same error, or yields the
    same mesh (layouts, offsets, sizes, counts, name, both buffers,
    bounding box), the same stream after the last read and the same
    header counts; and it causes the same events. *)
Theorem tangent_flag_is_ignored
    (env : Env) (props : Properties env) (version : Z) (name0 : string)
    (body : list byte) (pos : Z) (s : io_state) :
  let run1 := load_body env props version name0
                {| z_rest := body; z_pos := pos |} s in
  let run2 := load_body env props version name0
                {| z_rest := flip_tangents body; z_pos := pos |} s in
  result_map observable (fst run1) = result_map observable (fst run2) /\
  snd run1 = snd run2.
Proof.
  cbv zeta. rewrite !load_body_cases.
  pose proof (decode_flip env (face_normals props) version name0 body pos)
    as H.
  destruct (decode env (face_normals props) version name0
              {| z_rest := body; z_pos := pos |})
    as [[[m1 h1] z1]|e1];
  destruct (decode env (face_normals props) version name0
              {| z_rest := flip_tangents body; z_pos := pos |})
    as [[[m2 h2] z2]|e2]; cbn in H; try contradiction;
    [|subst e2; split; reflexivity].
  destruct H as (<- & <- & Hf & Hv & Hvc & Hfc).
  cbv zeta. cbn [z_pos].
  destruct (post_process env (to_world props) m1) as [m'|e];
    [|split; reflexivity].
  rewrite <- (recompute_needed_agree env m' _ _ Hf).
  unfold io_bind, io_log, io_ret, io_lift, observable.
  destruct (recompute_needed m' (h_flags h1)),
    (recompute_vertex_normals env m'), (has_emitter props),
    (has_sensor props); cbn; rewrite ?Hv, ?Hvc, ?Hfc; split; reflexivity.
Qed.

(** ** Stores stay below their end *)

Lemma zlen_alloc (fresh : Z -> byte) (n : Z) :
  0 <= n -> zlen (alloc fresh n) = n.
Proof.
  intros H. unfold zlen, alloc. rewrite length_map, length_seq. lia.
Qed.

Lemma zlen_fit (n : Z) (bs : list byte) : 0 <= n -> zlen (fit n bs) = n.
Proof.
  intros H. unfold fit. apply zlen_take.
  rewrite zlen_app. unfold zlen at 2. rewrite repeat_length.
  pose proof (zlen_nonneg bs). lia.
Qed.

Lemma read_at_len (buf bs : list byte) (off n : Z) :
  read_at buf off n = Ok bs -> zlen bs = n.
Proof.
  unfold read_at.
  destruct (0 <=? off) eqn:C1; [|discriminate].
  destruct (0 <=? n) eqn:C2; [|discriminate].
  destruct (off + n <=? zlen buf) eqn:C3; [|discriminate].
  cbn [andb]. intros [= <-].
  apply Z.leb_le in C1, C2, C3.
  apply zlen_take. rewrite zlen_drop by lia. lia.
Qed.

Lemma write_at_inv (buf buf' bs : list byte) (off : Z) :
  write_at buf off bs = Ok buf' ->
  zlen buf' = zlen buf /\
  forall K, off + zlen bs <= K -> drop K buf' = drop K buf.
Proof.
  unfold write_at.
  destruct (0 <=? off) eqn:C1; [|discriminate].
  destruct (off + zlen bs <=? zlen buf) eqn:C2; [|discriminate].
  cbn [andb]. intros [= <-].
  apply Z.leb_le in C1, C2.
  pose proof (zlen_nonneg bs) as Hbs.
  split.
  - rewrite !zlen_app, zlen_take, zlen_drop by lia. lia.
  - intros K HK. unfold drop, take, zlen in *.
    replace (Z.to_nat (off + Z.of_nat (List.length bs)))
      with (Z.to_nat off + List.length bs)%nat by lia.
    rewrite !skipn_app.
    rewrite length_firstn.
    replace (Nat.min (Z.to_nat off) (List.length buf))
      with (Z.to_nat off) by lia.
    rewrite (@skipn_all2 _ _ (firstn (Z.to_nat off) buf))
      by (rewrite length_firstn; lia).
    rewrite (@skipn_all2 _ _ bs) by lia.
    rewrite skipn_skipn. cbn [app]. f_equal. lia.
Qed.

Lemma keeps_from_refl (K : Z) (buf : list byte) : keeps_from K buf buf.
Proof. split; reflexivity. Qed.

Lemma keeps_from_write (K : Z) (buf0 buf buf' bs : list byte) (off : Z) :
  keeps_from K buf0 buf -> off + zlen bs <= K ->
  write_at buf off bs = Ok buf' -> keeps_from K buf0 buf'.
Proof.
  intros [H1 H2] HK Hw. apply write_at_inv in Hw as [W1 W2].
  split; [congruence|]. rewrite W2 by exact HK. exact H2.
Qed.

Lemma keeps_from_trans (K : Z) (a b c : list byte) :
  keeps_from K a b -> keeps_from K b c -> keeps_from K a c.
Proof. intros [H1 H2] [H3 H4]. split; congruence. Qed.

Lemma float_size_cases (env : Env) : float_size env = 4 \/ float_size env = 8.
Proof. unfold float_size. destruct (scalar_double env); auto. Qed.

Lemma vertex_step_refl (env : Env) (m : Mesh env) : vertex_step m m.
Proof. repeat split; reflexivity. Qed.

Lemma sentinel_start_shape (env : Env) (m m' : Mesh env) :
  shape m' = shape m -> sentinel_start m' = sentinel_start m.
Proof.
  intros H. apply shape_fields in H as (_ & _ & _ & _ & Hs & Hc & _).
  unfold sentinel_start. congruence.
Qed.

Lemma vertex_step_trans (env : Env) (a b c : Mesh env) :
  vertex_step a b -> vertex_step b c -> vertex_step a c.
Proof.
  intros (S1 & F1 & K1) (S2 & F2 & K2).
  rewrite (sentinel_start_shape env a b S1) in K2.
  repeat split; try congruence.
  - destruct K1, K2; congruence.
  - destruct K1, K2; congruence.
Qed.

Lemma layout_ok_shape (env : Env) (m m' : Mesh env) :
  shape m' = shape m -> layout_ok m -> layout_ok m'.
Proof.
  intros H. apply shape_fields in H
    as (Hs & _ & Hn & Ht & Hvs & Hvc & _ & _).
  unfold layout_ok, has_vertex_normals, has_vertex_texcoords.
  rewrite Hs, Hn, Ht, Hvs, Hvc. trivial.
Qed.

Lemma scatter_keeps (env : Env) (w : Z)
    (conv : option (list byte -> list byte)) (values : list byte)
    (offset dim : Z) (m : Mesh env) (buf' : list byte) :
  0 <= offset -> 0 <= dim -> 0 <= m_vertex_size m ->
  offset + dim * float_size env <= m_vertex_size m ->
  (conv = None -> w = float_size env) ->
  scatter env w conv values offset dim m = Ok buf' ->
  keeps_from (sentinel_start m) (m_vertices m) buf'.
Proof.
  intros Hoff Hdim Hvs Hfit Hw. unfold scatter, sentinel_start, vertex.
  pose proof (float_size_cases env) as Hfs.
  apply for_loop_invariant
    with (P := keeps_from (m_vertex_size m * m_vertex_count m)
                 (m_vertices m)); [|apply keeps_from_refl].
  intros i buf buf1 Hi Hbuf.
  assert (m_vertex_size m * (i + 1) <= m_vertex_size m * m_vertex_count m)
    as Hrec by (apply Z.mul_le_mono_nonneg_l; lia).
  destruct conv as [f|].
  - apply for_loop_invariant
      with (P := keeps_from (m_vertex_size m * m_vertex_count m)
                   (m_vertices m)); [|exact Hbuf].
    intros d b b1 Hd Hb Hwrite.
    eapply keeps_from_write; [exact Hb| |exact Hwrite].
    rewrite zlen_fit by lia.
    assert ((d + 1) * float_size env <= dim * float_size env)
      by (apply Z.mul_le_mono_nonneg_r; lia).
    lia.
  - intros Hwrite.
    eapply keeps_from_write; [exact Hbuf| |exact Hwrite].
    specialize (Hw eq_refl). subst w.
    pose proof (zlen_take_le (float_size env * dim)
                  (drop (dim * i * float_size env) values)
                  ltac:(apply Z.mul_nonneg_nonneg; lia)).
    lia.
Qed.

Lemma read_helper_step (env : Env) (z z' : ZStream) (dp : bool)
    (offset dim : Z) (m m' : Mesh env) :
  0 <= offset -> 0 <= dim -> 0 <= m_vertex_size m ->
  offset + dim * float_size env <= m_vertex_size m ->
  read_helper env z dp offset dim m = Ok (z', m') ->
  vertex_step m m'.
Proof.
  intros Hoff Hdim Hvs Hfit. unfold read_helper, float_size in *.
  destruct dp; intros H;
    apply rbind_ok_inv in H as ([values z1] & _ & H);
    apply rbind_ok_inv in H as (buf & Hs & H);
    injection H as _ <-;
    (split; [reflexivity|]; split; [reflexivity|]);
    cbn [m_vertices set_vertices];
    (eapply scatter_keeps; [exact Hoff|exact Hdim|exact Hvs|exact Hfit| |exact Hs]);
    unfold float_size; destruct (scalar_double env); intros E;
    try discriminate; reflexivity.
Qed.

Lemma z_read_len (n : Z) (z z' : ZStream) (bs : list byte) :
  z_read n z = Ok (bs, z') -> zlen bs = n.
Proof.
  unfold z_read.
  destruct (0 <=? n) eqn:C1; [|discriminate].
  destruct (n <=? zlen (z_rest z)) eqn:C2; [|discriminate].
  cbn [andb]. intros [= <- _]. apply Z.leb_le in C1, C2.
  apply zlen_take. lia.
Qed.

Lemma read_arrays_keeps (env : Env) (z z' : ZStream) (flags : Z)
    (m m' : Mesh env) :
  layout_ok m -> 0 <= m_face_count m -> 0 < index_bytes env ->
  m_face_size m = 3 * index_bytes env ->
  read_arrays env z flags m = Ok (z', m') ->
  shape m' = shape m /\
  keeps_from (sentinel_start m) (m_vertices m) (m_vertices m') /\
  keeps_from (m_face_size m * m_face_count m) (m_faces m) (m_faces m').
Proof.
  intros Hok Hfc Hib Hfs H. unfold read_arrays in H.
  pose proof (float_size_cases env) as Hfl.
  apply rbind_ok_inv in H as (off & Hx & H).
  apply rbind_ok_inv in H as ([z1 m1] & H1 & H).
  apply rbind_ok_inv in H as ([z2 m2] & H2 & H).
  apply rbind_ok_inv in H as ([z3 m3] & H3 & H).
  apply rbind_ok_inv in H as ([z4 m4] & H4 & H).
  assert (vertex_step m m1) as S1.
  { destruct Hok as (_ & Hvs & Hfields & _).
    destruct (Hfields "x"%string 3 off ltac:(simpl; auto) Hx).
    eapply read_helper_step; [| | | |exact H1]; lia. }
  assert (vertex_step m1 m2) as S2.
  { pose proof (layout_ok_shape env m m1 (proj1 S1) Hok)
      as (_ & Hvs & Hfields & _).
    revert H2. unfold read_normals.
    destruct (has_flag flags HasNormals);
      [|intros [= _ <-]; apply vertex_step_refl].
    destruct (m_disable_vertex_normals m1); intros H2.
    - apply rbind_ok_inv in H2 as (zz & _ & H2). injection H2 as _ <-.
      apply vertex_step_refl.
    - apply rbind_ok_inv in H2 as (o & Ho & H2).
      destruct (Hfields "nx"%string 3 o ltac:(simpl; auto) Ho).
      eapply read_helper_step; [| | | |exact H2]; lia. }
  pose proof (vertex_step_trans env m m1 m2 S1 S2) as S12.
  assert (vertex_step m2 m3) as S3.
  { pose proof (layout_ok_shape env m m2 (proj1 S12) Hok)
      as (_ & Hvs & Hfields & _).
    revert H3. unfold read_texcoords.
    destruct (has_flag flags HasTexcoords);
      [|intros [= _ <-]; apply vertex_step_refl].
    intros H3. apply rbind_ok_inv in H3 as (o & Ho & H3).
    destruct (Hfields "u"%string 2 o ltac:(simpl; auto) Ho).
    eapply read_helper_step; [| | | |exact H3]; lia. }
  pose proof (vertex_step_trans env m m2 m3 S12 S3) as S13.
  assert (vertex_step m3 m4) as S4.
  { pose proof (layout_ok_shape env m m3 (proj1 S13) Hok)
      as (_ & Hvs & Hfields & _).
    revert H4. unfold read_colors.
    destruct (has_flag flags HasColors);
      [|intros [= _ <-]; apply vertex_step_refl].
    intros H4. apply rbind_ok_inv in H4 as (o & Ho & H4).
    destruct (Hfields "r"%string 3 o ltac:(simpl; auto) Ho).
    eapply read_helper_step; [| | | |exact H4]; lia. }
  pose proof (vertex_step_trans env m m3 m4 S13 S4) as (Sh & Sf & Sv).
  unfold read_faces in H.
  apply rbind_ok_inv in H as ([bs zz] & Hr & H).
  apply rbind_ok_inv in H as (buf & Hw & H).
  injection H as _ <-.
  split; [exact Sh|]. split; [exact Sv|].
  cbn [m_faces set_faces].
  apply shape_fields in Sh as (_ & _ & _ & _ & _ & _ & Efs & Efc).
  rewrite Sf in Hw.
  eapply keeps_from_write; [apply keeps_from_refl| |exact Hw].
  apply z_read_len in Hr. rewrite Hr, Efc, Hfs.
  pose proof (wrap_bounds 64 (m_face_count m * index_bytes env * 3)
                ltac:(apply Z.mul_nonneg_nonneg;
                      [apply Z.mul_nonneg_nonneg|]; lia)).
  lia.
Qed.

Lemma post_process_vertex_step (env : Env) (tw : Transform env) (i : Z)
    (m m' : Mesh env) :
  layout_ok m -> 0 <= i < m_vertex_count m ->
  post_process_vertex env tw i m = Ok m' -> vertex_step m m'.
Proof.
  intros (Hvc & Hvs & _ & Hn & Ht) Hi H.
  pose proof (float_size_cases env) as Hfl.
  assert (m_vertex_size m * (i + 1) <= sentinel_start m) as Hrec
    by (unfold sentinel_start; apply Z.mul_le_mono_nonneg_l; lia).
  unfold post_process_vertex, vertex in H.
  apply rbind_ok_inv in H as (pos & _ & H).
  apply rbind_ok_inv in H as (b1 & W1 & H).
  apply rbind_ok_inv in H as (b2 & W2 & H).
  apply rbind_ok_inv in H as (b3 & W3 & H).
  injection H as <-.
  split; [reflexivity|]. split; [reflexivity|].
  cbn [m_vertices set_bbox set_vertices].
  assert (keeps_from (sentinel_start m) (m_vertices m) b1) as K1.
  { eapply keeps_from_write; [apply keeps_from_refl| |exact W1].
    rewrite zlen_fit by lia. lia. }
  assert (keeps_from (sentinel_start m) (m_vertices m) b2) as K2.
  { destruct (has_vertex_normals m); [|injection W2 as <-; exact K1].
    destruct (Hn eq_refl) as [Hn0 Hn1].
    apply rbind_ok_inv in W2 as (n & _ & W2).
    eapply keeps_from_write; [exact K1| |exact W2].
    rewrite zlen_fit by lia. lia. }
  destruct (has_vertex_texcoords m); [|injection W3 as <-; exact K2].
  destruct (Ht eq_refl) as [Ht0 Ht1].
  apply rbind_ok_inv in W3 as (uv & Hu & W3).
  eapply keeps_from_write; [exact K2| |exact W3].
  apply read_at_len in Hu. rewrite Hu. lia.
Qed.

Lemma post_process_step (env : Env) (tw : Transform env)
    (m m' : Mesh env) :
  layout_ok m -> post_process env tw m = Ok m' -> vertex_step m m'.
Proof.
  intros Hok. unfold post_process.
  apply for_loop_invariant with (P := fun t => vertex_step m t);
    [|apply vertex_step_refl].
  intros j t t' Hj Ht Hb.
  eapply vertex_step_trans; [exact Ht|].
  eapply post_process_vertex_step; [| |exact Hb].
  - eapply layout_ok_shape; [exact (proj1 Ht)|exact Hok].
  - destruct Ht as (Hs & _).
    apply shape_fields in Hs as (_ & _ & _ & _ & _ & Hc & _). lia.
Qed.

(** The recomputation stores the normal of a vertex inside its record. *)
Lemma store_normal_step (env : Env) (acc : list (list byte)) (i : Z)
    (m m' : Mesh env) :
  layout_ok m -> 0 <= i < m_vertex_count m ->
  store_normal env acc i m = Ok m' -> vertex_step m m'.
Proof.
  intros (Hvc & Hvs & _ & Hn & _) Hi H.
  pose proof (float_size_cases env) as Hfl.
  assert (m_vertex_size m * (i + 1) <= sentinel_start m) as Hrec
    by (unfold sentinel_start; apply Z.mul_le_mono_nonneg_l; lia).
  unfold store_normal, vertex in H.
  apply rbind_ok_inv in H as (buf & W & H). injection H as <-.
  split; [reflexivity|]. split; [reflexivity|].
  cbn [m_vertices set_vertices].
  eapply keeps_from_write; [apply keeps_from_refl| |exact W].
  rewrite zlen_fit by lia.
  unfold has_vertex_normals in Hn.
  destruct (Z.eqb_spec (m_normal_offset m) 0) as [E|E].
  - rewrite E. lia.
  - destruct (Hn eq_refl). lia.
Qed.

Lemma recompute_step (env : Env) (m m' : Mesh env) :
  layout_ok m -> recompute_vertex_normals env m = Ok m' -> vertex_step m m'.
Proof.
  intros Hok H. unfold recompute_vertex_normals in H.
  apply rbind_ok_inv in H as (acc & _ & H). revert H.
  apply for_loop_invariant with (P := fun t => vertex_step m t);
    [|apply vertex_step_refl].
  intros j t t' Hj Ht Hb.
  eapply vertex_step_trans; [exact Ht|].
  eapply store_normal_step; [| |exact Hb].
  - eapply layout_ok_shape; [exact (proj1 Ht)|exact Hok].
  - destruct Ht as (Hs & _).
    apply shape_fields in Hs as (_ & _ & _ & _ & _ & Hc & _). lia.
Qed.

Lemma finish_normals_step (env : Env) (m m' : Mesh env) (flags : Z) :
  layout_ok m -> finish_normals env m flags = Ok m' -> vertex_step m m'.
Proof.
  intros Hok. unfold finish_normals.
  destruct (recompute_needed m flags).
  - apply recompute_step. exact Hok.
  - intros [= <-]. apply vertex_step_refl.
Qed.

Lemma expected_struct_size (env : Env) (disable : bool) (flags : Z) :
  struct_size (expected_struct (float_size env) disable flags) =
    float_size env
    * (3 + (if disable then 0 else 3)
       + (if has_flag flags HasTexcoords then 2 else 0)
       + (if has_flag flags HasColors then 3 else 0)).
Proof.
  unfold expected_struct, float_size.
  destruct disable, (has_flag flags HasTexcoords),
    (has_flag flags HasColors), (scalar_double env); reflexivity.
Qed.

Lemma expected_struct_offsets (env : Env) (disable : bool) (flags : Z)
    (name : string) (dim off : Z) :
  In (name, dim) [("x", 3); ("nx", 3); ("u", 2); ("r", 3)]%string ->
  struct_offset (expected_struct (float_size env) disable flags) name
    = Ok off ->
  0 <= off /\
  off + dim * float_size env
    <= struct_size (expected_struct (float_size env) disable flags).
Proof.
  intros Hin. unfold expected_struct, float_size.
  destruct Hin as [E|[E|[E|[E|[]]]]]; injection E as <- <-;
    destruct disable, (has_flag flags HasTexcoords),
      (has_flag flags HasColors), (scalar_double env);
    cbn; intros [= <-]; lia.
Qed.

Lemma init_mesh_layout_ok (env : Env) (disable : bool) (flags : Z)
    (name : string) (vc fc : Z) (m : Mesh env) :
  init_mesh env disable flags name vc fc = Ok m ->
  0 <= vc < 2 ^ size_bits env ->
  struct_size (expected_struct (float_size env) disable flags)
    < 2 ^ size_bits env ->
  layout_ok m /\
  m_vertex_size m
    = struct_size (expected_struct (float_size env) disable flags) /\
  m_vertex_count m = vc.
Proof.
  intros H Hvc Hvs.
  apply init_mesh_ok in H
    as (Es & _ & Et & En & Evs & Evc & _).
  pose proof (expected_struct_size env disable flags) as Hsz.
  pose proof (float_size_cases env) as Hfl.
  assert (0 <= struct_size (expected_struct (float_size env) disable flags))
    as Hpos.
  { rewrite Hsz. destruct disable, (has_flag flags HasTexcoords),
      (has_flag flags HasColors); lia. }
  rewrite wrap_small in Evs by lia. rewrite wrap_small in Evc by lia.
  split; [|split; assumption].
  unfold layout_ok, has_vertex_normals, has_vertex_texcoords.
  rewrite Evs, Evc, Es, Et, En.
  split; [lia|]. split.
  { rewrite Hsz. destruct disable, (has_flag flags HasTexcoords),
      (has_flag flags HasColors); lia. }
  split; [intros n d o; apply expected_struct_offsets|]. split.
  - destruct disable; [discriminate|]. intros _.
    pose proof (wrap_bounds (8 * index_bytes env) (3 * float_size env)
                  ltac:(lia)).
    rewrite Hsz. destruct (has_flag flags HasTexcoords),
      (has_flag flags HasColors); lia.
  - destruct (has_flag flags HasTexcoords); [|discriminate]. intros _.
    pose proof (wrap_bounds (8 * index_bytes env)
                  (float_size env * (if disable then 3 else 6))
                  ltac:(destruct disable; lia)).
    rewrite Hsz. destruct disable, (has_flag flags HasColors); lia.
Qed.

Lemma face_struct_size (env : Env) :
  struct_size (build_face_struct env) = 3 * index_bytes env.
Proof.
  unfold build_face_struct, struct_append_all, struct_append, struct_size.
  cbn [fold_left fold_right app field_size]. lia.
Qed.

(** C8, as amended: after a successful load whose declared counts are
    small enough for the byte sizes (count + 1) * record size to fit the
    size type of the mesh, the vertex buffer is exactly
    (vertex_count + 1) records of the size of the vertex layout, the face
    buffer exactly (face_count + 1) records of three index scalars, and
    the last record of each, the sentinel, is never written from file
    data: in the loaded mesh it still holds what the allocator handed
    out. *)
Theorem buffers_end_with_an_untouched_sentinel
    (env : Env) (fs : FileSystem) (props : Properties env) (ld : Loaded env)
    (Hload : fst (load env fs props) = Ok ld)
    (Hindex : 0 < index_bytes env)
    (Hvfit : (h_vertex_count (ld_header ld) + 1)
             * struct_size (m_vertex_struct (ld_mesh ld))
             < 2 ^ size_bits env)
    (Hffit : (h_face_count (ld_header ld) + 1) * (3 * index_bytes env)
             < 2 ^ size_bits env) :
  let m := ld_mesh ld in
  let vertex_count := h_vertex_count (ld_header ld) in
  let face_count := h_face_count (ld_header ld) in
  let vertex_size := struct_size (m_vertex_struct m) in
  let face_size := 3 * index_bytes env in
  m_vertex_size m = vertex_size /\
  m_face_size m = face_size /\
  struct_size (m_face_struct m) = face_size /\
  zlen (m_vertices m) = (vertex_count + 1) * vertex_size /\
  zlen (m_faces m) = (face_count + 1) * face_size /\
  drop (vertex_count * vertex_size) (m_vertices m) =
    drop (vertex_count * vertex_size)
      (alloc (fresh_vertices env) ((vertex_count + 1) * vertex_size)) /\
  drop (face_count * face_size) (m_faces m) =
    drop (face_count * face_size)
      (alloc (fresh_faces env) ((face_count + 1) * face_size)).
Proof.
  intros m vc fc vsize fsize. subst m vc fc vsize fsize.
  apply load_ok_init in Hload
    as (name & z0 & m0 & m1 & m2 & I & R & P & F & Hvc & Hfc).
  set (vc := h_vertex_count (ld_header ld)) in *.
  set (fc := h_face_count (ld_header ld)) in *.
  set (flags := h_flags (ld_header ld)) in *.
  set (VS := struct_size
               (expected_struct (float_size env) (face_normals props) flags)).
  pose proof (init_mesh_ok env _ _ _ _ _ _ I)
    as (Es & _ & _ & _ & _ & _ & Efs & Efc & Ev & Ef).
  assert (m_face_struct m0 = build_face_struct env) as Efst.
  { revert I. unfold init_mesh. rewrite build_layout_spec. cbn [rbind].
    intros [= <-]. reflexivity. }
  pose proof (read_arrays_shape env _ _ _ _ _ R) as Sh1.
  pose proof (post_process_shape env _ _ _ P) as Sh2.
  pose proof (finish_normals_keeps env _ _ _ F) as (Sh3 & _).
  assert (shape m2 = shape m0) as Sh12 by congruence.
  assert (shape (ld_mesh ld) = shape m0) as Sh by congruence.
  pose proof (shape_fields env _ _ Sh)
    as (Fs & _ & _ & _ & Fvs & Fvc & Ffs & Ffc).
  assert (m_face_struct (ld_mesh ld) = m_face_struct m0) as Ffst
    by exact (f_equal m_face_struct Sh).
  rewrite Fs, Es in Hvfit. fold VS in Hvfit.
  assert (12 <= VS) as HVS.
  { subst VS. rewrite expected_struct_size.
    pose proof (float_size_cases env).
    destruct (face_normals props), (has_flag flags HasTexcoords),
      (has_flag flags HasColors); lia. }
  assert (VS <= (vc + 1) * VS) as Hle1 by nia.
  assert (vc + 1 <= (vc + 1) * VS) as Hle2 by nia.
  assert (3 * index_bytes env <= (fc + 1) * (3 * index_bytes env))
    as Hle3 by nia.
  assert (fc + 1 <= (fc + 1) * (3 * index_bytes env)) as Hle4 by nia.
  destruct (init_mesh_layout_ok env _ _ _ _ _ _ I ltac:(lia) ltac:(fold VS; lia))
    as (Hok & Evs & Evc).
  fold VS in Evs.
  rewrite face_struct_size in Efs. rewrite wrap_small in Efs by lia.
  rewrite wrap_small in Efc by lia.
  rewrite Evs, Evc in Ev. rewrite Efs, Efc in Ef.
  rewrite wrap_small in Ev by lia. rewrite wrap_small in Ef by lia.
  destruct (read_arrays_keeps env _ _ _ _ _ Hok ltac:(lia) Hindex Efs R)
    as (_ & Kv1 & Kf1).
  destruct (post_process_step env _ _ _
              (layout_ok_shape env _ _ Sh1 Hok) P) as (_ & Kf2 & Kv2).
  destruct (finish_normals_step env _ _ _
              (layout_ok_shape env _ _ Sh12 Hok) F) as (_ & Kf3 & Kv3).
  rewrite (sentinel_start_shape env _ _ Sh1) in Kv2.
  rewrite (sentinel_start_shape env _ _ Sh12) in Kv3.
  pose proof (keeps_from_trans _ _ _ _
                (keeps_from_trans _ _ _ _ Kv1 Kv2) Kv3) as [Lv Dv].
  unfold sentinel_start in Dv. rewrite Evs, Evc in Dv.
  rewrite Efs, Efc in Kf1. destruct Kf1 as [Lf Df].
  rewrite <- Kf2, <- Kf3 in Lf, Df.
  rewrite Fs, Es, Fvs, Ffs, Ffst, Efst, face_struct_size. fold VS.
  rewrite Lv, Lf, Ev, Ef, !zlen_alloc by lia.
  rewrite (Z.mul_comm vc VS), (Z.mul_comm fc (3 * index_bytes env)).
  rewrite Dv, Df, Ev, Ef.
  repeat split; try reflexivity; assumption.
Qed.

(** The triangle: 3 vertices of 24 bytes and 1 face of 12 bytes, so 96
    and 24 bytes, the last 24 and 12 of them untouched. *)
Lemma buffers_end_with_an_untouched_sentinel_witness :
  exists ld,
    fst (load env32 (fs_of true tri_file) (props_of 0 false)) = Ok ld /\
    zlen (m_vertices (ld_mesh ld)) = 96 /\
    zlen (m_faces (ld_mesh ld)) = 24 /\
    drop 72 (m_vertices (ld_mesh ld)) =
      drop 72 (alloc (fresh_vertices env32) 96) /\
    drop 12 (m_faces (ld_mesh ld)) =
      drop 12 (alloc (fresh_faces env32) 24).
Proof.
  destruct (fst (load env32 (fs_of true tri_file) (props_of 0 false)))
    as [ld|e] eqn:E; [|vm_compute in E; discriminate].
  exists ld. split; [reflexivity|].
  pose proof E as E'. vm_compute in E'. injection E' as E'.
  assert (0 < index_bytes env32) as Hi by reflexivity.
  assert ((h_vertex_count (ld_header ld) + 1)
          * struct_size (m_vertex_struct (ld_mesh ld))
          < 2 ^ size_bits env32) as Hv
    by (rewrite <- E'; reflexivity).
  assert ((h_face_count (ld_header ld) + 1) * (3 * index_bytes env32)
          < 2 ^ size_bits env32) as Hf
    by (rewrite <- E'; reflexivity).
  destruct (buffers_end_with_an_untouched_sentinel env32
              (fs_of true tri_file) (props_of 0 false) ld E Hi Hv Hf)
    as (_ & _ & _ & Lv & Lf & Dv & Df).
  rewrite <- E' in Lv, Lf, Dv, Df |- *.
  split; [exact Lv|]. split; [exact Lf|]. split; [exact Dv | exact Df].
Defined.

(** C8 as stated does not hold for every declared count: with 32-bit
    sizes, a body that declares 2^32 vertices (and holds no array data)
    is loaded, the count kept by the mesh is 0, and the vertex buffer is
    1 record of 24 bytes, not 2^32 + 1 records. *)
Lemma declared_count_beyond_the_size_type :
  match fst (load env32 (fs_of true huge_count_file) (props_of 0 false)) with
  | Ok ld =>
      h_vertex_count (ld_header ld) = 2 ^ 32 /\
      m_vertex_count (ld_mesh ld) = 0 /\
      struct_size (m_vertex_struct (ld_mesh ld)) = 24 /\
      zlen (m_vertices (ld_mesh ld)) = 24 /\
      zlen (m_vertices (ld_mesh ld))
        <> (h_vertex_count (ld_header ld) + 1)
           * struct_size (m_vertex_struct (ld_mesh ld))
  | Fail _ => False
  end.
Proof.
  vm_compute.
  split; [reflexivity|]. split; [reflexivity|]. split; [reflexivity|].
  split; [reflexivity | discriminate].
Qed.

End SerializedMeshFacts.

(* ===================================================================== *)
(** * Further facts about the serialized mesh loader *)
(* ===================================================================== *)

Module SerializedMeshMoreFacts.
Import SerializedMesh Examples SerializedMeshFacts.

(** ** After decompression has begun *)

(** ** Indices beyond the directory *)

Lemma locate_submesh_rejects (data : list byte) (version index pos0 : Z)
    (tr : list io_event) :
  let size := zlen data in
  4 <= size < 2 ^ 64 ->
  index > to_signed 32 (directory_count data) ->
  locate_submesh data version index {| io_pos := pos0; io_trace := tr |} =
    (Fail ShapeIndexOutOfRange,
     {| io_pos := size;
        io_trace := tr ++ [EvSize; EvSeek (size - 4);
                           EvRead (size - 4) 4] |}).
Proof.
  intros size Hsize Hidx.
  assert (H64 : 2 ^ 64 = 18446744073709551616) by reflexivity.
  assert (Hseek : forall p q t, stream_seek p {| io_pos := q; io_trace := t |}
             = (Ok tt, {| io_pos := p; io_trace := t ++ [EvSeek p] |}))
    by reflexivity.
  unfold locate_submesh.
  unfold io_bind at 1. unfold stream_size. unfold io_bind at 1.
  unfold io_log at 1. unfold io_ret at 1.
  cbn [io_pos io_trace]. fold size.
  unfold io_bind at 1. rewrite Hseek.
  rewrite (wrap_small 64 (size - 4)) by lia.
  unfold io_bind at 1. rewrite read_uint32_ok by (fold size; lia).
  fold size.
  change (le_decode (take 4 (drop (size - 4) data)))
    with (directory_count data).
  destruct (index >? to_signed 32 (directory_count data)) eqn:C;
    [|rewrite Z.gtb_ltb in C; apply Z.ltb_ge in C; lia].
  unfold io_fail. replace (size - 4 + 4) with size by lia.
  rewrite <- !app_assoc. reflexivity.
Qed.

Lemma load_out_of_range (env : Env) (fs : FileSystem)
    (props : Properties env) :
  let path := fs_resolve fs (filename props) in
  let data := fs_content fs path in
  fs_exists fs path = true ->
  leading_u16 data = 0x041C ->
  version_u16 data = 3 \/ version_u16 data = 4 ->
  4 <= zlen data < 2 ^ 64 ->
  0 < shape_index props ->
  shape_index props > to_signed 32 (directory_count data) ->
  load env fs props =
    (Fail ShapeIndexOutOfRange,
     [EvResolve (filename props); EvExists path; EvOpen path;
      EvRead 0 2; EvRead 2 2;
      EvSize; EvSeek (zlen data - 4); EvRead (zlen data - 4) 4]).
Proof.
  intros path data Hexists Hmagic Hversion Hlen Hpos Hidx.
  subst data path.
  pose proof (SerializedMesh_new_open env fs props Hexists ltac:(lia))
    as Hopen. cbv zeta in Hopen.
  unfold load. rewrite Hopen. unfold io_bind at 1.
  rewrite open_stream_header by lia. cbv zeta.
  rewrite Hmagic.
  change (negb (1052 =? MTS_FILEFORMAT_HEADER)) with false. cbv iota.
  replace (negb (version_u16
                   (fs_content fs (fs_resolve fs (filename props)))
                 =? MTS_FILEFORMAT_VERSION_V3)
           && negb (version_u16
                      (fs_content fs (fs_resolve fs (filename props)))
                    =? MTS_FILEFORMAT_VERSION_V4)) with false
    by (destruct Hversion as [-> | ->]; reflexivity).
  replace (negb (shape_index props =? 0)) with true
    by (symmetry; apply negb_true_iff, Z.eqb_neq; lia).
  unfold io_bind at 1.
  rewrite locate_submesh_rejects by assumption.
  reflexivity.
Qed.

(** X3: with a directory count N below 2^31, every index above N fails
    with the out-of-range error as soon as the count has been read: the
    directory entries are not touched and nothing is decompressed. *)
Theorem index_above_count_is_rejected
    (env : Env) (fs : FileSystem) (props : Properties env)
    (Hexists : fs_exists fs (fs_resolve fs (filename props)) = true)
    (Hmagic : leading_u16 (fs_content fs (fs_resolve fs (filename props)))
              = 0x041C)
    (Hversion :
       version_u16 (fs_content fs (fs_resolve fs (filename props))) = 3 \/
       version_u16 (fs_content fs (fs_resolve fs (filename props))) = 4)
    (Hlen : 4 <= zlen (fs_content fs (fs_resolve fs (filename props)))
            < 2 ^ 64)
    (Hcount : directory_count
                (fs_content fs (fs_resolve fs (filename props))) < 2 ^ 31)
    (Hindex : directory_count
                (fs_content fs (fs_resolve fs (filename props)))
              < shape_index props) :
  let path := fs_resolve fs (filename props) in
  let data := fs_content fs path in
  load env fs props =
    (Fail ShapeIndexOutOfRange,
     [EvResolve (filename props); EvExists path; EvOpen path;
      EvRead 0 2; EvRead 2 2;
      EvSize; EvSeek (zlen data - 4); EvRead (zlen data - 4) 4]).
Proof.
  intros path data. subst data path.
  pose proof (le_decode_range
                (take 4 (drop (zlen (fs_content fs
                                       (fs_resolve fs (filename props))) - 4)
                           (fs_content fs
                              (fs_resolve fs (filename props)))))) as Hr.
  fold (directory_count (fs_content fs (fs_resolve fs (filename props))))
    in Hr.
  apply load_out_of_range; try assumption; try lia.
  rewrite to_signed_small by (change (32 - 1) with 31; lia). lia.
Qed.

Lemma index_above_count_is_rejected_witness :
  load env32 (fs_of true tri_file) (props_of 5 false) =
    (Fail ShapeIndexOutOfRange,
     [EvResolve "tri.serialized"; EvExists "tri.serialized";
      EvOpen "tri.serialized"; EvRead 0 2; EvRead 2 2;
      EvSize; EvSeek 84; EvRead 84 4]).
Proof.
  refine (index_above_count_is_rejected env32 (fs_of true tri_file)
            (props_of 5 false) eq_refl _ _ _ _ _).
  - vm_compute. reflexivity.
  - right. vm_compute. reflexivity.
  - vm_compute. split; [discriminate | reflexivity].
  - vm_compute. reflexivity.
  - vm_compute. reflexivity.
Defined.

(** X4: the count is compared as an [int].  A directory count of 2^31
    or more is a negative number there, so every index other than 0 is
    rejected as out of range, also the indices below the count. *)
Theorem huge_count_rejects_every_index
    (env : Env) (fs : FileSystem) (props : Properties env)
    (Hexists : fs_exists fs (fs_resolve fs (filename props)) = true)
    (Hmagic : leading_u16 (fs_content fs (fs_resolve fs (filename props)))
              = 0x041C)
    (Hversion :
       version_u16 (fs_content fs (fs_resolve fs (filename props))) = 3 \/
       version_u16 (fs_content fs (fs_resolve fs (filename props))) = 4)
    (Hlen : 4 <= zlen (fs_content fs (fs_resolve fs (filename props)))
            < 2 ^ 64)
    (Hcount : 2 ^ 31 <= directory_count
                          (fs_content fs (fs_resolve fs (filename props))))
    (Hindex : 0 < shape_index props) :
  fst (load env fs props) = Fail ShapeIndexOutOfRange.
Proof.
  pose proof (le_decode_range
                (take 4 (drop (zlen (fs_content fs
                                       (fs_resolve fs (filename props))) - 4)
                           (fs_content fs
                              (fs_resolve fs (filename props)))))) as Hr.
  pose proof (zlen_take_le 4
                (drop (zlen (fs_content fs
                               (fs_resolve fs (filename props))) - 4)
                   (fs_content fs (fs_resolve fs (filename props))))
                ltac:(lia)) as Hl.
  pose proof (zlen_nonneg
                (take 4 (drop (zlen (fs_content fs
                                       (fs_resolve fs (filename props))) - 4)
                           (fs_content fs
                              (fs_resolve fs (filename props)))))) as Hl0.
  assert (256 ^ zlen
            (take 4 (drop (zlen (fs_content fs
                                   (fs_resolve fs (filename props))) - 4)
                       (fs_content fs (fs_resolve fs (filename props)))))
          <= 256 ^ 4) as Hp by (apply Z.pow_le_mono_r; lia).
  fold (directory_count (fs_content fs (fs_resolve fs (filename props))))
    in Hr.
  change (256 ^ 4) with 4294967296 in Hp.
  assert (H31 : 2 ^ 31 = 2147483648) by reflexivity.
  rewrite load_out_of_range; try assumption; [reflexivity|].
  unfold to_signed. rewrite wrap_small by (change (2 ^ 32) with 4294967296; lia).
  change (2 ^ (32 - 1)) with 2147483648. change (2 ^ 32) with 4294967296.
  destruct (directory_count
              (fs_content fs (fs_resolve fs (filename props)))
            <? 2147483648) eqn:C; [apply Z.ltb_lt in C; lia|]. lia.
Qed.

(** A directory that claims 2^31 meshes: index 1 is out of range. *)
Lemma huge_count_rejects_every_index_witness :
  directory_count big_count_file = 2 ^ 31 /\
  fst (load env32 (fs_of true big_count_file) (props_of 1 false))
    = Fail ShapeIndexOutOfRange.
Proof.
  split; [vm_compute; reflexivity|].
  refine (huge_count_rejects_every_index env32 (fs_of true big_count_file)
            (props_of 1 false) eq_refl _ _ _ _ _).
  - vm_compute. reflexivity.
  - right. vm_compute. reflexivity.
  - vm_compute. split; [discriminate | reflexivity].
  - vm_compute. discriminate.
  - vm_compute. reflexivity.
Defined.

(** ** The name of a version-4 mesh *)

Lemma string_append_assoc (a b c : string) :
  ((a ++ b) ++ c)%string = (a ++ (b ++ c))%string.
Proof.
  induction a as [|x a IH]; simpl; [reflexivity|]. rewrite IH. reflexivity.
Qed.

Lemma string_append_nil_r (a : string) : (a ++ "")%string = a.
Proof.
  induction a as [|x a IH]; simpl; [reflexivity|]. rewrite IH. reflexivity.
Qed.

Lemma read_name_loop_terminated (cs rest : list byte) (pos : Z)
    (acc : string) :
  Forall (fun c => c <> x00) cs ->
  read_name_loop (cs ++ x00 :: rest) pos acc =
    Ok ((acc ++ string_of_list_byte cs)%string,
        {| z_rest := rest; z_pos := pos + zlen cs + 1 |}).
Proof.
  intros H. revert pos acc.
  induction H as [|c cs Hc Hcs IH]; intros pos acc.
  - cbn. rewrite string_append_nil_r. do 2 f_equal. f_equal. unfold zlen.
    simpl. lia.
  - cbn [app read_name_loop].
    destruct (Byte.eqb c x00) eqn:E;
      [apply Byte.byte_dec_bl in E; contradiction|].
    rewrite IH. rewrite string_append_assoc.
    do 2 f_equal. f_equal. unfold zlen.
    change (List.length (c :: cs)) with (S (List.length cs)). lia.
Qed.

(** X5: the name is the run of bytes up to the first zero byte.  A
    stream that starts with bytes [cs], none of them zero, then a zero
    byte, gives the name [cs], and leaves the stream right behind that
    zero byte. *)
Theorem read_name_takes_the_terminated_string
    (cs rest : list byte) (pos : Z)
    (Hcs : Forall (fun c => c <> x00) cs) :
  read_name {| z_rest := cs ++ x00 :: rest; z_pos := pos |} =
    Ok (string_of_list_byte cs,
        {| z_rest := rest; z_pos := pos + zlen cs + 1 |}).
Proof.
  unfold read_name. cbn [z_rest z_pos].
  rewrite read_name_loop_terminated by exact Hcs. reflexivity.
Qed.

Lemma read_name_takes_the_terminated_string_witness :
  read_name {| z_rest := bytes [116; 114; 105; 0; 7; 7]%N; z_pos := 4 |} =
    Ok ("tri"%string, {| z_rest := bytes [7; 7]%N; z_pos := 8 |}).
Proof.
  apply (read_name_takes_the_terminated_string
           (bytes [116; 114; 105]%N) (bytes [7; 7]%N) 4).
  repeat constructor; discriminate.
Defined.

(** X6: a name that is not terminated is an error.  When no zero byte
    is left in the stream, the name loop runs into the end of the stream
    and the read fails; it does not return the bytes it has seen. *)
Theorem read_name_needs_a_terminator
    (bs : list byte) (pos : Z)
    (Hbs : Forall (fun c => c <> x00) bs) :
  read_name {| z_rest := bs; z_pos := pos |} = Fail IOError.
Proof.
  unfold read_name. cbn [z_rest z_pos].
  generalize EmptyString as acc. revert pos.
  induction Hbs as [|c cs Hc Hcs IH]; intros pos acc; [reflexivity|].
  cbn [read_name_loop].
  destruct (Byte.eqb c x00) eqn:E;
    [apply Byte.byte_dec_bl in E; contradiction|].
  apply IH.
Qed.

Lemma read_name_needs_a_terminator_witness :
  read_name {| z_rest := bytes [116; 114; 105]%N; z_pos := 4 |}
    = Fail IOError.
Proof.
  apply (read_name_needs_a_terminator (bytes [116; 114; 105]%N) 4).
  repeat constructor; discriminate.
Defined.

(** ** The bits of the flags word that are tested *)

Lemma has_flag_tested (flags : Z) (f : TriMeshFlags) :
  f = HasNormals \/ f = HasTexcoords \/ f = HasColors
  \/ f = DoublePrecision ->
  has_flag flags f = has_flag (Z.land flags tested_flags) f.
Proof.
  intros H. unfold has_flag. rewrite <- Z.land_assoc.
  destruct H as [-> | [-> | [-> | ->]]]; reflexivity.
Qed.

Lemma tested_flags_agree (flags1 flags2 : Z) (f : TriMeshFlags) :
  Z.land flags1 tested_flags = Z.land flags2 tested_flags ->
  f = HasNormals \/ f = HasTexcoords \/ f = HasColors
  \/ f = DoublePrecision ->
  has_flag flags1 f = has_flag flags2 f.
Proof.
  intros E H. rewrite (has_flag_tested flags1 f H),
    (has_flag_tested flags2 f H), E. reflexivity.
Qed.

Lemma take_app_exact {A} (l1 l2 : list A) : take (zlen l1) (l1 ++ l2) = l1.
Proof.
  unfold take, zlen. rewrite Nat2Z.id.
  rewrite firstn_app, Nat.sub_diag, firstn_all. cbn. apply app_nil_r.
Qed.

Lemma drop_app_exact {A} (l1 l2 : list A) : drop (zlen l1) (l1 ++ l2) = l2.
Proof.
  unfold drop, zlen. rewrite Nat2Z.id.
  rewrite skipn_app, Nat.sub_diag, skipn_all. reflexivity.
Qed.

Lemma decode_tested_flags (env : Env) (disable : bool) (version : Z)
    (name0 : string) (w1 w2 rest : list byte) (pos : Z) :
  zlen w1 = 4 -> zlen w2 = 4 ->
  Z.land (le_decode w1) tested_flags = Z.land (le_decode w2) tested_flags ->
  result_rel
    (fun a1 a2 =>
       match a1, a2 with
       | (m1, h1, z1), (m2, h2, z2) =>
           m1 = m2 /\ z1 = z2 /\
           has_flag (h_flags h1) HasNormals
             = has_flag (h_flags h2) HasNormals /\
           h_version h1 = h_version h2 /\
           h_vertex_count h1 = h_vertex_count h2 /\
           h_face_count h1 = h_face_count h2
       end)
    (decode env disable version name0
       {| z_rest := w1 ++ rest; z_pos := pos |})
    (decode env disable version name0
       {| z_rest := w2 ++ rest; z_pos := pos |}).
Proof.
  intros L1 L2 E.
  pose proof (tested_flags_agree _ _ HasNormals E ltac:(auto)) as En.
  pose proof (tested_flags_agree _ _ HasTexcoords E ltac:(auto)) as Et.
  pose proof (tested_flags_agree _ _ HasColors E ltac:(auto)) as Ec.
  pose proof (tested_flags_agree _ _ DoublePrecision E ltac:(auto)) as Ed.
  unfold decode, read_body_header, z_read_uint32, z_read.
  cbn [z_rest z_pos].
  rewrite !zlen_app, L1, L2.
  pose proof (zlen_nonneg rest) as Hrest.
  replace ((0 <=? 4) && (4 <=? 4 + zlen rest)) with true
    by (symmetry; apply andb_true_iff; split; apply Z.leb_le; lia).
  cbn [rbind].
  assert (take 4 (w1 ++ rest) = w1) as T1
    by (rewrite <- L1; apply take_app_exact).
  assert (take 4 (w2 ++ rest) = w2) as T2
    by (rewrite <- L2; apply take_app_exact).
  assert (drop 4 (w1 ++ rest) = rest) as D1
    by (rewrite <- L1; apply drop_app_exact).
  assert (drop 4 (w2 ++ rest) = rest) as D2
    by (rewrite <- L2; apply drop_app_exact).
  rewrite T1, T2, D1, D2.
  set (z1 := {| z_rest := rest; z_pos := pos + 4 |}).
  destruct (if version =? MTS_FILEFORMAT_VERSION_V4
            then read_name z1 else Ok (name0, z1)) as [[name z2]|e];
    [|cbn; reflexivity].
  cbn [rbind].
  destruct (z_read_uint64 z2) as [[vc z3]|e]; [|cbn; reflexivity].
  cbn [rbind].
  destruct (z_read_uint64 z3) as [[fc z4]|e]; [|cbn; reflexivity].
  cbn [rbind].
  assert (init_mesh env disable (le_decode w1) name vc fc
          = init_mesh env disable (le_decode w2) name vc fc) as Ei.
  { unfold init_mesh. rewrite !build_layout_spec. unfold expected_struct.
    rewrite Et, Ec. reflexivity. }
  rewrite <- Ei.
  destruct (init_mesh env disable (le_decode w1) name vc fc) as [m0|e];
    [|cbn; reflexivity].
  cbn [rbind].
  assert (read_arrays env z4 (le_decode w1) m0
          = read_arrays env z4 (le_decode w2) m0) as Ea.
  { unfold read_arrays, read_normals, read_texcoords, read_colors.
    rewrite En, Et, Ec, Ed. reflexivity. }
  rewrite <- Ea.
  destruct (read_arrays env z4 (le_decode w1) m0) as [[z5 m5]|e];
    [|cbn; reflexivity].
  cbn. repeat split; try reflexivity. exact En.
Qed.

(** X7: of the 32 bits of the flags word only four reach the loader:
    HasNormals, HasTexcoords, HasColors and DoublePrecision (mask 0x200B).
    Two bodies that differ in their flags words only outside that mask
    fail alike or give the same mesh, the same stream after the last read
    and the same events; so the face-normal bit 0x0010, the
    single-precision bit 0x1000 and the undefined bits change nothing. *)
Theorem only_the_tested_flag_bits_matter
    (env : Env) (props : Properties env) (version : Z) (name0 : string)
    (w1 w2 rest : list byte) (pos : Z) (s : io_state)
    (Hw1 : zlen w1 = 4) (Hw2 : zlen w2 = 4)
    (Hflags : Z.land (le_decode w1) tested_flags
              = Z.land (le_decode w2) tested_flags) :
  let run1 := load_body env props version name0
                {| z_rest := w1 ++ rest; z_pos := pos |} s in
  let run2 := load_body env props version name0
                {| z_rest := w2 ++ rest; z_pos := pos |} s in
  result_map observable (fst run1) = result_map observable (fst run2) /\
  snd run1 = snd run2.
Proof.
  cbv zeta. rewrite !load_body_cases.
  pose proof (decode_tested_flags env (face_normals props) version name0
                w1 w2 rest pos Hw1 Hw2 Hflags) as H.
  destruct (decode env (face_normals props) version name0
              {| z_rest := w1 ++ rest; z_pos := pos |})
    as [[[m1 h1] z1]|e1];
  destruct (decode env (face_normals props) version name0
              {| z_rest := w2 ++ rest; z_pos := pos |})
    as [[[m2 h2] z2]|e2]; cbn in H; try contradiction;
    [|subst e2; split; reflexivity].
  destruct H as (<- & <- & Hn & Hv & Hvc & Hfc).
  cbv zeta. cbn [z_pos].
  destruct (post_process env (to_world props) m1) as [m'|e];
    [|split; reflexivity].
  unfold recompute_needed. rewrite <- Hn.
  unfold io_bind, io_log, io_ret, io_lift, observable.
  destruct (negb (m_disable_vertex_normals m')
            && negb (has_flag (h_flags h1) HasNormals)),
    (recompute_vertex_normals env m'), (has_emitter props),
    (has_sensor props);
    cbn; rewrite ?Hv, ?Hvc, ?Hfc; split; reflexivity.
Qed.

(** The triangle with flags 0x1000 and with flags 0xFFFF1014: same mesh. *)
Lemma only_the_tested_flag_bits_matter_witness :
  result_map observable
    (fst (load_body env32 (props_of 0 false) 4 "n"
            {| z_rest := le_encode 4 0x1000
                         ++ skipn 4 (tri_body 0x1000 name_tri);
               z_pos := 0 |} io_start)) =
  result_map observable
    (fst (load_body env32 (props_of 0 false) 4 "n"
            {| z_rest := le_encode 4 0xFFFF1014
                         ++ skipn 4 (tri_body 0x1000 name_tri);
               z_pos := 0 |} io_start)).
Proof.
  apply (only_the_tested_flag_bits_matter env32 (props_of 0 false) 4 "n"
           (le_encode 4 0x1000) (le_encode 4 0xFFFF1014)
           (skipn 4 (tri_body 0x1000 name_tri)) 0 io_start);
    vm_compute; reflexivity.
Defined.

(** ** Stores and loads stay inside the buffers *)

Lemma for_from_progress {S : Type} (P : S -> Prop)
    (body : Z -> S -> result S) (n : nat) :
  forall (i : Z) (s : S),
    (forall j t, i <= j < i + Z.of_nat n -> P t ->
                 exists t', body j t = Ok t' /\ P t') ->
    P s -> exists s', for_from i n body s = Ok s' /\ P s'.
Proof.
  induction n as [|n IH]; intros i s Hbody Hs.
  - exists s. split; [reflexivity | exact Hs].
  - cbn [for_from].
    destruct (Hbody i s ltac:(lia) Hs) as (t & E & Ht). rewrite E.
    apply IH; [|exact Ht]. intros j u Hj. apply Hbody. lia.
Qed.

Lemma for_loop_progress {S : Type} (P : S -> Prop)
    (body : Z -> S -> result S) (n : Z) (s : S) :
  (forall j t, 0 <= j < n -> P t -> exists t', body j t = Ok t' /\ P t') ->
  P s -> exists s', for_loop n body s = Ok s' /\ P s'.
Proof.
  intros Hbody Hs. unfold for_loop.
  apply for_from_progress; [|exact Hs].
  intros j t Hj. apply Hbody. lia.
Qed.

Lemma write_at_ok (buf bs : list byte) (off : Z) :
  0 <= off -> off + zlen bs <= zlen buf ->
  exists buf', write_at buf off bs = Ok buf' /\ zlen buf' = zlen buf.
Proof.
  intros H1 H2. unfold write_at.
  destruct (0 <=? off) eqn:C1; [|apply Z.leb_gt in C1; lia].
  destruct (off + zlen bs <=? zlen buf) eqn:C2; [|apply Z.leb_gt in C2; lia].
  cbn [andb]. eexists. split; [reflexivity|].
  pose proof (zlen_nonneg bs).
  rewrite !zlen_app, zlen_take, zlen_drop by lia. lia.
Qed.

Lemma read_at_ok (buf : list byte) (off n : Z) :
  0 <= off -> 0 <= n -> off + n <= zlen buf ->
  exists bs, read_at buf off n = Ok bs /\ zlen bs = n.
Proof.
  intros H1 H2 H3. unfold read_at.
  destruct (0 <=? off) eqn:C1; [|apply Z.leb_gt in C1; lia].
  destruct (0 <=? n) eqn:C2; [|apply Z.leb_gt in C2; lia].
  destruct (off + n <=? zlen buf) eqn:C3; [|apply Z.leb_gt in C3; lia].
  cbn [andb]. eexists. split; [reflexivity|].
  apply zlen_take. rewrite zlen_drop by lia. lia.
Qed.

Lemma scatter_progress (env : Env) (w : Z)
    (conv : option (list byte -> list byte)) (values : list byte)
    (offset dim : Z) (m : Mesh env) :
  0 <= offset -> 0 <= dim -> 0 <= m_vertex_size m ->
  offset + dim * float_size env <= m_vertex_size m ->
  (conv = None -> w = float_size env) ->
  sentinel_start m <= zlen (m_vertices m) ->
  exists buf', scatter env w conv values offset dim m = Ok buf'.
Proof.
  intros Hoff Hdim Hvs Hfit Hw Hlen. unfold scatter, vertex.
  unfold sentinel_start in Hlen.
  pose proof (float_size_cases env) as Hfs.
  destruct (for_loop_progress
              (fun buf => zlen buf = zlen (m_vertices m))
              (fun i buf =>
                 let src := drop (dim * i * w) values in
                 let dst := m_vertex_size m * i + offset in
                 match conv with
                 | None => write_at buf dst (take (w * dim) src)
                 | Some f =>
                     for_loop dim
                       (fun d buf0 =>
                          write_at buf0 (dst + d * float_size env)
                            (fit (float_size env)
                               (f (take w (drop (d * w) src))))) buf
                 end)
              (m_vertex_count m) (m_vertices m)) as (buf' & E & _);
    [|reflexivity|exists buf'; exact E].
  intros i buf Hi Hbuf. cbv zeta.
  assert (m_vertex_size m * (i + 1) <= m_vertex_size m * m_vertex_count m)
    as Hrec by (apply Z.mul_le_mono_nonneg_l; lia).
  assert (0 <= m_vertex_size m * i)
    by (apply Z.mul_nonneg_nonneg; lia).
  destruct conv as [f|].
  - apply for_loop_progress
      with (P := fun b => zlen b = zlen (m_vertices m)); [|exact Hbuf].
    intros d b Hd Hb.
    assert ((d + 1) * float_size env <= dim * float_size env)
      by (apply Z.mul_le_mono_nonneg_r; lia).
    assert (0 <= d * float_size env)
      by (apply Z.mul_nonneg_nonneg; lia).
    destruct (write_at_ok b
                (fit (float_size env)
                   (f (take w (drop (d * w)
                                 (drop (dim * i * w) values)))))
                (m_vertex_size m * i + offset + d * float_size env))
      as (b' & E & L).
    + lia.
    + rewrite zlen_fit by lia. lia.
    + exists b'. split; [exact E | congruence].
  - specialize (Hw eq_refl). subst w.
    pose proof (zlen_take_le (float_size env * dim)
                  (drop (dim * i * float_size env) values)
                  ltac:(apply Z.mul_nonneg_nonneg; lia)).
    destruct (write_at_ok buf
                (take (float_size env * dim)
                   (drop (dim * i * float_size env) values))
                (m_vertex_size m * i + offset)) as (b' & E & L);
      [lia|lia|].
    exists b'. split; [exact E | congruence].
Qed.

Lemma read_helper_fails_on_io (env : Env) (z : ZStream) (dp : bool)
    (offset dim : Z) (m : Mesh env) (e : load_error) :
  0 <= offset -> 0 <= dim -> 0 <= m_vertex_size m ->
  offset + dim * float_size env <= m_vertex_size m ->
  sentinel_start m <= zlen (m_vertices m) ->
  read_helper env z dp offset dim m = Fail e -> e = IOError.
Proof.
  intros Hoff Hdim Hvs Hfit Hlen. unfold read_helper, z_read_array, z_read.
  destruct dp;
    match goal with |- context [if ?c then _ else _] => destruct c end;
    cbn [rbind]; try (intros [= <-]; reflexivity);
    match goal with |- context [scatter env ?w ?c ?v offset dim m] =>
      destruct (scatter_progress env w c v offset dim m Hoff Hdim Hvs Hfit)
        as (buf & ->); [| exact Hlen | cbn [rbind]; discriminate]
    end;
    unfold float_size; destruct (scalar_double env); intros E;
    try discriminate; reflexivity.
Qed.

Lemma in_bounds_step (env : Env) (flags : Z) (m m' : Mesh env) :
  vertex_step m m' -> in_bounds flags m -> in_bounds flags m'.
Proof.
  intros (Hs & _ & Hl & _) (Hok & Est & Hlen).
  split; [eapply layout_ok_shape; eassumption|].
  pose proof (sentinel_start_shape env m m' Hs) as Ess.
  apply shape_fields in Hs as (Es & Ed & _).
  split; [congruence | lia].
Qed.

Lemma read_name_loop_fails_on_io (rest : list byte) :
  forall (pos : Z) (acc : string) (e : load_error),
    read_name_loop rest pos acc = Fail e -> e = IOError.
Proof.
  induction rest as [|c rest IH]; intros pos acc e; cbn [read_name_loop].
  - intros [= <-]. reflexivity.
  - destruct (Byte.eqb c x00); [discriminate | apply IH].
Qed.

Lemma z_read_fails_on_io (n : Z) (z : ZStream) (e : load_error) :
  z_read n z = Fail e -> e = IOError.
Proof.
  unfold z_read. destruct ((0 <=? n) && (n <=? zlen (z_rest z)));
    [discriminate | intros [= <-]; reflexivity].
Qed.

Lemma z_read_uint64_fails_on_io (z : ZStream) (e : load_error) :
  z_read_uint64 z = Fail e -> e = IOError.
Proof.
  unfold z_read_uint64. destruct (z_read 8 z) as [[bs z']|e'] eqn:E;
    cbn [rbind]; [discriminate|].
  intros [= <-]. eapply z_read_fails_on_io; exact E.
Qed.

Lemma read_body_header_fails_on_io (version : Z) (name0 : string)
    (z : ZStream) (e : load_error) :
  read_body_header version name0 z = Fail e -> e = IOError.
Proof.
  unfold read_body_header, z_read_uint32.
  destruct (z_read 4 z) as [[bs z1]|e1] eqn:E1; cbn [rbind];
    [|intros [= <-]; eapply z_read_fails_on_io; exact E1].
  destruct (if version =? MTS_FILEFORMAT_VERSION_V4
            then read_name z1 else Ok (name0, z1)) as [[name z2]|e2] eqn:E2;
    cbn [rbind].
  - destruct (z_read_uint64 z2) as [[vc z3]|e3] eqn:E3; cbn [rbind];
      [|intros [= <-]; eapply z_read_uint64_fails_on_io; exact E3].
    destruct (z_read_uint64 z3) as [[fc z4]|e4] eqn:E4; cbn [rbind];
      [discriminate|].
    intros [= <-]; eapply z_read_uint64_fails_on_io; exact E4.
  - intros [= <-].
    destruct (version =? MTS_FILEFORMAT_VERSION_V4); [|discriminate].
    unfold read_name in E2. eapply read_name_loop_fails_on_io; exact E2.
Qed.

Lemma expected_struct_lookup (env : Env) (disable : bool) (flags : Z)
    (name : string) :
  name = "x"%string \/
  (name = "nx"%string /\ disable = false) \/
  (name = "u"%string /\ has_flag flags HasTexcoords = true) \/
  (name = "r"%string /\ has_flag flags HasColors = true) ->
  exists off,
    struct_offset (expected_struct (float_size env) disable flags) name
      = Ok off.
Proof.
  unfold expected_struct, float_size.
  intros [-> | [[-> ->] | [[-> Ht] | [-> Hc]]]];
    try rewrite Ht; try rewrite Hc;
    destruct (scalar_double env);
    repeat match goal with
           | |- context [if ?b then _ else _] => destruct b
           end; eexists; reflexivity.
Qed.

(** One optional array: it fails on a stream read only, and when it
    succeeds it has stored into the vertex buffer below the sentinel. *)
Lemma group_step (env : Env) (flags : Z) (name : string) (dim : Z)
    (z : ZStream) (dp : bool) (m : Mesh env)
    (r : result (ZStream * Mesh env)) :
  in_bounds flags m ->
  In (name, dim) [("x", 3); ("nx", 3); ("u", 2); ("r", 3)]%string ->
  (exists off, struct_offset (m_vertex_struct m) name = Ok off) ->
  r = rbind (struct_offset (m_vertex_struct m) name)
        (fun off => read_helper env z dp off dim m) ->
  match r with
  | Ok (z', m') => vertex_step m m'
  | Fail e => e = IOError
  end.
Proof.
  intros (Hok & Est & Hlen) Hin (off & Eoff) ->.
  rewrite Eoff. cbn [rbind].
  destruct Hok as (Hvc & Hvs & Hfields & _).
  pose proof (float_size_cases env) as Hfl.
  destruct (Hfields name dim off Hin Eoff) as [H0 H1].
  assert (0 <= dim)
    by (destruct Hin as [E|[E|[E|[E|[]]]]]; injection E as _ <-; lia).
  destruct (read_helper env z dp off dim m) as [[z' m']|e] eqn:E.
  - eapply read_helper_step; [| | | |exact E]; lia.
  - eapply read_helper_fails_on_io; [| | | | |exact E]; lia.
Qed.

Lemma read_arrays_fails_on_io (env : Env) (z : ZStream) (flags : Z)
    (m : Mesh env) (e : load_error) :
  in_bounds flags m ->
  0 <= m_face_count m -> 0 < index_bytes env ->
  m_face_size m = 3 * index_bytes env ->
  m_face_size m * m_face_count m <= zlen (m_faces m) ->
  read_arrays env z flags m = Fail e -> e = IOError.
Proof.
  intros Hin Hfc Hib Hfs Hfl. unfold read_arrays.
  pose proof Hin as (_ & Est & _).
  (* positions *)
  destruct (expected_struct_lookup env (m_disable_vertex_normals m) flags
              "x" ltac:(auto)) as (offx & Ex).
  rewrite <- Est in Ex.
  pose proof (group_step env flags "x" 3 z
                (has_flag flags DoublePrecision) m _ Hin
                ltac:(simpl; auto) (ex_intro _ offx Ex) eq_refl) as S1.
  rewrite Ex in S1 |- *. cbn [rbind] in S1 |- *.
  destruct (read_helper env z (has_flag flags DoublePrecision) offx 3 m)
    as [[z1 m1]|e1]; cbn [rbind]; [|intros [= <-]; exact S1].
  pose proof (in_bounds_step env flags m m1 S1 Hin) as Hin1.
  (* normals *)
  assert (match read_normals env z1 flags (has_flag flags DoublePrecision) m1
          with
          | Ok (z', m') => vertex_step m1 m'
          | Fail e => e = IOError
          end) as S2.
  { unfold read_normals.
    destruct (has_flag flags HasNormals); [|apply vertex_step_refl].
    destruct (m_disable_vertex_normals m1) eqn:D.
    - unfold advance_helper, z_read_array.
      destruct (has_flag flags DoublePrecision);
        match goal with |- context [z_read ?n ?zz] =>
          destruct (z_read n zz) as [[bs zz']|e'] eqn:Ez end;
        cbn [rbind]; try apply vertex_step_refl;
        eapply z_read_fails_on_io; exact Ez.
    - eapply (group_step env flags "nx" 3);
        [exact Hin1|simpl; auto| |reflexivity].
      destruct Hin1 as (_ & -> & _). rewrite D.
      apply expected_struct_lookup; auto. }
  destruct (read_normals env z1 flags (has_flag flags DoublePrecision) m1)
    as [[z2 m2]|e2]; cbn [rbind]; [|intros [= <-]; exact S2].
  pose proof (in_bounds_step env flags m1 m2 S2 Hin1) as Hin2.
  (* texture coordinates *)
  assert (match read_texcoords env z2 flags
                  (has_flag flags DoublePrecision) m2 with
          | Ok (z', m') => vertex_step m2 m'
          | Fail e => e = IOError
          end) as S3.
  { unfold read_texcoords.
    destruct (has_flag flags HasTexcoords) eqn:T; [|apply vertex_step_refl].
    eapply (group_step env flags "u" 2);
      [exact Hin2|simpl; auto| |reflexivity].
    destruct Hin2 as (_ & -> & _). apply expected_struct_lookup; auto. }
  destruct (read_texcoords env z2 flags (has_flag flags DoublePrecision) m2)
    as [[z3 m3]|e3]; cbn [rbind]; [|intros [= <-]; exact S3].
  pose proof (in_bounds_step env flags m2 m3 S3 Hin2) as Hin3.
  (* colors *)
  assert (match read_colors env z3 flags
                  (has_flag flags DoublePrecision) m3 with
          | Ok (z', m') => vertex_step m3 m'
          | Fail e => e = IOError
          end) as S4.
  { unfold read_colors.
    destruct (has_flag flags HasColors) eqn:C; [|apply vertex_step_refl].
    eapply (group_step env flags "r" 3);
      [exact Hin3|simpl; auto| |reflexivity].
    destruct Hin3 as (_ & -> & _). apply expected_struct_lookup; auto. }
  destruct (read_colors env z3 flags (has_flag flags DoublePrecision) m3)
    as [[z4 m4]|e4]; cbn [rbind]; [|intros [= <-]; exact S4].
  (* faces *)
  pose proof (vertex_step_trans env _ _ _
                (vertex_step_trans env _ _ _
                   (vertex_step_trans env _ _ _ S1 S2) S3) S4)
    as (Sh & Sf & _).
  apply shape_fields in Sh as (_ & _ & _ & _ & _ & _ & Efs & Efc).
  unfold read_faces.
  destruct (z_read (wrap 64 (m_face_count m4 * index_bytes env * 3)) z4)
    as [[bs z5]|e5] eqn:Ez; cbn [rbind];
    [|intros [= <-]; eapply z_read_fails_on_io; exact Ez].
  apply z_read_len in Ez. rewrite Efc in Ez. rewrite Hfs in Hfl.
  pose proof (wrap_bounds 64 (m_face_count m * index_bytes env * 3)
                ltac:(apply Z.mul_nonneg_nonneg;
                      [apply Z.mul_nonneg_nonneg|]; lia)).
  destruct (write_at_ok (m_faces m4) bs 0) as (buf & -> & _);
    [lia | rewrite Sf, Ez; lia | cbn [rbind]; discriminate].
Qed.

Lemma post_process_vertex_progress (env : Env) (tw : Transform env)
    (i : Z) (m : Mesh env) :
  layout_ok m -> sentinel_start m <= zlen (m_vertices m) ->
  0 <= i < m_vertex_count m ->
  exists m', post_process_vertex env tw i m = Ok m'.
Proof.
  intros (Hvc & Hvs & _ & Hn & Ht) Hlen Hi.
  pose proof (float_size_cases env) as Hfl.
  assert (m_vertex_size m * (i + 1) <= sentinel_start m) as Hrec
    by (unfold sentinel_start; apply Z.mul_le_mono_nonneg_l; lia).
  assert (0 <= m_vertex_size m * i)
    by (apply Z.mul_nonneg_nonneg; lia).
  unfold post_process_vertex, vertex.
  destruct (read_at_ok (m_vertices m) (m_vertex_size m * i)
              (3 * float_size env)) as (pos & -> & _); [lia|lia|lia|].
  cbn [rbind].
  destruct (write_at_ok (m_vertices m)
              (fit (3 * float_size env) (transform_point env tw pos))
              (m_vertex_size m * i)) as (b1 & -> & L1);
    [lia | rewrite zlen_fit by lia; lia |].
  cbn [rbind].
  assert (exists b2,
            (if has_vertex_normals m
             then rbind (read_at b1 (m_vertex_size m * i + m_normal_offset m)
                           (3 * float_size env))
                    (fun n => write_at b1
                                (m_vertex_size m * i + m_normal_offset m)
                                (fit (3 * float_size env)
                                   (transform_normal env tw n)))
             else Ok b1) = Ok b2 /\ zlen b2 = zlen (m_vertices m))
    as (b2 & -> & L2).
  { destruct (has_vertex_normals m); [|exists b1; auto].
    destruct (Hn eq_refl) as [Hn0 Hn1].
    destruct (read_at_ok b1 (m_vertex_size m * i + m_normal_offset m)
                (3 * float_size env)) as (n & -> & _); [lia|lia|lia|].
    cbn [rbind].
    destruct (write_at_ok b1
                (fit (3 * float_size env) (transform_normal env tw n))
                (m_vertex_size m * i + m_normal_offset m))
      as (b2 & -> & L2); [lia | rewrite zlen_fit by lia; lia |].
    exists b2. split; [reflexivity | congruence]. }
  cbn [rbind].
  assert (exists b3,
            (if has_vertex_texcoords m
             then rbind (read_at b2
                           (m_vertex_size m * i + m_texcoord_offset m)
                           (2 * float_size env))
                    (fun uv => write_at b2
                                 (m_vertex_size m * i + m_texcoord_offset m)
                                 uv)
             else Ok b2) = Ok b3) as (b3 & ->).
  { destruct (has_vertex_texcoords m); [|exists b2; auto].
    destruct (Ht eq_refl) as [Ht0 Ht1].
    destruct (read_at_ok b2 (m_vertex_size m * i + m_texcoord_offset m)
                (2 * float_size env)) as (uv & -> & Lu); [lia|lia|lia|].
    cbn [rbind].
    destruct (write_at_ok b2 uv
                (m_vertex_size m * i + m_texcoord_offset m))
      as (b3 & -> & _); [lia | lia |].
    exists b3. reflexivity. }
  cbn [rbind]. eexists. reflexivity.
Qed.

Lemma post_process_progress (env : Env) (tw : Transform env) (flags : Z)
    (m : Mesh env) :
  in_bounds flags m -> exists m', post_process env tw m = Ok m'.
Proof.
  intros Hin. unfold post_process.
  destruct (for_loop_progress
              (fun t => vertex_step m t)
              (post_process_vertex env tw)
              (m_vertex_count m) m) as (m' & E & _);
    [|apply vertex_step_refl|exists m'; exact E].
  intros j t Hj Ht.
  pose proof (in_bounds_step env flags m t Ht Hin) as (Hok & _ & Hlen).
  destruct (post_process_vertex_progress env tw j t Hok Hlen) as (t' & E).
  - destruct Ht as (Hs & _).
    apply shape_fields in Hs as (_ & _ & _ & _ & _ & Hc & _). lia.
  - exists t'. split; [exact E|].
    eapply vertex_step_trans; [exact Ht|].
    eapply post_process_vertex_step; [exact Hok| |exact E].
    destruct Ht as (Hs & _).
    apply shape_fields in Hs as (_ & _ & _ & _ & _ & Hc & _). lia.
Qed.

Lemma init_mesh_in_bounds (env : Env) (disable : bool) (flags : Z)
    (name : string) (vc fc : Z) (m : Mesh env) :
  init_mesh env disable flags name vc fc = Ok m ->
  0 <= vc -> 0 <= fc -> 0 < index_bytes env ->
  sizes_fit env disable flags vc fc ->
  in_bounds flags m /\
  m_vertex_count m = vc /\ m_face_count m = fc /\
  m_vertex_size m
    = struct_size (expected_struct (float_size env) disable flags) /\
  m_face_size m = 3 * index_bytes env /\
  zlen (m_vertices m) = (vc + 1) * m_vertex_size m /\
  zlen (m_faces m) = (fc + 1) * m_face_size m.
Proof.
  intros I Hvc Hfc Hib [Hv Hf].
  set (VS := struct_size (expected_struct (float_size env) disable flags))
    in *.
  assert (12 <= VS) as HVS.
  { subst VS. rewrite expected_struct_size.
    pose proof (float_size_cases env).
    destruct disable, (has_flag flags HasTexcoords),
      (has_flag flags HasColors); lia. }
  assert (VS <= (vc + 1) * VS) by nia.
  assert (vc + 1 <= (vc + 1) * VS) by nia.
  assert (3 * index_bytes env <= (fc + 1) * (3 * index_bytes env)) by nia.
  assert (fc + 1 <= (fc + 1) * (3 * index_bytes env)) by nia.
  pose proof (init_mesh_ok env _ _ _ _ _ _ I)
    as (Es & Ed & _ & _ & _ & _ & Efs & Efc & Ev & Ef).
  destruct (init_mesh_layout_ok env _ _ _ _ _ _ I ltac:(lia)
              ltac:(fold VS; lia)) as (Hok & Evs & Evc).
  fold VS in Evs.
  rewrite face_struct_size in Efs. rewrite wrap_small in Efs by lia.
  rewrite wrap_small in Efc by lia.
  rewrite Evs, Evc in Ev. rewrite Efs, Efc in Ef.
  rewrite wrap_small in Ev by lia. rewrite wrap_small in Ef by lia.
  assert (zlen (m_vertices m) = (vc + 1) * VS) as Lv
    by (rewrite Ev; apply zlen_alloc; lia).
  assert (zlen (m_faces m) = (fc + 1) * (3 * index_bytes env)) as Lf
    by (rewrite Ef; apply zlen_alloc; lia).
  split.
  { split; [exact Hok|]. split; [rewrite Es, Ed; reflexivity|].
    unfold sentinel_start. rewrite Evs, Evc, Lv. lia. }
  rewrite Evs, Efs. repeat split; assumption.
Qed.

(** ** Slices of buffers *)

Lemma zlen_slice {A} (l : list A) (p n : Z) :
  0 <= p -> 0 <= n -> p + n <= zlen l -> zlen (slice l p n) = n.
Proof.
  intros Hp Hn Hl. unfold slice. apply zlen_take.
  rewrite zlen_drop by lia. lia.
Qed.

Lemma nth_slice (l : list byte) (p n : Z) (i : nat) :
  0 <= p -> 0 <= n -> (i < Z.to_nat n)%nat ->
  nth i (slice l p n) x00 = nth (Z.to_nat p + i) l x00.
Proof.
  intros Hp Hn Hi. unfold slice, take, drop.
  rewrite nth_firstn.
  destruct (Nat.ltb_spec i (Z.to_nat n)); [|lia].
  apply nth_skipn.
Qed.

Lemma slice_ext (l l' : list byte) (p p' n : Z) :
  0 <= p -> 0 <= p' -> 0 <= n ->
  p + n <= zlen l -> p' + n <= zlen l' ->
  (forall i, (i < Z.to_nat n)%nat ->
             nth (Z.to_nat p + i) l x00 = nth (Z.to_nat p' + i) l' x00) ->
  slice l p n = slice l' p' n.
Proof.
  intros Hp Hp' Hn Hl Hl' H.
  pose proof (zlen_slice l p n Hp Hn Hl) as L1.
  pose proof (zlen_slice l' p' n Hp' Hn Hl') as L2.
  apply (nth_ext _ _ x00 x00).
  - unfold zlen in L1, L2. lia.
  - intros i Hi. unfold zlen in L1. 
    rewrite !nth_slice by lia. apply H. lia.
Qed.

Lemma nth_write_at (buf buf' bs : list byte) (off : Z) (k : nat) :
  write_at buf off bs = Ok buf' ->
  nth k buf' x00 =
    if (k <? Z.to_nat off)%nat then nth k buf x00
    else if (k <? Z.to_nat off + List.length bs)%nat
         then nth (k - Z.to_nat off) bs x00
         else nth k buf x00.
Proof.
  unfold write_at.
  destruct (0 <=? off) eqn:C1; [|discriminate].
  destruct (off + zlen bs <=? zlen buf) eqn:C2; [|discriminate].
  cbn [andb]. intros [= <-].
  apply Z.leb_le in C1, C2. unfold zlen in C2.
  unfold take, drop, zlen.
  assert (List.length (firstn (Z.to_nat off) buf) = Z.to_nat off) as Lf
    by (rewrite length_firstn; lia).
  destruct (Nat.ltb_spec k (Z.to_nat off)).
  - rewrite app_nth1 by lia. rewrite nth_firstn.
    destruct (Nat.ltb_spec k (Z.to_nat off)); [reflexivity | lia].
  - rewrite app_nth2 by lia. rewrite Lf.
    destruct (Nat.ltb_spec k (Z.to_nat off + List.length bs)).
    + rewrite app_nth1 by lia. reflexivity.
    + rewrite app_nth2 by lia. rewrite nth_skipn. f_equal. lia.
Qed.

(** What a store has written can be read back, whole or in part. *)
Lemma slice_write_same (buf buf' bs : list byte) (off a n : Z) :
  write_at buf off bs = Ok buf' ->
  0 <= a -> 0 <= n -> a + n <= zlen bs ->
  slice buf' (off + a) n = slice bs a n.
Proof.
  intros Hw Ha Hn Hl.
  pose proof (write_at_inv _ _ _ _ Hw) as [Lb _].
  assert (0 <= off /\ off + zlen bs <= zlen buf) as [H0 H1].
  { revert Hw. unfold write_at.
    destruct (0 <=? off) eqn:C1; [|discriminate].
    destruct (off + zlen bs <=? zlen buf) eqn:C2; [|discriminate].
    apply Z.leb_le in C1, C2. auto. }
  apply slice_ext; try lia.
  intros i Hi. rewrite (nth_write_at _ _ _ _ _ Hw).
  unfold zlen in Hl.
  destruct (Nat.ltb_spec (Z.to_nat (off + a) + i) (Z.to_nat off)); [lia|].
  destruct (Nat.ltb_spec (Z.to_nat (off + a) + i)
              (Z.to_nat off + List.length bs)); [|lia].
  f_equal. lia.
Qed.

(** A store leaves alone what lies before it or behind it. *)
Lemma slice_write_other (buf buf' bs : list byte) (off p n : Z) :
  write_at buf off bs = Ok buf' ->
  0 <= p -> 0 <= n -> p + n <= zlen buf ->
  p + n <= off \/ off + zlen bs <= p ->
  slice buf' p n = slice buf p n.
Proof.
  intros Hw Hp Hn Hl Hd.
  pose proof (write_at_inv _ _ _ _ Hw) as [Lb _].
  assert (0 <= off /\ off + zlen bs <= zlen buf) as [H0 H1].
  { revert Hw. unfold write_at.
    destruct (0 <=? off) eqn:C1; [|discriminate].
    destruct (off + zlen bs <=? zlen buf) eqn:C2; [|discriminate].
    apply Z.leb_le in C1, C2. auto. }
  apply slice_ext; try lia.
  intros i Hi. rewrite (nth_write_at _ _ _ _ _ Hw).
  unfold zlen in Hd.
  destruct (Nat.ltb_spec (Z.to_nat p + i) (Z.to_nat off));
    [reflexivity|].
  destruct (Nat.ltb_spec (Z.to_nat p + i)
              (Z.to_nat off + List.length bs)); [lia | reflexivity].
Qed.

Lemma slice_of_slice (l : list byte) (p q a n : Z) :
  0 <= p -> 0 <= a -> 0 <= n -> a + n <= q -> p + q <= zlen l ->
  slice (slice l p q) a n = slice l (p + a) n.
Proof.
  intros Hp Ha Hn Hq Hl.
  assert (zlen (slice l p q) = q) as Lq by (apply zlen_slice; lia).
  apply slice_ext; try lia.
  intros i Hi. rewrite nth_slice by lia. f_equal. lia.
Qed.

Lemma read_at_slice (buf bs : list byte) (off n : Z) :
  read_at buf off n = Ok bs ->
  bs = slice buf off n /\ 0 <= off /\ 0 <= n /\ off + n <= zlen buf.
Proof.
  unfold read_at.
  destruct (0 <=? off) eqn:C1; [|discriminate].
  destruct (0 <=? n) eqn:C2; [|discriminate].
  destruct (off + n <=? zlen buf) eqn:C3; [|discriminate].
  cbn [andb]. intros [= <-]. apply Z.leb_le in C1, C2, C3.
  repeat split; assumption.
Qed.

Lemma write_at_bounds (buf buf' bs : list byte) (off : Z) :
  write_at buf off bs = Ok buf' ->
  0 <= off /\ off + zlen bs <= zlen buf /\ zlen buf' = zlen buf.
Proof.
  intros Hw. pose proof (write_at_inv _ _ _ _ Hw) as [Lb _].
  revert Hw. unfold write_at.
  destruct (0 <=? off) eqn:C1; [|discriminate].
  destruct (off + zlen bs <=? zlen buf) eqn:C2; [|discriminate].
  apply Z.leb_le in C1, C2. auto.
Qed.

(** ** Loops with an invariant that follows the counter *)

Lemma for_from_invariant_at {St : Type} (P : Z -> St -> Prop)
    (body : Z -> St -> result St) (n : nat) :
  forall (i : Z) (s s' : St),
    (forall j t t', i <= j < i + Z.of_nat n -> P j t ->
                    body j t = Ok t' -> P (j + 1) t') ->
    P i s -> for_from i n body s = Ok s' -> P (i + Z.of_nat n) s'.
Proof.
  induction n as [|n IH]; intros i s s' Hbody Hs Hrun.
  - simpl in Hrun. injection Hrun as <-.
    replace (i + Z.of_nat 0) with i by lia. exact Hs.
  - cbn [for_from] in Hrun.
    destruct (body i s) as [t|e] eqn:E; [|discriminate].
    replace (i + Z.of_nat (S n)) with ((i + 1) + Z.of_nat n) by lia.
    apply (IH (i + 1) t s'); [| |exact Hrun].
    + intros j u u' Hj. apply Hbody. lia.
    + eapply Hbody; [|exact Hs|exact E]. lia.
Qed.

Lemma for_loop_invariant_at {St : Type} (P : Z -> St -> Prop)
    (body : Z -> St -> result St) (n : Z) (s s' : St) :
  0 <= n ->
  (forall j t t', 0 <= j < n -> P j t -> body j t = Ok t' -> P (j + 1) t') ->
  P 0 s -> for_loop n body s = Ok s' -> P n s'.
Proof.
  unfold for_loop. intros Hn Hbody Hs Hrun.
  replace n with (0 + Z.of_nat (Z.to_nat n)) at 1 by lia.
  apply (for_from_invariant_at P body (Z.to_nat n) 0 s s'); auto.
  intros j t t' Hj. apply Hbody. lia.
Qed.

(** ** What the scatter loop stores, and where *)

Lemma drop_drop {A} (a b : Z) (l : list A) :
  0 <= a -> 0 <= b -> drop a (drop b l) = drop (b + a) l.
Proof.
  intros Ha Hb. unfold drop. rewrite skipn_skipn. f_equal. lia.
Qed.

Lemma scatter_body_stores (env : Env) (w : Z)
    (conv : option (list byte -> list byte)) (values : list byte)
    (offset dim size k : Z) (buf buf' : list byte) :
  0 < w -> (conv = None -> w = float_size env) ->
  0 <= offset -> 0 <= dim -> 0 <= size -> 0 <= k ->
  (dim * k + dim) * w <= zlen values ->
  match conv with
  | None => write_at buf (size * k + offset)
              (take (w * dim) (drop (dim * k * w) values))
  | Some f =>
      for_loop dim
        (fun d b =>
           write_at b (size * k + offset + d * float_size env)
             (fit (float_size env)
                (f (take w (drop (d * w) (drop (dim * k * w) values))))))
        buf
  end = Ok buf' ->
  zlen buf' = zlen buf /\
  (forall d, 0 <= d < dim ->
     slice buf' (size * k + offset + d * float_size env) (float_size env)
     = stored env conv (slice values ((dim * k + d) * w) w)) /\
  (forall p n, 0 <= p -> 0 <= n -> p + n <= zlen buf ->
     p + n <= size * k + offset \/
     size * k + offset + dim * float_size env <= p ->
     slice buf' p n = slice buf p n).
Proof.
  intros Hw Hconv Hoff Hdim Hsize Hk Hval.
  pose proof (float_size_cases env) as Hfs.
  assert (0 <= size * k) as Hsk by (apply Z.mul_nonneg_nonneg; lia).
  assert (0 <= dim * k * w) as Hsrc
    by (repeat apply Z.mul_nonneg_nonneg; lia).
  destruct conv as [f|].
  - intros Hrun.
    cbn [stored].
    refine (for_loop_invariant_at
      (fun d b =>
         zlen b = zlen buf /\
         (forall d', 0 <= d' < d ->
            slice b (size * k + offset + d' * float_size env)
              (float_size env)
            = fit (float_size env)
                (f (slice values ((dim * k + d') * w) w))) /\
         (forall p n, 0 <= p -> 0 <= n -> p + n <= zlen buf ->
            p + n <= size * k + offset \/
            size * k + offset + dim * float_size env <= p ->
            slice b p n = slice buf p n))
      _ dim buf buf' Hdim _ _ Hrun); clear Hrun.
    + intros d b b' Hd (Lb & Hold & Hframe) Hwr.
      pose proof (write_at_bounds _ _ _ _ Hwr) as (B0 & B1 & B2).
      rewrite zlen_fit in B1 by lia.
      assert (0 <= d * float_size env)
        by (apply Z.mul_nonneg_nonneg; lia).
      assert ((d + 1) * float_size env <= dim * float_size env)
        by (apply Z.mul_le_mono_nonneg_r; lia).
      split; [congruence|]. split.
      * intros d' Hd'.
        destruct (Z.eq_dec d' d) as [->|Hne].
        -- replace (size * k + offset + d * float_size env)
             with (size * k + offset + d * float_size env + 0) at 1 by lia.
           rewrite (slice_write_same _ _ _ _ 0 (float_size env) Hwr);
             [| lia | lia | rewrite zlen_fit by lia; lia].
           unfold slice at 1. unfold drop at 1. cbn [Z.to_nat skipn].
           unfold take at 1.
           rewrite <- (zlen_fit (float_size env)
                         (f (take w (drop (d * w)
                                       (drop (dim * k * w) values)))))
             at 1 by lia.
           unfold zlen at 1. rewrite Nat2Z.id, firstn_all.
           unfold slice. rewrite drop_drop; [|nia|lia].
           do 4 f_equal. lia.
        -- assert ((d' + 1) * float_size env <= d * float_size env)
             by (apply Z.mul_le_mono_nonneg_r; lia).
           assert (0 <= d' * float_size env)
             by (apply Z.mul_nonneg_nonneg; lia).
           rewrite (slice_write_other _ _ _ _ _ _ Hwr); try lia.
           apply Hold. lia.
      * intros p n Hp Hn Hpn Hdis.
        rewrite (slice_write_other _ _ _ _ _ _ Hwr); try lia.
        -- apply Hframe; assumption.
        -- rewrite zlen_fit by lia. lia.
    + split; [reflexivity|]. split; [intros; lia | reflexivity].
  - specialize (Hconv eq_refl). subst w. intros Hwr.
    pose proof (write_at_bounds _ _ _ _ Hwr) as (B0 & B1 & B2).
    fold (slice values (dim * k * float_size env) (float_size env * dim))
      in Hwr, B1.
    assert (0 <= float_size env * dim)
      by (apply Z.mul_nonneg_nonneg; lia).
    rewrite zlen_slice in B1 by lia.
    split; [exact B2|]. split.
    + intros d Hd. cbn [stored].
      assert (0 <= d * float_size env)
        by (apply Z.mul_nonneg_nonneg; lia).
      assert ((d + 1) * float_size env <= dim * float_size env)
        by (apply Z.mul_le_mono_nonneg_r; lia).
      replace (size * k + offset + d * float_size env)
        with (size * k + offset + (d * float_size env)) by lia.
      rewrite (slice_write_same _ _ _ _ _ _ Hwr);
        [| lia | lia | rewrite zlen_slice by lia; lia].
      rewrite slice_of_slice by lia.
      f_equal. lia.
    + intros p n Hp Hn Hpn Hdis.
      apply (slice_write_other _ _ _ _ _ _ Hwr); try lia.
      rewrite zlen_slice by lia. lia.
Qed.

Lemma scatter_stores (env : Env) (w : Z)
    (conv : option (list byte -> list byte)) (values : list byte)
    (offset dim : Z) (m : Mesh env) (buf' : list byte) :
  0 < w -> (conv = None -> w = float_size env) ->
  0 <= offset -> 0 <= dim ->
  offset + dim * float_size env <= m_vertex_size m ->
  0 <= m_vertex_count m ->
  m_vertex_count m * dim * w <= zlen values ->
  sentinel_start m <= zlen (m_vertices m) ->
  scatter env w conv values offset dim m = Ok buf' ->
  zlen buf' = zlen (m_vertices m) /\
  (forall i d, 0 <= i < m_vertex_count m -> 0 <= d < dim ->
     slice buf' (vertex m i + offset + d * float_size env) (float_size env)
     = stored env conv (slice values ((dim * i + d) * w) w)) /\
  (forall p n, 0 <= p -> 0 <= n -> p + n <= zlen (m_vertices m) ->
     outside_field (m_vertex_size m) (m_vertex_count m) offset
       (dim * float_size env) p n ->
     slice buf' p n = slice (m_vertices m) p n).
Proof.
  intros Hw Hconv Hoff Hdim Hfit Hcount Hval Hlen Hrun.
  pose proof (float_size_cases env) as Hfs.
  assert (0 <= dim * float_size env)
    by (apply Z.mul_nonneg_nonneg; lia).
  assert (0 <= m_vertex_size m) as Hvs by lia.
  unfold sentinel_start in Hlen. unfold scatter in Hrun.
  unfold vertex in *. unfold outside_field.
  refine (for_loop_invariant_at
    (fun k b =>
       zlen b = zlen (m_vertices m) /\
       (forall i d, 0 <= i < k -> 0 <= d < dim ->
          slice b (m_vertex_size m * i + offset + d * float_size env)
            (float_size env)
          = stored env conv (slice values ((dim * i + d) * w) w)) /\
       (forall p n, 0 <= p -> 0 <= n -> p + n <= zlen (m_vertices m) ->
          (forall i, 0 <= i < k ->
             p + n <= m_vertex_size m * i + offset \/
             m_vertex_size m * i + offset + dim * float_size env <= p) ->
          slice b p n = slice (m_vertices m) p n))
    _ (m_vertex_count m) (m_vertices m) buf' Hcount _ _ Hrun); clear Hrun.
  - intros k b b' Hk (Lb & Hold & Hframe) Hbody. cbv zeta in Hbody.
    assert ((dim * k + dim) * w <= zlen values) as Hv.
    { assert ((k + 1) * (dim * w) <= m_vertex_count m * (dim * w))
        by (apply Z.mul_le_mono_nonneg_r;
            [apply Z.mul_nonneg_nonneg; lia | lia]).
      lia. }
    destruct (scatter_body_stores env w conv values offset dim
                (m_vertex_size m) k b b' Hw Hconv Hoff Hdim Hvs
                ltac:(lia) Hv Hbody) as (L' & Hnew & Hfr).
    assert (m_vertex_size m * (k + 1)
            <= m_vertex_size m * m_vertex_count m) as Hrec
      by (apply Z.mul_le_mono_nonneg_l; lia).
    assert (0 <= m_vertex_size m * k)
      by (apply Z.mul_nonneg_nonneg; lia).
    split; [congruence|]. split.
    + intros i d Hi Hd.
      destruct (Z.eq_dec i k) as [->|Hne]; [apply Hnew; exact Hd|].
      assert (m_vertex_size m * (i + 1) <= m_vertex_size m * k)
        by (apply Z.mul_le_mono_nonneg_l; lia).
      assert (0 <= m_vertex_size m * i)
        by (apply Z.mul_nonneg_nonneg; lia).
      assert (0 <= d * float_size env)
        by (apply Z.mul_nonneg_nonneg; lia).
      assert ((d + 1) * float_size env <= dim * float_size env)
        by (apply Z.mul_le_mono_nonneg_r; lia).
      rewrite Hfr; [apply Hold; lia | lia | lia | lia | lia].
    + intros p n Hp Hn Hpn Hdis.
      rewrite Hfr; [| lia | lia | lia | apply Hdis; lia].
      apply Hframe; try assumption.
      intros i Hi. apply Hdis. lia.
  - split; [reflexivity|]. split; [intros; lia | reflexivity].
Qed.

Lemma conversion_width (env : Env) (dp : bool) :
  conversion env dp = None -> file_width dp = float_size env.
Proof.
  unfold conversion, file_width, float_size.
  destruct dp, (scalar_double env); intros E; try discriminate; reflexivity.
Qed.

Lemma read_helper_unfold (env : Env) (z : ZStream) (dp : bool)
    (offset dim : Z) (m : Mesh env) :
  read_helper env z dp offset dim m
  = rbind (z_read_array (file_width dp) (wrap 64 (m_vertex_count m * dim)) z)
      (fun r =>
         rbind (scatter env (file_width dp) (conversion env dp) (fst r)
                  offset dim m)
           (fun buf => Ok (snd r, set_vertices m buf))).
Proof.
  unfold read_helper, file_width, conversion.
  destruct dp;
    match goal with |- context [z_read_array ?w ?c z] =>
      destruct (z_read_array w c z) as [[values z']|e]
    end; reflexivity.
Qed.

(** [read_helper] by its effect: the scalars of the array are taken from
    the stream in order and land, converted where the precisions differ,
    in their field of each record; the stream moves on by the array; and
    nothing outside that field of the records changes. *)
Lemma read_helper_stores (env : Env) (z z' : ZStream) (dp : bool)
    (offset dim : Z) (m m' : Mesh env) :
  0 <= offset -> 0 <= dim ->
  offset + dim * float_size env <= m_vertex_size m ->
  0 <= m_vertex_count m ->
  m_vertex_count m * dim * file_width dp < 2 ^ 64 ->
  sentinel_start m <= zlen (m_vertices m) ->
  read_helper env z dp offset dim m = Ok (z', m') ->
  z_rest z' = drop (m_vertex_count m * dim * file_width dp) (z_rest z) /\
  m_vertex_count m * dim * file_width dp <= zlen (z_rest z) /\
  m' = set_vertices m (m_vertices m') /\
  zlen (m_vertices m') = zlen (m_vertices m) /\
  (forall i d, 0 <= i < m_vertex_count m -> 0 <= d < dim ->
     slice (m_vertices m') (vertex m i + offset + d * float_size env)
       (float_size env)
     = stored env (conversion env dp)
         (slice (z_rest z) ((dim * i + d) * file_width dp) (file_width dp))) /\
  (forall p n, 0 <= p -> 0 <= n -> p + n <= zlen (m_vertices m) ->
     outside_field (m_vertex_size m) (m_vertex_count m) offset
       (dim * float_size env) p n ->
     slice (m_vertices m') p n = slice (m_vertices m) p n).
Proof.
  intros Hoff Hdim Hfit Hcount Hsmall Hlen.
  rewrite read_helper_unfold. unfold z_read_array, z_read.
  assert (0 < file_width dp) as Hw by (destruct dp; cbn; lia).
  assert (0 <= m_vertex_count m * dim)
    by (apply Z.mul_nonneg_nonneg; lia).
  assert (0 <= m_vertex_count m * dim * file_width dp) as Hn
    by (apply Z.mul_nonneg_nonneg; lia).
  assert (m_vertex_count m * dim < 2 ^ 64) by nia.
  rewrite (wrap_small 64 (m_vertex_count m * dim)) by lia.
  rewrite (wrap_small 64 (m_vertex_count m * dim * file_width dp)) by lia.
  destruct ((0 <=? m_vertex_count m * dim * file_width dp)
            && (m_vertex_count m * dim * file_width dp <=? zlen (z_rest z)))
    eqn:C; [|discriminate].
  apply andb_prop in C as [_ C]. apply Z.leb_le in C.
  cbn [rbind fst snd].
  destruct (scatter env (file_width dp) (conversion env dp)
              (take (m_vertex_count m * dim * file_width dp) (z_rest z))
              offset dim m) as [buf|e] eqn:E; [|discriminate].
  cbn [rbind]. intros [= <- <-]. cbn [z_rest].
  assert (m_vertex_count m * dim * file_width dp
          <= zlen (take (m_vertex_count m * dim * file_width dp) (z_rest z)))
    as Hval by (rewrite zlen_take by lia; lia).
  destruct (scatter_stores env (file_width dp) (conversion env dp) _
              offset dim m buf Hw (conversion_width env dp)
              Hoff Hdim Hfit Hcount Hval Hlen E)
    as (L & Hst & Hfr).
  split; [reflexivity|]. split; [exact C|]. split; [reflexivity|].
  cbn [m_vertices set_vertices]. split; [exact L|]. split; [|exact Hfr].
  intros i d Hi Hd. rewrite (Hst i d Hi Hd). f_equal.
  change (take (m_vertex_count m * dim * file_width dp) (z_rest z))
    with (slice (z_rest z) 0 (m_vertex_count m * dim * file_width dp)).
  assert (0 <= dim * i) by (apply Z.mul_nonneg_nonneg; lia).
  assert (0 <= (dim * i + d) * file_width dp)
    by (apply Z.mul_nonneg_nonneg; lia).
  assert ((dim * i + d + 1) * file_width dp
          <= m_vertex_count m * dim * file_width dp).
  { apply Z.mul_le_mono_nonneg_r; [lia|].
    assert (dim * (i + 1) <= dim * m_vertex_count m)
      by (apply Z.mul_le_mono_nonneg_l; lia).
    lia. }
  rewrite slice_of_slice by lia. reflexivity.
Qed.

(** ** The arrays of the body, field by field *)

Lemma field_outside_field (vs count off1 len1 off2 len2 i a n : Z) :
  0 <= vs -> 0 <= off1 -> off1 + len1 <= vs ->
  0 <= off2 -> 0 <= len2 -> off2 + len2 <= vs ->
  off1 + len1 <= off2 \/ off2 + len2 <= off1 ->
  0 <= i -> 0 <= a -> 0 <= n -> a + n <= len1 ->
  outside_field vs count off2 len2 (vs * i + off1 + a) n.
Proof.
  intros Hvs H1 H1' H2 H2l H2' Hdis Hi Ha Hn Han j Hj.
  destruct (Z.lt_trichotomy j i) as [L|[->|G]].
  - right. assert (vs * (j + 1) <= vs * i)
      by (apply Z.mul_le_mono_nonneg_l; lia). lia.
  - lia.
  - left. assert (vs * (i + 1) <= vs * j)
      by (apply Z.mul_le_mono_nonneg_l; lia). lia.
Qed.

Lemma expected_struct_offset_values (env : Env) (disable : bool)
    (flags : Z) :
  let s := expected_struct (float_size env) disable flags in
  struct_offset s "x" = Ok 0 /\
  (disable = false -> struct_offset s "nx" = Ok (3 * float_size env)) /\
  (has_flag flags HasTexcoords = true ->
   struct_offset s "u" = Ok (texcoords_field env disable)) /\
  (has_flag flags HasColors = true ->
   struct_offset s "r" = Ok (colors_field env disable flags)).
Proof.
  unfold expected_struct, texcoords_field, colors_field, float_size.
  cbv zeta. split; [|split; [|split]].
  - destruct disable, (has_flag flags HasTexcoords),
      (has_flag flags HasColors), (scalar_double env); reflexivity.
  - intros ->. destruct (has_flag flags HasTexcoords),
      (has_flag flags HasColors), (scalar_double env); reflexivity.
  - intros ->. destruct disable,
      (has_flag flags HasColors), (scalar_double env); reflexivity.
  - intros ->. destruct disable, (has_flag flags HasTexcoords),
      (scalar_double env); reflexivity.
Qed.

Lemma slice_drop (l : list byte) (s p n : Z) :
  0 <= s -> 0 <= p -> slice (drop s l) p n = slice l (s + p) n.
Proof.
  intros Hs Hp. unfold slice. rewrite drop_drop by lia. reflexivity.
Qed.

(** One array stored by [read_helper], seen from the mesh. *)
Lemma group_stores (env : Env) (flags : Z) (z z' : ZStream) (dp : bool)
    (offset dim : Z) (m m' : Mesh env) :
  in_bounds flags m ->
  0 <= offset -> 0 <= dim ->
  offset + dim * float_size env <= m_vertex_size m ->
  m_vertex_count m * dim * file_width dp < 2 ^ 64 ->
  read_helper env z dp offset dim m = Ok (z', m') ->
  in_bounds flags m' /\
  vertex_step m m' /\
  z_rest z' = drop (m_vertex_count m * dim * file_width dp) (z_rest z) /\
  m_vertex_count m * dim * file_width dp <= zlen (z_rest z) /\
  holds_array dp (z_rest z) 0 m' offset dim /\
  (forall dp0 rest start off0 dim0,
     0 <= off0 -> 0 <= dim0 ->
     off0 + dim0 * float_size env <= m_vertex_size m ->
     off0 + dim0 * float_size env <= offset \/
     offset + dim * float_size env <= off0 ->
     holds_array dp0 rest start m off0 dim0 ->
     holds_array dp0 rest start m' off0 dim0).
Proof.
  intros Hin Hoff Hdim Hfit Hsmall Hrun.
  pose proof Hin as ((Hvc & Hvs & _) & _ & Hlen).
  pose proof (float_size_cases env) as Hfs.
  assert (vertex_step m m') as Hstep
    by (eapply read_helper_step; [| | | |exact Hrun]; lia).
  destruct (read_helper_stores env z z' dp offset dim m m'
              Hoff Hdim Hfit Hvc Hsmall Hlen Hrun)
    as (Ez & Hz & Em & L & Hst & Hfr).
  split; [eapply in_bounds_step; eassumption|].
  split; [exact Hstep|]. split; [exact Ez|]. split; [exact Hz|].
  assert (m_vertex_size m' = m_vertex_size m /\
          m_vertex_count m' = m_vertex_count m) as [Evs Evc]
    by (rewrite Em; split; reflexivity).
  split.
  - intros i d Hi Hd. unfold vertex. rewrite Evs.
    rewrite Evc in Hi. apply (Hst i d Hi Hd).
  - intros dp0 rest start off0 dim0 H0 Hd0 Hf0 Hdis Hold i d Hi Hd.
    rewrite Evc in Hi. unfold vertex. rewrite Evs.
    rewrite <- (Hold i d Hi Hd). unfold vertex.
    assert (0 <= d * float_size env)
      by (apply Z.mul_nonneg_nonneg; lia).
    assert ((d + 1) * float_size env <= dim0 * float_size env)
      by (apply Z.mul_le_mono_nonneg_r; lia).
    assert (0 <= dim * float_size env)
      by (apply Z.mul_nonneg_nonneg; lia).
    assert (0 <= m_vertex_size m * i)
      by (apply Z.mul_nonneg_nonneg; lia).
    assert (m_vertex_size m * (i + 1)
            <= m_vertex_size m * m_vertex_count m)
      by (apply Z.mul_le_mono_nonneg_l; lia).
    unfold sentinel_start in Hlen.
    apply Hfr; [lia | lia | lia |].
    apply (field_outside_field (m_vertex_size m) (m_vertex_count m)
             off0 (dim0 * float_size env) offset (dim * float_size env)
             i (d * float_size env) (float_size env)); lia.
Qed.

Lemma holds_array_drop (env : Env) (dp : bool) (rest : list byte)
    (s : Z) (m : Mesh env) (offset dim : Z) :
  0 <= s -> 0 <= dim ->
  holds_array dp (drop s rest) 0 m offset dim ->
  holds_array dp rest s m offset dim.
Proof.
  intros Hs Hdim H i d Hi Hd. rewrite (H i d Hi Hd).
  assert (0 <= file_width dp) by (destruct dp; cbn; lia).
  assert (0 <= dim * i) by (apply Z.mul_nonneg_nonneg; lia).
  rewrite slice_drop; [reflexivity | lia |].
  cbn [Z.add]. apply Z.mul_nonneg_nonneg; lia.
Qed.

(** An optional array: stored by [read_helper] when present. *)
Lemma optional_group_stores (env : Env) (flags : Z) (present : bool)
    (name : string) (z z' : ZStream) (dp : bool) (offset dim : Z)
    (m m' : Mesh env) :
  in_bounds flags m ->
  (present = true ->
   struct_offset (m_vertex_struct m) name = Ok offset /\
   0 <= offset /\ offset + dim * float_size env <= m_vertex_size m) ->
  0 <= dim ->
  m_vertex_count m * dim * file_width dp < 2 ^ 64 ->
  (if present
   then rbind (struct_offset (m_vertex_struct m) name)
          (fun off => read_helper env z dp off dim m)
   else Ok (z, m)) = Ok (z', m') ->
  in_bounds flags m' /\
  vertex_step m m' /\
  z_rest z'
  = drop (if present then m_vertex_count m * dim * file_width dp else 0)
      (z_rest z) /\
  (present = true ->
   m_vertex_count m * dim * file_width dp <= zlen (z_rest z)) /\
  (present = true -> holds_array dp (z_rest z) 0 m' offset dim) /\
  (forall dp0 rest start off0 dim0,
     0 <= off0 -> 0 <= dim0 ->
     off0 + dim0 * float_size env <= m_vertex_size m ->
     (present = true ->
      off0 + dim0 * float_size env <= offset \/
      offset + dim * float_size env <= off0) ->
     holds_array dp0 rest start m off0 dim0 ->
     holds_array dp0 rest start m' off0 dim0).
Proof.
  intros Hin Hname Hdim Hsmall.
  destruct present.
  - destruct (Hname eq_refl) as (-> & Hoff & Hfit).
    cbn [rbind]. intros Hrun.
    destruct (group_stores env flags z z' dp offset dim m m'
                Hin Hoff Hdim Hfit Hsmall Hrun)
      as (H1 & H2 & H3 & H4 & H5 & H6).
    split; [exact H1|]. split; [exact H2|]. split; [exact H3|].
    split; [intros _; exact H4 |]. split; [intros _; exact H5 |].
    intros dp0 rest start off0 dim0 A1 A2 A3 A4.
    apply H6; auto.
  - intros [= <- <-].
    split; [exact Hin|]. split; [apply vertex_step_refl|].
    split; [reflexivity|]. split; [discriminate|].
    split; [discriminate|].
    intros; assumption.
Qed.

Lemma vertex_step_fields (env : Env) (m m' : Mesh env) :
  vertex_step m m' ->
  m_vertex_struct m' = m_vertex_struct m /\
  m_disable_vertex_normals m' = m_disable_vertex_normals m /\
  m_vertex_size m' = m_vertex_size m /\
  m_vertex_count m' = m_vertex_count m /\
  m_face_count m' = m_face_count m /\
  m_faces m' = m_faces m.
Proof.
  intros (Sh & Sf & _).
  apply shape_fields in Sh as (E1 & E2 & _ & _ & E5 & E6 & _ & E8).
  repeat split; assumption.
Qed.

Lemma advance_helper_rest (env : Env) (z z' : ZStream) (dp : bool)
    (dim : Z) (m : Mesh env) :
  0 <= m_vertex_count m -> 0 <= dim ->
  m_vertex_count m * dim * file_width dp < 2 ^ 64 ->
  advance_helper env z dp dim m = Ok z' ->
  z_rest z' = drop (m_vertex_count m * dim * file_width dp) (z_rest z) /\
  m_vertex_count m * dim * file_width dp <= zlen (z_rest z).
Proof.
  intros Hc Hd Hsmall.
  assert (0 <= m_vertex_count m * dim)
    by (apply Z.mul_nonneg_nonneg; lia).
  assert (m_vertex_count m * dim < 2 ^ 64) by (destruct dp; cbn in *; lia).
  unfold advance_helper, z_read_array, z_read.
  rewrite (wrap_small 64 (m_vertex_count m * dim)) by lia.
  destruct dp; cbn [file_width] in *;
    rewrite wrap_small by lia;
    match goal with |- context [if ?c then _ else _] =>
      destruct c eqn:C end;
    cbn [rbind]; try discriminate; intros [= <-];
    apply andb_prop in C as [_ C]; apply Z.leb_le in C;
    (split; [reflexivity | exact C]).
Qed.

Lemma z_read_inv (n : Z) (z z' : ZStream) (bs : list byte) :
  z_read n z = Ok (bs, z') ->
  0 <= n <= zlen (z_rest z) /\
  bs = slice (z_rest z) 0 n /\ z_rest z' = drop n (z_rest z).
Proof.
  unfold z_read.
  destruct ((0 <=? n) && (n <=? zlen (z_rest z))) eqn:C; [|discriminate].
  apply andb_prop in C as [C1 C2]. apply Z.leb_le in C1, C2.
  intros [= <- <-]. repeat split; assumption.
Qed.

(** [read_arrays] by its effect: every array of the body is in its field
    of the records, the faces are at the start of the face buffer, and
    the stream has moved past all of them. *)
Lemma read_arrays_stores (env : Env) (z z' : ZStream) (flags : Z)
    (m m' : Mesh env) :
  in_bounds flags m -> 0 < index_bytes env ->
  m_vertex_size m
  = struct_size (expected_struct (float_size env)
                   (m_disable_vertex_normals m) flags) ->
  m_vertex_count m * 24 < 2 ^ 64 ->
  0 <= m_face_count m ->
  m_face_count m * index_bytes env * 3 < 2 ^ 64 ->
  read_arrays env z flags m = Ok (z', m') ->
  let dp := has_flag flags DoublePrecision in
  let n := m_vertex_count m in
  let dis := m_disable_vertex_normals m in
  let fbytes := m_face_count m * index_bytes env * 3 in
  holds_array dp (z_rest z) 0 m' 0 3 /\
  (has_flag flags HasNormals = true -> dis = false ->
   holds_array dp (z_rest z) (normals_start flags n) m'
     (3 * float_size env) 3) /\
  (has_flag flags HasTexcoords = true ->
   holds_array dp (z_rest z) (texcoords_start flags n) m'
     (texcoords_field env dis) 2) /\
  (has_flag flags HasColors = true ->
   holds_array dp (z_rest z) (colors_start flags n) m'
     (colors_field env dis flags) 3) /\
  slice (m_faces m') 0 fbytes = slice (z_rest z) (faces_start flags n) fbytes /\
  z_rest z' = drop (faces_start flags n + fbytes) (z_rest z) /\
  faces_start flags n + fbytes <= zlen (z_rest z).
Proof.
  intros Hin Hib Evs Hn Hfc Hfsmall Hrun. cbv zeta.
  pose proof Hin as ((Hvc & _) & Est & Hlen).
  pose proof (float_size_cases env) as Hfs.
  unfold faces_start, colors_start, texcoords_start, normals_start,
    array_bytes.
  set (dp := has_flag flags DoublePrecision) in *.
  set (dis := m_disable_vertex_normals m) in *.
  rewrite expected_struct_size in Evs.
  destruct (expected_struct_offset_values env dis flags)
    as (Ox & On & Ot & Oc).
  cbv zeta in Ox, On, Ot, Oc. rewrite <- Est in Ox, On, Ot, Oc.
  unfold texcoords_field, colors_field in *.
  assert (file_width dp = 4 \/ file_width dp = 8) as Hw
    by (destruct dp; cbn; auto).
  assert (0 <= m_vertex_count m * 3 * file_width dp < 2 ^ 64) as H3
    by (destruct Hw as [E|E]; rewrite E; lia).
  assert (0 <= m_vertex_count m * 2 * file_width dp < 2 ^ 64) as H2
    by (destruct Hw as [E|E]; rewrite E; lia).
  assert (3 * float_size env <= m_vertex_size m) as Bx
    by (rewrite Evs; destruct dis, (has_flag flags HasTexcoords),
          (has_flag flags HasColors); lia).
  (* positions *)
  unfold read_arrays in Hrun. fold dp in Hrun.
  rewrite Ox in Hrun. cbn [rbind] in Hrun.
  destruct (read_helper env z dp 0 3 m) as [[z1 m1]|e1] eqn:R1;
    [|discriminate].
  cbn [rbind] in Hrun.
  destruct (group_stores env flags z z1 dp 0 3 m m1 Hin
              ltac:(lia) ltac:(lia) ltac:(lia) ltac:(lia) R1)
    as (Hin1 & S1 & Ez1 & Hl1 & Hx1 & _).
  destruct (vertex_step_fields _ _ _ S1)
    as (Es1 & Ed1 & Evs1 & Evc1 & Efc1 & Ef1).
  (* normals *)
  destruct (read_normals env z1 flags dp m1) as [[z2 m2]|e2] eqn:R2;
    [|discriminate].
  cbn [rbind] in Hrun.
  assert (in_bounds flags m2 /\ vertex_step m1 m2 /\
          z_rest z2
          = drop (if has_flag flags HasNormals
                  then m_vertex_count m * 3 * file_width dp else 0) (z_rest z1) /\
          (has_flag flags HasNormals = true ->
           m_vertex_count m * 3 * file_width dp <= zlen (z_rest z1)) /\
          (has_flag flags HasNormals = true -> dis = false ->
           holds_array dp (z_rest z1) 0 m2 (3 * float_size env) 3) /\
          holds_array dp (z_rest z) 0 m2 0 3)
    as (Hin2 & S2 & Ez2 & Hl2 & Hn2 & Hx2).
  { unfold read_normals in R2.
    destruct (has_flag flags HasNormals) eqn:N.
    - rewrite Ed1 in R2. fold dis in R2. destruct dis eqn:D.
      + apply rbind_ok_inv in R2 as (zz & Ha & R2).
        injection R2 as <- <-.
        apply advance_helper_rest in Ha; [| lia | lia | rewrite Evc1; lia].
        rewrite Evc1 in Ha. destruct Ha as [Ha Hla].
        split; [exact Hin1|]. split; [apply vertex_step_refl|].
        split; [exact Ha|]. split; [intros _; exact Hla|].
        split; [discriminate | exact Hx1].
      + assert (true = true ->
                struct_offset (m_vertex_struct m1) "nx"
                = Ok (3 * float_size env) /\
                0 <= 3 * float_size env /\
                3 * float_size env + 3 * float_size env
                <= m_vertex_size m1) as Hp.
        { intros _. split; [rewrite Es1; apply On; reflexivity|].
          split; [lia|]. rewrite Evs1, Evs.
          destruct (has_flag flags HasTexcoords),
            (has_flag flags HasColors); lia. }
        destruct (optional_group_stores env flags true "nx" z1 z2 dp
                    (3 * float_size env) 3 m1 m2 Hin1 Hp
                    ltac:(lia) ltac:(rewrite Evc1; lia) R2)
          as (G1 & G2 & G3 & Gl & G4 & G5).
        rewrite Evc1 in G3, Gl.
        split; [exact G1|]. split; [exact G2|]. split; [exact G3|].
        split; [intros _; apply Gl; reflexivity|].
        split; [intros _ _; apply G4; reflexivity|].
        apply G5; [lia | lia | rewrite Evs1; lia | intros _; lia
                  | exact Hx1].
    - injection R2 as <- <-.
      split; [exact Hin1|]. split; [apply vertex_step_refl|].
      split; [reflexivity|]. split; [discriminate|].
      split; [discriminate | exact Hx1]. }
  destruct (vertex_step_fields _ _ _ S2)
    as (Es2 & Ed2 & Evs2 & Evc2 & Efc2 & Ef2).
  (* texture coordinates *)
  destruct (read_texcoords env z2 flags dp m2) as [[z3 m3]|e3] eqn:R3;
    [|discriminate].
  cbn [rbind] in Hrun. unfold read_texcoords in R3.
  assert (has_flag flags HasTexcoords = true ->
          struct_offset (m_vertex_struct m2) "u"
          = Ok (float_size env * (if dis then 3 else 6)) /\
          0 <= float_size env * (if dis then 3 else 6) /\
          float_size env * (if dis then 3 else 6) + 2 * float_size env
          <= m_vertex_size m2) as Hpt.
  { intros T. split; [rewrite Es2, Es1; exact (Ot T)|].
    split; [destruct dis; lia|]. rewrite Evs2, Evs1, Evs, T.
    destruct dis, (has_flag flags HasColors); lia. }
  destruct (optional_group_stores env flags (has_flag flags HasTexcoords)
              "u" z2 z3 dp (float_size env * (if dis then 3 else 6)) 2
              m2 m3 Hin2 Hpt ltac:(lia)
              ltac:(rewrite Evc2, Evc1; lia) R3)
    as (Hin3 & S3 & Ez3 & Hl3 & Ht3 & Hp3).
  rewrite Evc2, Evc1 in Ez3, Hl3.
  destruct (vertex_step_fields _ _ _ S3)
    as (Es3 & Ed3 & Evs3 & Evc3 & Efc3 & Ef3).
  (* colors *)
  destruct (read_colors env z3 flags dp m3) as [[z4 m4]|e4] eqn:R4;
    [|discriminate].
  cbn [rbind] in Hrun. unfold read_colors in R4.
  assert (has_flag flags HasColors = true ->
          struct_offset (m_vertex_struct m3) "r"
          = Ok (float_size env
                * ((if dis then 3 else 6)
                   + (if has_flag flags HasTexcoords then 2 else 0))) /\
          0 <= float_size env
               * ((if dis then 3 else 6)
                  + (if has_flag flags HasTexcoords then 2 else 0)) /\
          float_size env
          * ((if dis then 3 else 6)
             + (if has_flag flags HasTexcoords then 2 else 0))
          + 3 * float_size env <= m_vertex_size m3) as Hpc.
  { intros C. split; [rewrite Es3, Es2, Es1; exact (Oc C)|].
    split; [destruct dis, (has_flag flags HasTexcoords); lia|].
    rewrite Evs3, Evs2, Evs1, Evs, C.
    destruct dis, (has_flag flags HasTexcoords); lia. }
  destruct (optional_group_stores env flags (has_flag flags HasColors)
              "r" z3 z4 dp
              (float_size env
               * ((if dis then 3 else 6)
                  + (if has_flag flags HasTexcoords then 2 else 0))) 3
              m3 m4 Hin3 Hpc ltac:(lia)
              ltac:(rewrite Evc3, Evc2, Evc1; lia) R4)
    as (Hin4 & S4 & Ez4 & Hl4 & Hc4 & Hp4).
  rewrite Evc3, Evc2, Evc1 in Ez4, Hl4.
  destruct (vertex_step_fields _ _ _ S4)
    as (Es4 & Ed4 & Evs4 & Evc4 & Efc4 & Ef4).
  (* faces *)
  unfold read_faces in Hrun.
  apply rbind_ok_inv in Hrun as ([bytes z5] & Hr & Hrun).
  apply rbind_ok_inv in Hrun as (buf & Hwr & Hrun).
  injection Hrun as <- <-.
  rewrite Efc4, Efc3, Efc2, Efc1 in Hr.
  assert (0 <= m_face_count m * index_bytes env * 3) as Hfb
    by (apply Z.mul_nonneg_nonneg; [apply Z.mul_nonneg_nonneg|]; lia).
  rewrite wrap_small in Hr by lia.
  apply z_read_inv in Hr as (Hrl & -> & Ez5).
  (* the stream positions, from the start of the arrays *)
  set (NB := if has_flag flags HasNormals
             then m_vertex_count m * 3 * file_width dp else 0) in *.
  set (TB := if has_flag flags HasTexcoords
             then m_vertex_count m * 2 * file_width dp else 0) in *.
  set (CB := if has_flag flags HasColors
             then m_vertex_count m * 3 * file_width dp else 0) in *.
  assert (0 <= NB) by (subst NB; destruct (has_flag flags HasNormals); lia).
  assert (0 <= TB)
    by (subst TB; destruct (has_flag flags HasTexcoords); lia).
  assert (0 <= CB) by (subst CB; destruct (has_flag flags HasColors); lia).
  assert (m_vertex_count m * 3 * file_width dp + NB <= zlen (z_rest z)
          /\ zlen (z_rest z2)
             = zlen (z_rest z) - (m_vertex_count m * 3 * file_width dp + NB))
    as [T2 L2].
  { rewrite Ez2, Ez1. subst NB.
    destruct (has_flag flags HasNormals).
    - specialize (Hl2 eq_refl). rewrite Ez1 in Hl2.
      rewrite zlen_drop in Hl2 by lia.
      rewrite !zlen_drop; rewrite ?zlen_drop; lia.
    - rewrite !zlen_drop; rewrite ?zlen_drop; lia. }
  assert (m_vertex_count m * 3 * file_width dp + NB + TB
          <= zlen (z_rest z)
          /\ zlen (z_rest z3)
             = zlen (z_rest z)
               - (m_vertex_count m * 3 * file_width dp + NB + TB))
    as [T3 L3].
  { rewrite Ez3. subst TB.
    destruct (has_flag flags HasTexcoords).
    - specialize (Hl3 eq_refl). rewrite zlen_drop by lia. lia.
    - rewrite zlen_drop by lia. lia. }
  assert (m_vertex_count m * 3 * file_width dp + NB + TB + CB
          <= zlen (z_rest z)
          /\ zlen (z_rest z4)
             = zlen (z_rest z)
               - (m_vertex_count m * 3 * file_width dp + NB + TB + CB))
    as [T4 L4].
  { rewrite Ez4. subst CB.
    destruct (has_flag flags HasColors).
    - specialize (Hl4 eq_refl). rewrite zlen_drop by lia. lia.
    - rewrite zlen_drop by lia. lia. }
  rewrite Ez1, drop_drop in Ez2 by lia.
  rewrite Ez2, drop_drop in Ez3 by lia.
  rewrite Ez3, drop_drop in Ez4 by lia.
  rewrite Ez4, drop_drop in Ez5 by lia.
  (* the fields *)
  split; [|split; [|split; [|split; [|split; [|split]]]]].
  - intros i d.
    apply (Hp4 dp (z_rest z) 0 0 3);
      [ lia | lia | rewrite Evs3, Evs2, Evs1; lia
      | intros C; destruct dis, (has_flag flags HasTexcoords); lia | ].
    apply Hp3;
      [ lia | lia | rewrite Evs2, Evs1; lia
      | intros T; destruct dis; lia | exact Hx2 ].
  - intros N D i d.
    assert (3 * float_size env + 3 * float_size env <= m_vertex_size m)
      by (rewrite Evs, D; destruct (has_flag flags HasTexcoords),
            (has_flag flags HasColors); lia).
    apply (Hp4 dp (z_rest z) (m_vertex_count m * 3 * file_width dp)
             (3 * float_size env) 3);
      [ lia | lia | rewrite Evs3, Evs2, Evs1; lia
      | intros C; rewrite D; destruct (has_flag flags HasTexcoords); lia
      | ].
    apply Hp3;
      [ lia | lia | rewrite Evs2, Evs1; lia
      | intros T; rewrite D; lia | ].
    apply holds_array_drop; [lia | lia |].
    rewrite <- Ez1. apply Hn2; assumption.
  - intros T i d.
    destruct (Hpt T) as (_ & B0 & B1).
    apply (Hp4 dp (z_rest z) (m_vertex_count m * 3 * file_width dp + NB)
             (float_size env * (if dis then 3 else 6)) 2);
      [ lia | lia | rewrite Evs3; lia
      | intros C; rewrite T; destruct dis; lia | ].
    apply holds_array_drop; [lia | lia |].
    rewrite <- Ez2. apply Ht3; assumption.
  - intros C i d Hi Hd.
    assert (holds_array dp (z_rest z)
              (m_vertex_count m * 3 * file_width dp + NB + TB)
              (set_faces m4 buf)
              (float_size env
               * ((if dis then 3 else 6)
                  + (if has_flag flags HasTexcoords then 2 else 0))) 3)
      as Hc; [|exact (Hc i d Hi Hd)].
    apply holds_array_drop; [lia | lia |].
    rewrite <- Ez3. intros i' d'. apply Hc4; assumption.
  - cbn [m_faces set_faces].
    change 0 with (0 + 0) at 1.
    rewrite (slice_write_same _ _ _ _ 0 _ Hwr);
      [| lia | lia | rewrite zlen_slice by lia; lia].
    rewrite slice_of_slice by lia.
    rewrite Ez4, slice_drop by lia. f_equal. lia.
  - cbn [z_rest]. exact Ez5.
  - lia.
Qed.

(** X9: what a successful decode leaves in the buffers.  With counts that
    fit the size type, every array of the body sits in its field of the
    vertex records: scalar [d] of vertex [i] of an array is the scalar
    [dim * i + d] of that array in the stream, copied when the file has
    the precision of the build and converted otherwise.  The positions
    are at offset 0, stored normals behind them, then the texture
    coordinates, then the colors; the arrays follow each other in the
    stream in that order, a normal array being skipped over when normals
    are disabled; the faces are copied to the start of the face buffer;
    and the stream ends up behind the faces. *)
Theorem decoded_arrays_sit_in_their_fields
    (env : Env) (disable : bool) (version : Z) (name0 : string)
    (z z' : ZStream) (m : Mesh env) (h : Header)
    (Hindex : 0 < index_bytes env)
    (Hdecode : decode env disable version name0 z = Ok (m, h, z'))
    (Hfit : sizes_fit env disable (h_flags h) (h_vertex_count h)
              (h_face_count h))
    (Hvc : h_vertex_count h * 24 < 2 ^ 64)
    (Hfc : h_face_count h * index_bytes env * 3 < 2 ^ 64) :
  let flags := h_flags h in
  let n := h_vertex_count h in
  let dp := has_flag flags DoublePrecision in
  let fbytes := h_face_count h * index_bytes env * 3 in
  exists name z0,
    read_body_header version name0 z
    = Ok (flags, name, n, h_face_count h, z0) /\
    m_vertex_count m = n /\
    m_face_count m = h_face_count h /\
    holds_array dp (z_rest z0) 0 m 0 3 /\
    (has_flag flags HasNormals = true -> disable = false ->
     holds_array dp (z_rest z0) (normals_start flags n) m
       (3 * float_size env) 3) /\
    (has_flag flags HasTexcoords = true ->
     holds_array dp (z_rest z0) (texcoords_start flags n) m
       (texcoords_field env disable) 2) /\
    (has_flag flags HasColors = true ->
     holds_array dp (z_rest z0) (colors_start flags n) m
       (colors_field env disable flags) 3) /\
    slice (m_faces m) 0 fbytes
    = slice (z_rest z0) (faces_start flags n) fbytes /\
    z_rest z' = drop (faces_start flags n + fbytes) (z_rest z0) /\
    faces_start flags n + fbytes <= zlen (z_rest z0).
Proof.
  cbv zeta.
  destruct (decode_ok_inv env _ _ _ _ _ _ _ Hdecode)
    as (name & z0 & m0 & Hh & Hi & Hr & _).
  exists name, z0. split; [exact Hh|].
  destruct (read_body_header_nonneg _ _ _ _ _ _ _ _ Hh) as [Hvc0 Hfc0].
  destruct (init_mesh_in_bounds env _ _ _ _ _ _ Hi Hvc0 Hfc0 Hindex Hfit)
    as (Hin & Evc & Efc & Evs & _).
  pose proof (init_mesh_ok env _ _ _ _ _ _ Hi) as (_ & Ed & _).
  pose proof (read_arrays_shape env _ _ _ _ _ Hr) as Sh.
  apply shape_fields in Sh as (_ & _ & _ & _ & _ & Evc' & _ & Efc').
  rewrite <- Ed in Evs.
  pose proof (read_arrays_stores env z0 z' (h_flags h) m0 m Hin Hindex Evs
                ltac:(rewrite Evc; exact Hvc) ltac:(rewrite Efc; exact Hfc0)
                ltac:(rewrite Efc; exact Hfc) Hr) as H.
  cbv zeta in H. rewrite Evc, Efc, Ed in H.
  split; [congruence|]. split; [congruence|]. exact H.
Qed.

(** The body of [normals_file]: the third scalar of the normal of its one
    vertex is the sixth scalar of the arrays, the single-precision 1. *)
Lemma decoded_arrays_sit_in_their_fields_witness :
  exists m h z',
    decode env32 false 4 "n"
      {| z_rest := drop 4 normals_file; z_pos := 0 |} = Ok (m, h, z') /\
    slice (m_vertices m) 20 4 = f32_1.
Proof.
  destruct (decode env32 false 4 "n"
              {| z_rest := drop 4 normals_file; z_pos := 0 |})
    as [[[m h] z']|e] eqn:E; [|vm_compute in E; discriminate].
  exists m, h, z'. split; [reflexivity|].
  pose proof E as E'. vm_compute in E'. injection E' as Em Eh Ez.
  assert (0 < index_bytes env32) as Hi by reflexivity.
  assert (sizes_fit env32 false (h_flags h) (h_vertex_count h)
            (h_face_count h)) as Hfit
    by (rewrite <- Eh; split; reflexivity).
  assert (h_vertex_count h * 24 < 2 ^ 64) as Hvc
    by (rewrite <- Eh; reflexivity).
  assert (h_face_count h * index_bytes env32 * 3 < 2 ^ 64) as Hfc
    by (rewrite <- Eh; reflexivity).
  destruct (decoded_arrays_sit_in_their_fields env32 false 4 "n" _ z' m h
              Hi E Hfit Hvc Hfc)
    as (name & z0 & Hh & Evc & _ & _ & Hn & _).
  rewrite <- Eh in Hh, Hn, Evc. vm_compute in Hh. injection Hh as <- <-.
  specialize (Hn eq_refl eq_refl 0 2).
  rewrite Evc in Hn. specialize (Hn ltac:(cbn; lia) ltac:(lia)).
  assert (vertex m 0 = 0) as Ev by (rewrite <- Em; reflexivity).
  rewrite Ev in Hn. exact Hn.
Defined.

(** ** The post-processing loop, vertex by vertex *)

Lemma slice_all (l : list byte) : slice l 0 (zlen l) = l.
Proof.
  unfold slice, take, drop, zlen. cbn [Z.to_nat skipn].
  rewrite Nat2Z.id. apply firstn_all.
Qed.

Lemma slice_write_whole (buf buf' bs : list byte) (off : Z) :
  write_at buf off bs = Ok buf' -> slice buf' off (zlen bs) = bs.
Proof.
  intros Hw. replace off with (off + 0) at 1 by lia.
  rewrite (slice_write_same _ _ _ _ 0 (zlen bs) Hw);
    [apply slice_all | lia | apply zlen_nonneg | lia].
Qed.

(** Storing back what was loaded from the same place changes nothing. *)
Lemma write_back (buf buf' bs : list byte) (off n : Z) :
  read_at buf off n = Ok bs -> write_at buf off bs = Ok buf' -> buf' = buf.
Proof.
  intros Hr Hw.
  pose proof (read_at_len _ _ _ _ Hr) as Ln.
  apply read_at_slice in Hr as (-> & H0 & Hn & Hl).
  unfold write_at in Hw.
  destruct ((0 <=? off)
            && (off + zlen (slice buf off n) <=? zlen buf));
    [|discriminate].
  injection Hw as <-. rewrite Ln.
  unfold slice, take, drop.
  replace (Z.to_nat (off + n)) with (Z.to_nat n + Z.to_nat off)%nat by lia.
  rewrite <- skipn_skipn. rewrite firstn_skipn. apply firstn_skipn.
Qed.

Lemma post_process_vertex_effect (env : Env) (tw : Transform env) (i : Z)
    (m m' : Mesh env) :
  layout_ok m -> sentinel_start m <= zlen (m_vertices m) ->
  0 <= i < m_vertex_count m ->
  (has_vertex_normals m = true -> 3 * float_size env <= m_normal_offset m) ->
  post_process_vertex env tw i m = Ok m' ->
  m_bbox m' = bbox_expand env (m_bbox m) (world_position tw m i) /\
  zlen (m_vertices m') = zlen (m_vertices m) /\
  slice (m_vertices m') (vertex m i) (3 * float_size env)
  = world_position tw m i /\
  (has_vertex_normals m = true ->
   slice (m_vertices m') (vertex m i + m_normal_offset m)
     (3 * float_size env)
   = world_normal tw m i) /\
  (forall q n, 0 <= q -> 0 <= n -> q + n <= zlen (m_vertices m) ->
     q + n <= vertex m i \/ vertex m i + 3 * float_size env <= q ->
     (has_vertex_normals m = true ->
      q + n <= vertex m i + m_normal_offset m \/
      vertex m i + m_normal_offset m + 3 * float_size env <= q) ->
     slice (m_vertices m') q n = slice (m_vertices m) q n).
Proof.
  intros (Hvc & Hvs & _ & Hn & Ht) Hlen Hi Hno H.
  pose proof (float_size_cases env) as Hfl.
  unfold sentinel_start in Hlen.
  assert (m_vertex_size m * (i + 1) <= m_vertex_size m * m_vertex_count m)
    as Hrec by (apply Z.mul_le_mono_nonneg_l; lia).
  assert (0 <= m_vertex_size m * i) as Hrec0
    by (apply Z.mul_nonneg_nonneg; lia).
  unfold world_position, world_normal.
  unfold post_process_vertex in H. unfold vertex in *.
  apply rbind_ok_inv in H as (pos & R0 & H).
  apply read_at_slice in R0 as (-> & _).
  set (p := fit (3 * float_size env)
              (transform_point env tw
                 (slice (m_vertices m) (m_vertex_size m * i)
                    (3 * float_size env)))) in *.
  assert (zlen p = 3 * float_size env) as Lp
    by (subst p; apply zlen_fit; lia).
  apply rbind_ok_inv in H as (b1 & W1 & H).
  apply rbind_ok_inv in H as (b2 & W2 & H).
  apply rbind_ok_inv in H as (b3 & W3 & H).
  injection H as <-. cbn [m_bbox m_vertices set_bbox set_vertices].
  assert (b3 = b2) as ->.
  { destruct (has_vertex_texcoords m); [|injection W3 as <-; reflexivity].
    apply rbind_ok_inv in W3 as (uv & Hu & W3).
    eapply write_back; eassumption. }
  pose proof (write_at_bounds _ _ _ _ W1) as (_ & _ & L1).
  pose proof (slice_write_whole _ _ _ _ W1) as P1. rewrite Lp in P1.
  destruct (has_vertex_normals m) eqn:N.
  - specialize (Hno eq_refl). destruct (Hn eq_refl) as [Hn0 Hn1].
    apply rbind_ok_inv in W2 as (nv & Rn & W2).
    apply read_at_slice in Rn as (-> & _).
    pose proof (write_at_bounds _ _ _ _ W2) as (_ & _ & L2).
    pose proof (slice_write_whole _ _ _ _ W2) as P2.
    rewrite zlen_fit in P2 by lia.
    split; [reflexivity|]. split; [congruence|]. split; [|split].
    + rewrite (slice_write_other _ _ _ _ _ _ W2); [exact P1| | | |];
        try lia.
    + intros _. rewrite P2. do 2 f_equal.
      apply (slice_write_other _ _ _ _ _ _ W1); try lia.
    + intros q n Hq Hn' Hqn Hd1 Hd2. specialize (Hd2 eq_refl).
      rewrite (slice_write_other _ _ _ _ _ _ W2); try lia.
      * apply (slice_write_other _ _ _ _ _ _ W1); try lia.
      * rewrite zlen_fit by lia. lia.
  - injection W2 as <-.
    split; [reflexivity|]. split; [exact L1|]. split; [exact P1|].
    split; [discriminate|].
    intros q n Hq Hn' Hqn Hd1 _.
    apply (slice_write_other _ _ _ _ _ _ W1); try lia.
Qed.

Lemma expand_by_vertices_succ (env : Env) (tw : Transform env)
    (m : Mesh env) (k : Z) (b : BBox env) :
  0 <= k ->
  expand_by_vertices tw m (Z.to_nat (k + 1)) b
  = bbox_expand env (expand_by_vertices tw m (Z.to_nat k) b)
      (world_position tw m k).
Proof.
  intros Hk. unfold expand_by_vertices.
  replace (Z.to_nat (k + 1)) with (S (Z.to_nat k)) by lia.
  rewrite seq_S, fold_left_app. cbn [fold_left Nat.add].
  rewrite Z2Nat.id by lia. reflexivity.
Qed.

(** The post-processing loop by its effect on a mesh whose normal field,
    if it has one, lies behind the position. *)
Lemma post_process_effect (env : Env) (tw : Transform env)
    (m m' : Mesh env) :
  layout_ok m -> sentinel_start m <= zlen (m_vertices m) ->
  (has_vertex_normals m = true -> 3 * float_size env <= m_normal_offset m) ->
  post_process env tw m = Ok m' ->
  shape m' = shape m /\ m_faces m' = m_faces m /\
  zlen (m_vertices m') = zlen (m_vertices m) /\
  (forall i, 0 <= i < m_vertex_count m ->
     slice (m_vertices m') (vertex m i) (3 * float_size env)
     = world_position tw m i) /\
  (has_vertex_normals m = true ->
   forall i, 0 <= i < m_vertex_count m ->
     slice (m_vertices m') (vertex m i + m_normal_offset m)
       (3 * float_size env)
     = world_normal tw m i) /\
  (forall q n, 0 <= q -> 0 <= n -> q + n <= zlen (m_vertices m) ->
     (forall i, 0 <= i < m_vertex_count m ->
        (q + n <= vertex m i \/ vertex m i + 3 * float_size env <= q) /\
        (has_vertex_normals m = true ->
         q + n <= vertex m i + m_normal_offset m \/
         vertex m i + m_normal_offset m + 3 * float_size env <= q)) ->
     slice (m_vertices m') q n = slice (m_vertices m) q n) /\
  m_bbox m'
  = expand_by_vertices tw m (Z.to_nat (m_vertex_count m)) (m_bbox m).
Proof.
  intros Hok Hlen Hno Hrun.
  pose proof Hok as (Hvc & Hvs & _ & Hn & _).
  pose proof (float_size_cases env) as Hfl.
  unfold post_process in Hrun.
  refine (for_loop_invariant_at
    (fun k mk =>
       shape mk = shape m /\ m_faces mk = m_faces m /\
       zlen (m_vertices mk) = zlen (m_vertices m) /\
       (forall i, 0 <= i < k ->
          slice (m_vertices mk) (vertex m i) (3 * float_size env)
          = world_position tw m i) /\
       (has_vertex_normals m = true ->
        forall i, 0 <= i < k ->
          slice (m_vertices mk) (vertex m i + m_normal_offset m)
            (3 * float_size env)
          = world_normal tw m i) /\
       (forall q n, 0 <= q -> 0 <= n -> q + n <= zlen (m_vertices m) ->
          (forall i, 0 <= i < k ->
             (q + n <= vertex m i \/
              vertex m i + 3 * float_size env <= q) /\
             (has_vertex_normals m = true ->
              q + n <= vertex m i + m_normal_offset m \/
              vertex m i + m_normal_offset m + 3 * float_size env <= q)) ->
          slice (m_vertices mk) q n = slice (m_vertices m) q n) /\
       m_bbox mk = expand_by_vertices tw m (Z.to_nat k) (m_bbox m))
    _ (m_vertex_count m) m m' Hvc _ _ Hrun); clear Hrun.
  - intros k mk mk' Hk (Sh & Sf & L & Hpos & Hnor & Hfr & Hbb) Hstep.
    pose proof (layout_ok_shape env _ _ Sh Hok) as Hok_k.
    pose proof (sentinel_start_shape env _ _ Sh) as Ess.
    pose proof (shape_fields env _ _ Sh)
      as (_ & _ & Eno & _ & Evs & Evc & _).
    assert (has_vertex_normals mk = has_vertex_normals m) as Ehn
      by (unfold has_vertex_normals; rewrite Eno; reflexivity).
    destruct (post_process_vertex_effect env tw k mk mk' Hok_k
                ltac:(lia) ltac:(lia)
                ltac:(rewrite Ehn, Eno; exact Hno) Hstep)
      as (Bb & L' & Pk & Nk & Fk).
    rewrite Ehn in Nk, Fk. unfold vertex in *.
    rewrite Evs in Pk, Nk, Fk. rewrite Eno in Nk, Fk.
    unfold sentinel_start in Hlen.
    assert (m_vertex_size m * (k + 1)
            <= m_vertex_size m * m_vertex_count m) as Hrec
      by (apply Z.mul_le_mono_nonneg_l; lia).
    assert (0 <= m_vertex_size m * k) as Hrec0
      by (apply Z.mul_nonneg_nonneg; lia).
    assert (forall i, 0 <= i < k ->
              0 <= m_vertex_size m * i /\
              m_vertex_size m * (i + 1) <= m_vertex_size m * k) as Hbelow.
    { intros i Hi. split; [apply Z.mul_nonneg_nonneg; lia|].
      apply Z.mul_le_mono_nonneg_l; lia. }
    (* record [k] is still as it was in [m] *)
    assert (world_position tw mk k = world_position tw m k) as Ewp.
    { unfold world_position, vertex. rewrite Evs. do 2 f_equal.
      apply Hfr; [lia | lia | lia |].
      intros i Hi. destruct (Hbelow i Hi). split; [lia|].
      intros N. destruct (Hn N). lia. }
    assert (has_vertex_normals m = true ->
            world_normal tw mk k = world_normal tw m k) as Ewn.
    { intros N. destruct (Hn N). specialize (Hno N).
      unfold world_normal, vertex. rewrite Evs, Eno. do 2 f_equal.
      apply Hfr; [lia | lia | lia |].
      intros i Hi. destruct (Hbelow i Hi). split; lia. }
    rewrite Ewp in Pk, Bb.
    split; [rewrite <- Sh; eapply post_process_vertex_shape; exact Hstep|].
    split.
    { rewrite <- Sf. unfold post_process_vertex in Hstep.
      apply rbind_ok_inv in Hstep as (pos & _ & Hstep).
      apply rbind_ok_inv in Hstep as (b1 & _ & Hstep).
      apply rbind_ok_inv in Hstep as (b2 & _ & Hstep).
      apply rbind_ok_inv in Hstep as (b3 & _ & Hstep).
      injection Hstep as <-. reflexivity. }
    split; [congruence|]. split; [|split; [|split]].
    + intros i Hi. destruct (Z.eq_dec i k) as [->|Hne]; [exact Pk|].
      destruct (Hbelow i ltac:(lia)).
      rewrite Fk; [apply Hpos; lia | lia | lia | lia | lia |].
      intros N. destruct (Hn N). specialize (Hno N). lia.
    + intros N i Hi. destruct (Hn N). specialize (Hno N).
      destruct (Z.eq_dec i k) as [->|Hne].
      * rewrite <- (Ewn N). apply Nk; exact N.
      * destruct (Hbelow i ltac:(lia)).
        rewrite Fk; [apply Hnor; [exact N | lia] | lia | lia | lia | lia |].
        intros _. lia.
    + intros q n Hq Hn' Hqn Hdis.
      destruct (Hdis k ltac:(lia)) as [D1 D2].
      rewrite Fk; [| lia | lia | lia | exact D1 | exact D2].
      apply Hfr; [lia | lia | lia |].
      intros i Hi. apply Hdis. lia.
    + rewrite Bb, Hbb. symmetry. apply expand_by_vertices_succ. lia.
  - split; [reflexivity|]. split; [reflexivity|]. split; [reflexivity|].
    split; [intros; lia|]. split; [intros; lia|].
    split; reflexivity.
Qed.

(** ** The recomputation of the normals *)

(** It leaves alone whatever lies outside the normal fields of the
    records. *)
Lemma recompute_frame (env : Env) (m m' : Mesh env) :
  recompute_vertex_normals env m = Ok m' ->
  zlen (m_vertices m') = zlen (m_vertices m) /\
  (forall q n, 0 <= q -> 0 <= n -> q + n <= zlen (m_vertices m) ->
     outside_field (m_vertex_size m) (m_vertex_count m)
       (m_normal_offset m) (3 * float_size env) q n ->
     slice (m_vertices m') q n = slice (m_vertices m) q n).
Proof.
  unfold recompute_vertex_normals. intros H.
  apply rbind_ok_inv in H as (acc & _ & H).
  pose proof (float_size_cases env) as Hfl.
  assert (shape m' = shape m /\
          zlen (m_vertices m') = zlen (m_vertices m) /\
          (forall q n, 0 <= q -> 0 <= n -> q + n <= zlen (m_vertices m) ->
             outside_field (m_vertex_size m) (m_vertex_count m)
               (m_normal_offset m) (3 * float_size env) q n ->
             slice (m_vertices m') q n = slice (m_vertices m) q n))
    as (_ & L & F); [|split; assumption].
  revert H.
  apply for_loop_invariant
    with (P := fun t =>
                 shape t = shape m /\
                 zlen (m_vertices t) = zlen (m_vertices m) /\
                 (forall q n, 0 <= q -> 0 <= n ->
                    q + n <= zlen (m_vertices m) ->
                    outside_field (m_vertex_size m) (m_vertex_count m)
                      (m_normal_offset m) (3 * float_size env) q n ->
                    slice (m_vertices t) q n = slice (m_vertices m) q n)).
  - intros j t t' Hj (Sh & L & F) Hb.
    pose proof (store_normal_keeps env _ _ _ _ Hb) as (Sh' & _).
    pose proof (shape_fields env _ _ Sh)
      as (_ & _ & Eno & _ & Evs & _).
    unfold store_normal, vertex in Hb.
    apply rbind_ok_inv in Hb as (buf & W & Hb). injection Hb as <-.
    cbn [m_vertices set_vertices].
    pose proof (write_at_bounds _ _ _ _ W) as (_ & _ & L').
    split; [congruence|]. split; [congruence|].
    intros q n Hq Hn Hqn Hout.
    rewrite (slice_write_other _ _ _ _ _ _ W); [apply F; assumption| | | |];
      try lia.
    rewrite zlen_fit by lia. rewrite Evs, Eno. apply Hout. exact Hj.
  - split; [reflexivity|]. split; reflexivity.
Qed.

Lemma finish_normals_frame (env : Env) (m m' : Mesh env) (flags : Z) :
  finish_normals env m flags = Ok m' ->
  zlen (m_vertices m') = zlen (m_vertices m) /\
  (forall q n, 0 <= q -> 0 <= n -> q + n <= zlen (m_vertices m) ->
     outside_field (m_vertex_size m) (m_vertex_count m)
       (m_normal_offset m) (3 * float_size env) q n ->
     slice (m_vertices m') q n = slice (m_vertices m) q n).
Proof.
  unfold finish_normals. destruct (recompute_needed m flags).
  - apply recompute_frame.
  - intros [= <-]. split; reflexivity.
Qed.

Lemma zlen_accumulate (env : Env) (acc acc' : list (list byte)) (i : Z)
    (n : list byte) :
  accumulate env acc i n = Ok acc' -> i < zlen acc /\ zlen acc' = zlen acc.
Proof.
  unfold accumulate.
  destruct ((0 <=? i) && (i <? zlen acc)) eqn:C; [|discriminate].
  apply andb_prop in C as [C1 C2].
  apply Z.leb_le in C1. apply Z.ltb_lt in C2.
  intros [= <-]. split; [exact C2|].
  rewrite zlen_app. unfold zlen in *. cbn [List.length].
  unfold take, drop. rewrite length_firstn, length_skipn. lia.
Qed.

Lemma accumulate_ok (env : Env) (acc : list (list byte)) (i : Z)
    (n : list byte) :
  0 <= i < zlen acc ->
  exists acc', accumulate env acc i n = Ok acc' /\ zlen acc' = zlen acc.
Proof.
  intros Hi. destruct (accumulate env acc i n) as [acc'|e] eqn:E.
  - exists acc'. split; [reflexivity|].
    eapply zlen_accumulate; exact E.
  - exfalso. revert E. unfold accumulate.
    replace ((0 <=? i) && (i <? zlen acc)) with true; [discriminate|].
    symmetry. apply andb_true_intro.
    split; [apply Z.leb_le | apply Z.ltb_lt]; lia.
Qed.

Lemma face_index_inv (env : Env) (m : Mesh env) (f j i : Z) :
  face_index env m f j = Ok i ->
  i = le_decode (slice (m_faces m)
                   (m_face_size m * f + j * index_bytes env)
                   (index_bytes env)).
Proof.
  unfold face_index. intros H.
  apply rbind_ok_inv in H as (bs & R & H). injection H as <-.
  apply read_at_slice in R as (-> & _). reflexivity.
Qed.

(** One face is accumulated exactly when its three indices are below the
    number of accumulators. *)
Lemma accumulate_face_inv (env : Env) (m : Mesh env) (f : Z)
    (acc acc' : list (list byte)) :
  accumulate_face env m f acc = Ok acc' ->
  zlen acc' = zlen acc /\
  forall j, 0 <= j < 3 ->
    le_decode (slice (m_faces m)
                 (m_face_size m * f + j * index_bytes env)
                 (index_bytes env))
    < zlen acc.
Proof.
  unfold accumulate_face. intros H.
  apply rbind_ok_inv in H as (i0 & I0 & H).
  apply rbind_ok_inv in H as (i1 & I1 & H).
  apply rbind_ok_inv in H as (i2 & I2 & H).
  apply rbind_ok_inv in H as (p0 & _ & H).
  apply rbind_ok_inv in H as (p1 & _ & H).
  apply rbind_ok_inv in H as (p2 & _ & H).
  apply rbind_ok_inv in H as (a0 & A0 & H).
  apply rbind_ok_inv in H as (a1 & A1 & H).
  apply zlen_accumulate in A0 as [B0 L0].
  apply zlen_accumulate in A1 as [B1 L1].
  apply zlen_accumulate in H as [B2 L2].
  apply face_index_inv in I0, I1, I2.
  split; [congruence|].
  intros j Hj.
  assert (j = 0 \/ j = 1 \/ j = 2) as [-> | [-> | ->]] by lia.
  - rewrite <- I0. exact B0.
  - rewrite <- I1. lia.
  - rewrite <- I2. lia.
Qed.

Lemma accumulate_face_ok (env : Env) (flags : Z) (m : Mesh env) (f : Z)
    (acc : list (list byte)) :
  in_bounds flags m -> 0 < index_bytes env ->
  m_face_size m = 3 * index_bytes env ->
  m_face_size m * m_face_count m <= zlen (m_faces m) ->
  0 <= f < m_face_count m ->
  zlen acc = m_vertex_count m ->
  (forall j, 0 <= j < 3 ->
     le_decode (slice (m_faces m)
                  (m_face_size m * f + j * index_bytes env)
                  (index_bytes env))
     < m_vertex_count m) ->
  exists acc', accumulate_face env m f acc = Ok acc' /\
               zlen acc' = m_vertex_count m.
Proof.
  intros ((Hvc & Hvs & _) & _ & Hlen) Hib Efs Hfl Hf Hacc Hvalid.
  pose proof (float_size_cases env) as Hfloat.
  unfold sentinel_start in Hlen.
  assert (0 <= m_face_size m * f) as F0 by nia.
  assert (m_face_size m * (f + 1) <= m_face_size m * m_face_count m)
    as F1 by (apply Z.mul_le_mono_nonneg_l; lia).
  assert (forall j, 0 <= j < 3 ->
            exists i, face_index env m f j = Ok i /\
                      0 <= i < m_vertex_count m) as Hidx.
  { intros j Hj. unfold face_index.
    destruct (read_at_ok (m_faces m)
                (m_face_size m * f + j * index_bytes env)
                (index_bytes env)) as (bs & R & _); [nia | lia | nia |].
    rewrite R. cbn [rbind]. eexists. split; [reflexivity|].
    apply read_at_slice in R as (-> & _).
    split; [apply le_decode_range | apply Hvalid; exact Hj]. }
  assert (forall i, 0 <= i < m_vertex_count m ->
            exists p, vertex_position env m i = Ok p) as Hpos.
  { intros i Hi. unfold vertex_position, vertex.
    assert (0 <= m_vertex_size m * i) by nia.
    assert (m_vertex_size m * (i + 1)
            <= m_vertex_size m * m_vertex_count m)
      by (apply Z.mul_le_mono_nonneg_l; lia).
    destruct (read_at_ok (m_vertices m) (m_vertex_size m * i)
                (3 * float_size env)) as (p & R & _); [lia | lia | lia |].
    exists p. exact R. }
  unfold accumulate_face.
  destruct (Hidx 0 ltac:(lia)) as (i0 & -> & B0).
  destruct (Hidx 1 ltac:(lia)) as (i1 & -> & B1).
  destruct (Hidx 2 ltac:(lia)) as (i2 & -> & B2).
  cbn [rbind].
  destruct (Hpos i0 B0) as (p0 & ->).
  destruct (Hpos i1 B1) as (p1 & ->).
  destruct (Hpos i2 B2) as (p2 & ->).
  cbn [rbind].
  destruct (accumulate_ok env acc i0 (face_normal env p0 p1 p2 0)
              ltac:(lia)) as (a0 & -> & L0).
  cbn [rbind].
  destruct (accumulate_ok env a0 i1 (face_normal env p0 p1 p2 1)
              ltac:(lia)) as (a1 & -> & L1).
  cbn [rbind].
  destruct (accumulate_ok env a1 i2 (face_normal env p0 p1 p2 2)
              ltac:(lia)) as (a2 & -> & L2).
  exists a2. split; [reflexivity | lia].
Qed.

(** The recomputation goes through exactly when every index of the face
    buffer is below the vertex count. *)
Lemma for_from_fails {St : Type} (body : Z -> St -> result St)
    (e0 : load_error) (n : nat) :
  (forall j t e, body j t = Fail e -> e = e0) ->
  forall (i : Z) (s : St) (e : load_error),
    for_from i n body s = Fail e -> e = e0.
Proof.
  intros Hbody. induction n as [|n IH]; intros i s e; cbn [for_from].
  - discriminate.
  - destruct (body i s) as [t|e1] eqn:E.
    + apply IH.
    + intros [= <-]. eapply Hbody; exact E.
Qed.

Lemma read_at_fails (buf : list byte) (off n : Z) (e : load_error) :
  read_at buf off n = Fail e -> e = MemoryFault.
Proof.
  unfold read_at.
  destruct ((0 <=? off) && (0 <=? n) && (off + n <=? zlen buf));
    [discriminate | intros [= <-]; reflexivity].
Qed.

Lemma write_at_fails (buf bs : list byte) (off : Z) (e : load_error) :
  write_at buf off bs = Fail e -> e = MemoryFault.
Proof.
  unfold write_at.
  destruct ((0 <=? off) && (off + zlen bs <=? zlen buf));
    [discriminate | intros [= <-]; reflexivity].
Qed.

Lemma accumulate_fails (env : Env) (acc : list (list byte)) (i : Z)
    (n : list byte) (e : load_error) :
  accumulate env acc i n = Fail e -> e = MemoryFault.
Proof.
  unfold accumulate.
  destruct ((0 <=? i) && (i <? zlen acc));
    [discriminate | intros [= <-]; reflexivity].
Qed.

Lemma face_index_fails (env : Env) (m : Mesh env) (f j : Z)
    (e : load_error) :
  face_index env m f j = Fail e -> e = MemoryFault.
Proof.
  unfold face_index.
  destruct (read_at _ _ _) as [bs|e1] eqn:E; cbn [rbind];
    [discriminate | intros [= <-]; eapply read_at_fails; exact E].
Qed.

Lemma accumulate_face_fails (env : Env) (m : Mesh env) (f : Z)
    (acc : list (list byte)) (e : load_error) :
  accumulate_face env m f acc = Fail e -> e = MemoryFault.
Proof.
  unfold accumulate_face, vertex_position.
  repeat
    match goal with
    | |- rbind ?c _ = Fail _ -> _ =>
        let E := fresh "E" in
        destruct c eqn:E; cbn [rbind];
        [| intros [= <-];
           first [ eapply face_index_fails; exact E
                 | eapply read_at_fails; exact E
                 | eapply accumulate_fails; exact E ] ]
    end.
  apply accumulate_fails.
Qed.

(** The recomputation fails on a memory fault only. *)
Lemma recompute_fails_on_fault (env : Env) (m : Mesh env) (e : load_error) :
  recompute_vertex_normals env m = Fail e -> e = MemoryFault.
Proof.
  unfold recompute_vertex_normals, for_loop.
  destruct (for_from 0 _ (accumulate_face env m) _) as [acc|e1] eqn:A;
    cbn [rbind].
  - apply for_from_fails. intros j t e2. unfold store_normal.
    destruct (write_at _ _ _) as [buf|e3] eqn:W; cbn [rbind];
      [discriminate | intros [= <-]; eapply write_at_fails; exact W].
  - intros [= <-]. revert A. apply for_from_fails.
    intros j t e2. apply accumulate_face_fails.
Qed.

Lemma recompute_succeeds_iff (env : Env) (flags : Z) (m : Mesh env) :
  in_bounds flags m -> 0 < index_bytes env ->
  m_face_size m = 3 * index_bytes env ->
  m_face_size m * m_face_count m <= zlen (m_faces m) ->
  (exists m', recompute_vertex_normals env m = Ok m') <-> faces_valid m.
Proof.
  intros Hin Hib Efs Hfl.
  pose proof Hin as (Hok & _ & Hlen).
  pose proof Hok as (Hvc & _).
  assert (zlen (repeat (normal_zero env) (Z.to_nat (m_vertex_count m)))
          = m_vertex_count m) as L0
    by (unfold zlen; rewrite repeat_length; lia).
  unfold recompute_vertex_normals. split.
  - intros (m' & H). apply rbind_ok_inv in H as (acc & A & _).
    destruct (Z.le_gt_cases 0 (m_face_count m)) as [Hfc|Hfc];
      [|intros f j Hf; lia].
    revert A.
    refine (fun A =>
      proj2 (for_loop_invariant_at
        (fun k a =>
           zlen a = m_vertex_count m /\
           forall f j, 0 <= f < k -> 0 <= j < 3 ->
             le_decode (slice (m_faces m)
                          (m_face_size m * f + j * index_bytes env)
                          (index_bytes env))
             < m_vertex_count m)
        _ (m_face_count m) _ acc Hfc _ _ A)).
    + intros k a a' Hk (La & Hold) Hb.
      apply accumulate_face_inv in Hb as (La' & Hnew).
      split; [congruence|]. intros f j Hf Hj.
      destruct (Z.eq_dec f k) as [->|Hne].
      * rewrite <- La. apply Hnew. exact Hj.
      * apply Hold; lia.
    + split; [exact L0|]. intros; lia.
  - intros Hvalid.
    destruct (for_loop_progress
                (fun a => zlen a = m_vertex_count m)
                (accumulate_face env m) (m_face_count m)
                (repeat (normal_zero env) (Z.to_nat (m_vertex_count m))))
      as (acc & -> & _); [|exact L0|].
    { intros f a Hf La.
      apply (accumulate_face_ok env flags m f a Hin Hib Efs Hfl Hf La).
      intros j Hj. apply Hvalid; assumption. }
    cbn [rbind].
    destruct (for_loop_progress
                (fun t => vertex_step m t)
                (store_normal env acc) (m_vertex_count m) m)
      as (m' & E & _); [|apply vertex_step_refl|exists m'; exact E].
    intros i t Hi Ht.
    pose proof (in_bounds_step env flags m t Ht Hin)
      as (Hokt & _ & Hlent).
    pose proof Hokt as (_ & Hvs & _ & Hn & _).
    pose proof (float_size_cases env) as Hfloat.
    destruct Ht as (Hs & Ht).
    pose proof (shape_fields env _ _ Hs) as (_ & _ & _ & _ & _ & Hc & _).
    unfold store_normal, vertex. unfold sentinel_start in Hlent.
    assert (0 <= m_vertex_size t * i) by nia.
    assert (m_vertex_size t * (i + 1)
            <= m_vertex_size t * m_vertex_count t)
      by (apply Z.mul_le_mono_nonneg_l; lia).
    assert (0 <= m_normal_offset t /\
            m_normal_offset t + 3 * float_size env <= m_vertex_size t)
      as [N0 N1].
    { unfold has_vertex_normals in Hn.
      destruct (Z.eqb_spec (m_normal_offset t) 0) as [E|E];
        [rewrite E; lia | apply Hn; reflexivity]. }
    destruct (write_at_ok (m_vertices t)
                (fit (3 * float_size env)
                   (normal_finish env (nth (Z.to_nat i) acc [])))
                (m_vertex_size t * i + m_normal_offset t))
      as (buf & W & _); [lia | rewrite zlen_fit by lia; lia |].
    rewrite W. cbn [rbind]. eexists. split; [reflexivity|].
    eapply vertex_step_trans; [exact (conj Hs Ht)|].
    eapply (store_normal_step env acc i t); [exact Hokt | lia |].
    unfold store_normal, vertex. rewrite W. reflexivity.
Qed.

(** ** The constructor, stage by stage *)

Lemma read_helper_bbox (env : Env) (z z' : ZStream) (dp : bool)
    (offset dim : Z) (m m' : Mesh env) :
  read_helper env z dp offset dim m = Ok (z', m') -> m_bbox m' = m_bbox m.
Proof.
  unfold read_helper. destruct dp; intros H;
    apply rbind_ok_inv in H as ([values z1] & _ & H);
    apply rbind_ok_inv in H as (buf & _ & H);
    injection H as _ <-; reflexivity.
Qed.

Lemma read_arrays_bbox (env : Env) (z z' : ZStream) (flags : Z)
    (m m' : Mesh env) :
  read_arrays env z flags m = Ok (z', m') -> m_bbox m' = m_bbox m.
Proof.
  unfold read_arrays. intros H.
  apply rbind_ok_inv in H as (off & _ & H).
  apply rbind_ok_inv in H as ([z1 m1] & H1 & H).
  apply rbind_ok_inv in H as ([z2 m2] & H2 & H).
  apply rbind_ok_inv in H as ([z3 m3] & H3 & H).
  apply rbind_ok_inv in H as ([z4 m4] & H4 & H).
  apply read_helper_bbox in H1.
  assert (m_bbox m2 = m_bbox m1) as E2.
  { revert H2. unfold read_normals.
    destruct (has_flag flags HasNormals); [|intros [= _ <-]; reflexivity].
    destruct (m_disable_vertex_normals m1); intros H2.
    - apply rbind_ok_inv in H2 as (zz & _ & H2).
      injection H2 as _ <-. reflexivity.
    - apply rbind_ok_inv in H2 as (o & _ & H2).
      eapply read_helper_bbox; exact H2. }
  assert (m_bbox m3 = m_bbox m2) as E3.
  { revert H3. unfold read_texcoords.
    destruct (has_flag flags HasTexcoords); [|intros [= _ <-]; reflexivity].
    intros H3. apply rbind_ok_inv in H3 as (o & _ & H3).
    eapply read_helper_bbox; exact H3. }
  assert (m_bbox m4 = m_bbox m3) as E4.
  { revert H4. unfold read_colors.
    destruct (has_flag flags HasColors); [|intros [= _ <-]; reflexivity].
    intros H4. apply rbind_ok_inv in H4 as (o & _ & H4).
    eapply read_helper_bbox; exact H4. }
  assert (m_bbox m' = m_bbox m4) as E5.
  { revert H. unfold read_faces. intros H.
    apply rbind_ok_inv in H as ([bs zz] & _ & H).
    apply rbind_ok_inv in H as (buf & _ & H).
    injection H as _ <-. reflexivity. }
  congruence.
Qed.

(** A successful load, taken apart: the decoded mesh [m1] is within its
    bounds, has its normals (if any) behind the position and an empty
    bounding box; [m2] is [m1] post-processed, and the loaded mesh is
    [m2] with its normals recomputed where the guard asks for it. *)
Lemma load_body_stages (env : Env) (props : Properties env) (version : Z)
    (name0 : string) (z : ZStream) (s : io_state) (ld : Loaded env) :
  0 < index_bytes env ->
  fst (load_body env props version name0 z s) = Ok ld ->
  sizes_fit env (face_normals props) (h_flags (ld_header ld))
    (h_vertex_count (ld_header ld)) (h_face_count (ld_header ld)) ->
  exists m1 m2,
    decode env (face_normals props) version name0 z
    = Ok (m1, ld_header ld, ld_stream ld) /\
    post_process env (to_world props) m1 = Ok m2 /\
    finish_normals env m2 (h_flags (ld_header ld)) = Ok (ld_mesh ld) /\
    in_bounds (h_flags (ld_header ld)) m1 /\
    m_vertex_count m1 = h_vertex_count (ld_header ld) /\
    m_vertex_size m1
    = struct_size (expected_struct (float_size env) (face_normals props)
                     (h_flags (ld_header ld))) /\
    m_normal_offset m1
    = (if face_normals props then 0 else 3 * float_size env) /\
    m_bbox m1 = bbox_empty env.
Proof.
  intros Hindex Hload Hfit. rewrite load_body_result in Hload.
  apply rbind_ok_inv in Hload as ([[m1 h] z1] & D & Hload).
  cbn [fst snd] in Hload.
  apply rbind_ok_inv in Hload as (m2 & P & Hload).
  apply rbind_ok_inv in Hload as (m3 & F & Hload).
  injection Hload as <-.
  cbn [ld_mesh ld_header ld_stream] in *.
  exists m1, m2. split; [exact D|]. split; [exact P|]. split; [exact F|].
  destruct (decode_ok_inv env _ _ _ _ _ _ _ D)
    as (name & z0 & m0 & Hh & Hi & Hr & _).
  destruct (read_body_header_nonneg _ _ _ _ _ _ _ _ Hh) as [Hvc0 Hfc0].
  destruct (init_mesh_in_bounds env _ _ _ _ _ _ Hi Hvc0 Hfc0 Hindex Hfit)
    as (Hin & Evc & Efc & Evs & Efs & _).
  pose proof (init_mesh_ok env _ _ _ _ _ _ Hi)
    as (_ & Ed & _ & Eno & _).
  assert (m_bbox m0 = bbox_empty env) as Eb.
  { revert Hi. unfold init_mesh. rewrite build_layout_spec.
    cbn [rbind]. intros [= <-]. reflexivity. }
  destruct (read_arrays_keeps env _ _ _ _ _ (proj1 Hin) ltac:(lia)
              Hindex Efs Hr) as (Sh & [Lk _] & _).
  pose proof (read_arrays_bbox env _ _ _ _ _ Hr) as Eb'.
  pose proof (sentinel_start_shape env _ _ Sh) as Ess.
  pose proof (shape_fields env _ _ Sh)
    as (Es' & Ed' & Eno' & _ & Evs' & Evc' & _).
  destruct Hin as (Hok & Est & Hlen).
  split.
  { split; [eapply layout_ok_shape; eassumption|].
    split; [congruence | lia]. }
  split; [congruence|]. split; [congruence|]. split; [|congruence].
  rewrite Eno', Eno. destruct (face_normals props); [reflexivity|].
  apply wrap_small.
  pose proof (float_size_cases env).
  assert (2 ^ 8 <= 2 ^ (8 * index_bytes env))
    by (apply Z.pow_le_mono_r; lia).
  lia.
Qed.

(** The loaded mesh against the decoded one: what the post-processing
    loop and the recomputation of the normals together have done. *)
Lemma loaded_effect (env : Env) (props : Properties env) (version : Z)
    (name0 : string) (z : ZStream) (s : io_state) (ld : Loaded env) :
  0 < index_bytes env ->
  fst (load_body env props version name0 z s) = Ok ld ->
  sizes_fit env (face_normals props) (h_flags (ld_header ld))
    (h_vertex_count (ld_header ld)) (h_face_count (ld_header ld)) ->
  exists m1,
    decode env (face_normals props) version name0 z
    = Ok (m1, ld_header ld, ld_stream ld) /\
    in_bounds (h_flags (ld_header ld)) m1 /\
    m_vertex_count m1 = h_vertex_count (ld_header ld) /\
    m_vertex_size m1
    = struct_size (expected_struct (float_size env) (face_normals props)
                     (h_flags (ld_header ld))) /\
    m_normal_offset m1
    = (if face_normals props then 0 else 3 * float_size env) /\
    shape (ld_mesh ld) = shape m1 /\
    m_faces (ld_mesh ld) = m_faces m1 /\
    zlen (m_vertices (ld_mesh ld)) = zlen (m_vertices m1) /\
    (forall i, 0 <= i < m_vertex_count m1 ->
       slice (m_vertices (ld_mesh ld)) (vertex m1 i) (3 * float_size env)
       = world_position (to_world props) m1 i) /\
    (has_vertex_normals m1 = true ->
     has_flag (h_flags (ld_header ld)) HasNormals = true ->
     forall i, 0 <= i < m_vertex_count m1 ->
       slice (m_vertices (ld_mesh ld)) (vertex m1 i + m_normal_offset m1)
         (3 * float_size env)
       = world_normal (to_world props) m1 i) /\
    (forall q n, 0 <= q -> 0 <= n -> q + n <= zlen (m_vertices m1) ->
       (forall i, 0 <= i < m_vertex_count m1 ->
          (q + n <= vertex m1 i \/
           vertex m1 i + 3 * float_size env <= q) /\
          (has_vertex_normals m1 = true ->
           q + n <= vertex m1 i + m_normal_offset m1 \/
           vertex m1 i + m_normal_offset m1 + 3 * float_size env <= q)) ->
       slice (m_vertices (ld_mesh ld)) q n = slice (m_vertices m1) q n) /\
    m_bbox (ld_mesh ld)
    = expand_by_vertices (to_world props) m1
        (Z.to_nat (m_vertex_count m1)) (bbox_empty env).
Proof.
  intros Hindex Hload Hfit.
  destruct (load_body_stages env props version name0 z s ld
              Hindex Hload Hfit)
    as (m1 & m2 & D & P & F & Hin1 & Evc1 & Evs1 & Eno & Eb).
  exists m1. split; [exact D|]. split; [exact Hin1|].
  split; [exact Evc1|]. split; [exact Evs1|]. split; [exact Eno|].
  pose proof Hin1 as (Hok & _ & Hlen).
  pose proof Hok as (Hvc & Hvs & _ & Hn & _).
  pose proof (float_size_cases env) as Hfl.
  assert (has_vertex_normals m1 = true ->
          3 * float_size env <= m_normal_offset m1) as Hno.
  { unfold has_vertex_normals. rewrite Eno.
    destruct (face_normals props); [discriminate | lia]. }
  destruct (post_process_effect env (to_world props) m1 m2
              Hok Hlen Hno P)
    as (Sh & Sf & L & Hpos & Hnor & Hfr & Hbb).
  rewrite Eb in Hbb.
  pose proof (shape_fields env _ _ Sh)
    as (_ & Ed & Eno2 & _ & Evs & Evc & _).
  pose proof (finish_normals_keeps env _ _ _ F) as (Sh3 & Sf3 & Sb3).
  pose proof (finish_normals_frame env _ _ _ F) as (L3 & Fr3).
  rewrite Evs, Evc, Eno2, L in Fr3.
  unfold finish_normals in F.
  destruct (recompute_needed m2 (h_flags (ld_header ld))) eqn:Rn.
  - (* the normals have been recomputed *)
    unfold recompute_needed in Rn. apply andb_prop in Rn as [Rd Rh].
    assert (has_vertex_normals m1 = true) as Ehn.
    { unfold has_vertex_normals. rewrite Eno.
      destruct (decode_ok_inv env _ _ _ _ _ _ _ D)
        as (name & z0 & m0 & _ & Hi & Hr & _).
      pose proof (init_mesh_ok env _ _ _ _ _ _ Hi) as (_ & Ed0 & _).
      pose proof (shape_fields env _ _
                    (read_arrays_shape env _ _ _ _ _ Hr))
        as (_ & Ed1 & _).
      rewrite Ed, Ed1, Ed0 in Rd.
      destruct (face_normals props); [discriminate|].
      destruct (Z.eqb_spec (3 * float_size env) 0); [lia | reflexivity]. }
    destruct (Hn Ehn) as [N0 N1]. specialize (Hno Ehn).
    unfold sentinel_start in Hlen. unfold vertex in *.
    split; [congruence|]. split; [congruence|]. split; [congruence|].
    split; [|split; [|split]].
    + intros i Hi. rewrite <- (Hpos i Hi).
      assert (0 <= m_vertex_size m1 * i) by nia.
      assert (m_vertex_size m1 * (i + 1)
              <= m_vertex_size m1 * m_vertex_count m1)
        by (apply Z.mul_le_mono_nonneg_l; lia).
      apply Fr3; [lia | lia | lia |].
      replace (m_vertex_size m1 * i)
        with (m_vertex_size m1 * i + 0 + 0) by lia.
      apply (field_outside_field (m_vertex_size m1) (m_vertex_count m1)
               0 (3 * float_size env)); lia.
    + intros _ Hh. rewrite Hh in Rh. discriminate.
    + intros q n Hq Hn' Hqn Hdis.
      rewrite Fr3; [apply Hfr; assumption | lia | lia | lia |].
      intros i Hi. apply (proj2 (Hdis i Hi) Ehn).
    + rewrite Sb3. exact Hbb.
  - injection F as <-.
    split; [exact Sh|]. split; [exact Sf|]. split; [exact L|].
    split; [exact Hpos|].
    split; [intros Ehn _; apply Hnor; exact Ehn|].
    split; [exact Hfr | exact Hbb].
Qed.

(** X10: from the decoded mesh to the loaded one, only the positions
    and the normal fields change.  The position of every vertex of the
    loaded mesh is the decoded position taken to world space; when the
    file stores normals and they are enabled, the normal is the decoded
    normal taken to world space; and every byte of the vertex buffer
    outside these two fields of the records (texture coordinates,
    colors, the sentinel record) and the whole face buffer are as
    decoded: the store of the texture coordinates writes back what it
    has just loaded, and the recomputation of the normals, when it runs,
    stores into the normal fields only.  What it stores there is its
    own matter and is not said here. *)
Theorem post_processing_moves_positions_and_normals_only
    (env : Env) (props : Properties env) (version : Z) (name0 : string)
    (z : ZStream) (s : io_state) (ld : Loaded env)
    (Hindex : 0 < index_bytes env)
    (Hload : fst (load_body env props version name0 z s) = Ok ld)
    (Hfit : sizes_fit env (face_normals props) (h_flags (ld_header ld))
              (h_vertex_count (ld_header ld))
              (h_face_count (ld_header ld))) :
  exists m1,
    decode env (face_normals props) version name0 z
    = Ok (m1, ld_header ld, ld_stream ld) /\
    let m := ld_mesh ld in
    let tw := to_world props in
    shape m = shape m1 /\
    (forall i, 0 <= i < m_vertex_count m ->
       slice (m_vertices m) (vertex m i) (3 * float_size env)
       = world_position tw m1 i) /\
    (face_normals props = false ->
     has_flag (h_flags (ld_header ld)) HasNormals = true ->
     forall i, 0 <= i < m_vertex_count m ->
       slice (m_vertices m) (vertex m i + 3 * float_size env)
         (3 * float_size env)
       = world_normal tw m1 i) /\
    (forall q n, 0 <= q -> 0 <= n -> q + n <= zlen (m_vertices m) ->
       outside_field (m_vertex_size m) (m_vertex_count m) 0
         (float_size env * (if face_normals props then 3 else 6)) q n ->
       slice (m_vertices m) q n = slice (m_vertices m1) q n) /\
    m_faces m = m_faces m1.
Proof.
  destruct (loaded_effect env props version name0 z s ld
              Hindex Hload Hfit)
    as (m1 & D & (Hok & _ & Hlen) & _ & _ & Eno & Sh & Sf & L & Hpos
        & Hnor & Hfr & _).
  exists m1. split; [exact D|]. cbv zeta.
  pose proof (float_size_cases env) as Hfl.
  assert (has_vertex_normals m1 = negb (face_normals props)) as Ehn.
  { unfold has_vertex_normals. rewrite Eno.
    destruct (face_normals props); [reflexivity|].
    destruct (Z.eqb_spec (3 * float_size env) 0); [lia | reflexivity]. }
  pose proof (shape_fields env _ _ Sh) as (_ & _ & _ & _ & Evs & Evc & _).
  unfold vertex in *. rewrite Evs, Evc.
  split; [exact Sh|]. split; [exact Hpos|]. split; [|split; [|exact Sf]].
  - intros F N. rewrite Ehn, F, Eno, F in Hnor. apply Hnor; [reflexivity|].
    exact N.
  - intros q n Hq Hn Hqn Hout. apply Hfr; [lia | lia | lia |].
    intros i Hi. specialize (Hout i Hi).
    rewrite Ehn, Eno.
    destruct (face_normals props); cbn [negb]; split;
      try discriminate; lia.
Qed.

Lemma post_processing_moves_positions_and_normals_only_witness :
  exists ld,
    fst (load_body env32 (props_of 0 false) 4 "n"
           {| z_rest := tri_body 0x1000 name_tri; z_pos := 0 |} io_start)
    = Ok ld /\
    slice (m_vertices (ld_mesh ld)) 24 12 = f32_1 ++ f32_0 ++ f32_0.
Proof.
  destruct (fst (load_body env32 (props_of 0 false) 4 "n"
                   {| z_rest := tri_body 0x1000 name_tri; z_pos := 0 |}
                   io_start)) as [ld|e] eqn:E;
    [|vm_compute in E; discriminate].
  exists ld. split; [reflexivity|].
  pose proof E as E'. vm_compute in E'. injection E' as E'.
  assert (0 < index_bytes env32) as Hi by reflexivity.
  assert (sizes_fit env32 (face_normals (props_of 0 false))
            (h_flags (ld_header ld)) (h_vertex_count (ld_header ld))
            (h_face_count (ld_header ld))) as Hfit
    by (rewrite <- E'; split; reflexivity).
  destruct (post_processing_moves_positions_and_normals_only env32
              (props_of 0 false) 4 "n" _ io_start ld Hi E Hfit)
    as (m1 & D & _ & Hpos & _).
  specialize (Hpos 1).
  rewrite <- E' in D, Hpos |- *. cbn [ld_mesh] in Hpos |- *.
  specialize (Hpos ltac:(cbn; lia)).
  vm_compute in D. injection D as <-. exact Hpos.
Defined.

(** X11: the bounding box of a loaded mesh is the empty box expanded by
    the world positions of the decoded vertices, once each and in the
    order of the vertices; a mesh without vertices keeps the empty box. *)
Theorem bounding_box_collects_the_world_positions
    (env : Env) (props : Properties env) (version : Z) (name0 : string)
    (z : ZStream) (s : io_state) (ld : Loaded env)
    (Hindex : 0 < index_bytes env)
    (Hload : fst (load_body env props version name0 z s) = Ok ld)
    (Hfit : sizes_fit env (face_normals props) (h_flags (ld_header ld))
              (h_vertex_count (ld_header ld))
              (h_face_count (ld_header ld))) :
  exists m1,
    decode env (face_normals props) version name0 z
    = Ok (m1, ld_header ld, ld_stream ld) /\
    m_bbox (ld_mesh ld)
    = expand_by_vertices (to_world props) m1
        (Z.to_nat (h_vertex_count (ld_header ld))) (bbox_empty env) /\
    (h_vertex_count (ld_header ld) = 0 ->
     m_bbox (ld_mesh ld) = bbox_empty env).
Proof.
  destruct (loaded_effect env props version name0 z s ld
              Hindex Hload Hfit)
    as (m1 & D & _ & Evc & _ & _ & _ & _ & _ & _ & _ & _ & Hbb).
  exists m1. split; [exact D|].
  rewrite Evc in Hbb. split; [exact Hbb|].
  intros E0. rewrite Hbb, E0. reflexivity.
Qed.

(** The triangle: the box has been expanded by its three corners, in
    the order of the file. *)
Lemma bounding_box_collects_the_world_positions_witness :
  exists ld,
    fst (load_body env32 (props_of 0 false) 4 "n"
           {| z_rest := tri_body 0x1000 name_tri; z_pos := 0 |} io_start)
    = Ok ld /\
    m_bbox (ld_mesh ld)
    = [f32_0 ++ f32_0 ++ f32_0; f32_1 ++ f32_0 ++ f32_0;
       f32_0 ++ f32_1 ++ f32_0].
Proof.
  destruct (fst (load_body env32 (props_of 0 false) 4 "n"
                   {| z_rest := tri_body 0x1000 name_tri; z_pos := 0 |}
                   io_start)) as [ld|e] eqn:E;
    [|vm_compute in E; discriminate].
  exists ld. split; [reflexivity|].
  pose proof E as E'. vm_compute in E'. injection E' as E'.
  assert (0 < index_bytes env32) as Hi by reflexivity.
  assert (sizes_fit env32 (face_normals (props_of 0 false))
            (h_flags (ld_header ld)) (h_vertex_count (ld_header ld))
            (h_face_count (ld_header ld))) as Hfit
    by (rewrite <- E'; split; reflexivity).
  destruct (bounding_box_collects_the_world_positions env32
              (props_of 0 false) 4 "n" _ io_start ld Hi E Hfit)
    as (m1 & D & Hbb & _).
  rewrite Hbb. rewrite <- E' in D |- *.
  vm_compute in D. injection D as <-. reflexivity.
Defined.

(** ** When the arrays can be read *)








(** The arrays alone are not enough: the body of a triangle whose face
    names vertex 7 of three holds all its arrays, and the recomputation
    of the normals faults on it. *)
Lemma a_face_index_beyond_the_vertices_faults :
  faces_start 0x1000 3 + 1 * index_bytes env32 * 3
  <= zlen (skipn 24 (stray_index_body 0x1000 name_tri)) /\
  fst (load_body env32 (props_of 0 false) 4 "n"
         {| z_rest := stray_index_body 0x1000 name_tri; z_pos := 0 |}
         io_start)
  = Fail MemoryFault.
Proof.
  split; vm_compute; [discriminate | reflexivity].
Qed.

(** X8: when the declared counts fit the size type, the loader never
    reaches outside a buffer and never misses a layout field while it
    reads and post-processes.  From the creation of the decompressing
    stream on there are two ways to fail: a read the stream cannot
    deliver; and, once the arrays are read and post-processed and the
    normals have to be recomputed, a face index that does not lie below
    the vertex count, on which the recomputation faults.  Every store of
    [read_helper], the copy of the faces and every load and store of the
    post-processing loop lie inside the allocated bytes. *)
Theorem failures_come_from_the_stream_or_the_indices
    (env : Env) (props : Properties env) (version : Z) (name0 : string)
    (z : ZStream) (s : io_state)
    (Hindex : 0 < index_bytes env)
    (Hfit : forall flags name vc fc z',
        read_body_header version name0 z = Ok (flags, name, vc, fc, z') ->
        sizes_fit env (face_normals props) flags vc fc) :
  match fst (load_body env props version name0 z s) with
  | Ok _ => True
  | Fail e =>
      e = IOError \/
      (e = MemoryFault /\
       exists m h z' m2,
         decode env (face_normals props) version name0 z = Ok (m, h, z') /\
         post_process env (to_world props) m = Ok m2 /\
         recompute_needed m2 (h_flags h) = true /\
         ~ faces_valid m2)
  end.
Proof.
  rewrite load_body_result.
  destruct (decode env (face_normals props) version name0 z)
    as [[[m1 h] z1]|e0] eqn:D; cbn [rbind fst snd].
  2:{ left. revert D. unfold decode.
      destruct (read_body_header version name0 z)
        as [[[[[flags name] vc] fc] z0]|e1] eqn:B; cbn [rbind].
      2:{ intros [= <-]. eapply read_body_header_fails_on_io; exact B. }
      specialize (Hfit _ _ _ _ _ eq_refl).
      destruct (read_body_header_nonneg _ _ _ _ _ _ _ _ B) as [Hvc Hfc].
      destruct (init_mesh env (face_normals props) flags name vc fc)
        as [m0|e2] eqn:I; cbn [rbind].
      2:{ exfalso. revert I. unfold init_mesh. rewrite build_layout_spec.
          cbn [rbind]. discriminate. }
      destruct (init_mesh_in_bounds env _ _ _ _ _ _ I Hvc Hfc Hindex Hfit)
        as (Hin & Evc & Efc & Evs & Efs & Lv & Lf).
      destruct (read_arrays env z0 flags m0) as [[z1 m1]|e3] eqn:R;
        cbn [rbind]; [discriminate|].
      intros [= <-].
      eapply read_arrays_fails_on_io; [exact Hin| |exact Hindex
        |exact Efs| |exact R]; [lia|]. rewrite Lf, Efc, Efs. lia. }
  destruct (decode_ok_inv env _ _ _ _ _ _ _ D)
    as (name & z0 & m0 & B & I & R & _).
  set (flags := h_flags h) in *.
  destruct (read_body_header_nonneg _ _ _ _ _ _ _ _ B) as [Hvc Hfc].
  specialize (Hfit _ _ _ _ _ B).
  destruct (init_mesh_in_bounds env _ _ _ _ _ _ I Hvc Hfc Hindex Hfit)
    as (Hin & Evc & Efc & Evs & Efs & Lv & Lf).
  destruct (read_arrays_keeps env _ _ _ _ _ (proj1 Hin) ltac:(lia)
              Hindex Efs R) as (Sh1 & [Lk _] & [Lfk _]).
  assert (in_bounds flags m1) as Hin1.
  { destruct Hin as (Hok & Est & Hlen).
    split; [eapply layout_ok_shape; eassumption|].
    pose proof (sentinel_start_shape env _ _ Sh1) as Ess.
    apply shape_fields in Sh1 as (Es & Ed & _).
    split; [congruence | lia]. }
  destruct (post_process_progress env (to_world props) flags m1 Hin1)
    as (m2 & P).
  rewrite P. cbn [rbind].
  pose proof (post_process_step env _ _ _ (proj1 Hin1) P) as St2.
  pose proof (in_bounds_step env flags _ _ St2 Hin1) as Hin2.
  destruct St2 as (Sh2 & Ef2 & _).
  apply shape_fields in Sh1 as (_ & _ & _ & _ & _ & _ & Efs1 & Efc1).
  apply shape_fields in Sh2 as (_ & _ & _ & _ & _ & _ & Efs2 & Efc2).
  unfold finish_normals.
  destruct (recompute_needed m2 flags) eqn:Rn; cbn [rbind]; [|trivial].
  destruct (recompute_vertex_normals env m2) as [m3|e4] eqn:Rc;
    cbn [rbind]; [trivial|].
  right. split; [eapply recompute_fails_on_fault; exact Rc|].
  exists m1, h, z1, m2.
  split; [reflexivity|]. split; [exact P|]. split; [exact Rn|].
  intros Hv.
  assert (m_face_size m2 = 3 * index_bytes env) as Efs' by congruence.
  assert (m_face_size m2 * m_face_count m2 <= zlen (m_faces m2)) as Lf2.
  { rewrite Ef2, Lfk, Lf, Efs2, Efc2, Efs1, Efc1, Efc, Efs. nia. }
  destruct (proj2 (recompute_succeeds_iff env flags m2 Hin2 Hindex Efs' Lf2)
              Hv) as (m3 & E3).
  congruence.
Qed.

(** The triangle whose face names vertex 7 of three: its arrays are read
    and post-processed, and the recomputation faults. *)
Lemma failures_come_from_the_stream_or_the_indices_witness :
  match fst (load_body env32 (props_of 0 false) 4 "n"
               {| z_rest := stray_index_body 0x1000 name_tri; z_pos := 0 |}
               io_start) with
  | Ok _ => True
  | Fail e =>
      e = IOError \/
      (e = MemoryFault /\
       exists m h z' m2,
         decode env32 (face_normals (props_of 0 false)) 4 "n"
           {| z_rest := stray_index_body 0x1000 name_tri; z_pos := 0 |}
         = Ok (m, h, z') /\
         post_process env32 (to_world (props_of 0 false)) m = Ok m2 /\
         recompute_needed m2 (h_flags h) = true /\
         ~ faces_valid m2)
  end.
Proof.
  apply (failures_come_from_the_stream_or_the_indices env32
           (props_of 0 false) 4 "n"
           {| z_rest := stray_index_body 0x1000 name_tri; z_pos := 0 |}
           io_start).
  - reflexivity.
  - intros flags name vc fc z' Hh. vm_compute in Hh.
    injection Hh as <- <- <- <- <-. split; reflexivity.
Defined.

(** ** The name of the mesh *)

Lemma read_name_loop_ok_inv (rest : list byte) :
  forall (pos : Z) (acc name : string) (z' : ZStream),
    read_name_loop rest pos acc = Ok (name, z') ->
    exists cs,
      rest = cs ++ x00 :: z_rest z' /\
      Forall (fun c => c <> x00) cs /\
      name = (acc ++ string_of_list_byte cs)%string.
Proof.
  induction rest as [|ch rest IH]; intros pos acc name z';
    cbn [read_name_loop]; [discriminate|].
  destruct (Byte.eqb ch x00) eqn:E.
  - intros [= <- <-]. apply Byte.byte_dec_bl in E. subst ch.
    exists []. split; [reflexivity|]. split; [constructor|].
    cbn. rewrite string_append_nil_r. reflexivity.
  - intros H. destruct (IH _ _ _ _ H) as (cs & -> & Hcs & ->).
    exists (ch :: cs). split; [reflexivity|]. split.
    + constructor; [|exact Hcs]. intros ->. discriminate.
    + rewrite string_append_assoc. reflexivity.
Qed.

Lemma read_body_header_name (version : Z) (name0 name : string)
    (z z' : ZStream) (flags vc fc : Z) :
  read_body_header version name0 z = Ok (flags, name, vc, fc, z') ->
  if version =? MTS_FILEFORMAT_VERSION_V4
  then exists cs rest,
         drop 4 (z_rest z) = cs ++ x00 :: rest /\
         Forall (fun c => c <> x00) cs /\
         name = string_of_list_byte cs
  else name = name0.
Proof.
  unfold read_body_header, z_read_uint32. intros H.
  apply rbind_ok_inv in H as ([fl z1] & H1 & H).
  apply rbind_ok_inv in H1 as ([bs z1'] & Hr & H1).
  injection H1 as _ ->. apply z_read_inv in Hr as (_ & _ & Ez1).
  apply rbind_ok_inv in H as ([nm z2] & H2 & H).
  apply rbind_ok_inv in H as ([v z3] & _ & H).
  apply rbind_ok_inv in H as ([f z4] & _ & H).
  injection H as _ <- _ _ _.
  destruct (version =? MTS_FILEFORMAT_VERSION_V4).
  - unfold read_name in H2.
    destruct (read_name_loop_ok_inv _ _ _ _ _ H2) as (cs & E & Hcs & ->).
    exists cs, (z_rest z2). rewrite <- Ez1.
    split; [exact E|]. split; [exact Hcs | reflexivity].
  - injection H2 as -> _. reflexivity.
Qed.

Lemma terminated_prefix_unique (cs cs' rest rest' : list byte) :
  Forall (fun c => c <> x00) cs -> Forall (fun c => c <> x00) cs' ->
  cs ++ x00 :: rest = cs' ++ x00 :: rest' -> cs = cs'.
Proof.
  intros H. revert cs'. induction H as [|c cs Hc Hcs IH]; intros cs' H' E.
  - destruct H' as [|c' cs' Hc' _]; [reflexivity|].
    cbn in E. injection E as E _. congruence.
  - destruct H' as [|c' cs' Hc' Hcs'].
    + cbn in E. injection E as E _. congruence.
    + cbn in E. injection E as -> E. f_equal. apply IH; assumption.
Qed.

(** X13: where the name of a loaded mesh comes from.  A body of version
    4 names the mesh itself: the name is the string of the bytes behind
    the four bytes of the flags word up to the first zero byte, whatever
    the name was before; any other version keeps the name the
    constructor has formed from the file name and the index.  No later
    stage touches the name, and the header records the version. *)
Theorem loaded_name_follows_the_version
    (env : Env) (props : Properties env) (version : Z) (name0 : string)
    (z : ZStream) (s : io_state) (ld : Loaded env)
    (Hload : fst (load_body env props version name0 z s) = Ok ld) :
  h_version (ld_header ld) = version /\
  if version =? MTS_FILEFORMAT_VERSION_V4
  then exists cs rest,
         drop 4 (z_rest z) = cs ++ x00 :: rest /\
         Forall (fun c => c <> x00) cs /\
         m_name (ld_mesh ld) = string_of_list_byte cs
  else m_name (ld_mesh ld) = name0.
Proof.
  rewrite load_body_result in Hload.
  apply rbind_ok_inv in Hload as ([[m1 h] z1] & D & Hload).
  cbn [fst snd] in Hload.
  apply rbind_ok_inv in Hload as (m2 & P & Hload).
  apply rbind_ok_inv in Hload as (m3 & F & Hload).
  injection Hload as <-.
  cbn [ld_mesh ld_header].
  destruct (decode_ok_inv env _ _ _ _ _ _ _ D)
    as (name & z0 & m0 & Hh & Hi & Hr & Hv).
  split; [exact Hv|].
  assert (m_name m3 = name) as ->.
  { pose proof (f_equal m_name (proj1 (finish_normals_keeps env _ _ _ F)))
      as E3.
    pose proof (f_equal m_name (post_process_shape env _ _ _ P)) as E2.
    pose proof (f_equal m_name (read_arrays_shape env _ _ _ _ _ Hr)) as E1.
    cbn in E1, E2, E3. rewrite E3, E2, E1.
    revert Hi. unfold init_mesh. rewrite build_layout_spec.
    cbn [rbind]. intros [= <-]. reflexivity. }
  exact (read_body_header_name _ _ _ _ _ _ _ _ Hh).
Qed.

(** The same body read as version 4 and as version 3: the stored name
    "tri" in the first case, the given name in the second (where the
    bytes of the name are taken for the start of the vertex count, which
    makes the body too short: a version-3 body without name is used). *)
Lemma loaded_name_follows_the_version_witness :
  exists ld4 ld3,
    fst (load_body env32 (props_of 0 false) 4 "tri.serialized@0"
           {| z_rest := tri_body 0x1000 name_tri; z_pos := 0 |} io_start)
    = Ok ld4 /\
    fst (load_body env32 (props_of 0 false) 3 "tri.serialized@0"
           {| z_rest := tri_body 0x1000 []; z_pos := 0 |} io_start)
    = Ok ld3 /\
    m_name (ld_mesh ld4) = "tri"%string /\
    m_name (ld_mesh ld3) = "tri.serialized@0"%string.
Proof.
  destruct (fst (load_body env32 (props_of 0 false) 4 "tri.serialized@0"
                   {| z_rest := tri_body 0x1000 name_tri; z_pos := 0 |}
                   io_start)) as [ld4|e] eqn:E4;
    [|vm_compute in E4; discriminate].
  destruct (fst (load_body env32 (props_of 0 false) 3 "tri.serialized@0"
                   {| z_rest := tri_body 0x1000 []; z_pos := 0 |}
                   io_start)) as [ld3|e] eqn:E3;
    [|vm_compute in E3; discriminate].
  exists ld4, ld3. split; [reflexivity|]. split; [reflexivity|].
  pose proof (loaded_name_follows_the_version _ _ _ _ _ _ _ E4)
    as [_ H4].
  pose proof (loaded_name_follows_the_version _ _ _ _ _ _ _ E3)
    as [_ H3].
  change (4 =? MTS_FILEFORMAT_VERSION_V4) with true in H4.
  change (3 =? MTS_FILEFORMAT_VERSION_V4) with false in H3.
  cbv iota in H3, H4.
  destruct H4 as (cs & rest & Hd & Hcs & ->). rewrite H3.
  split; [|reflexivity].
  assert (cs = bytes [116; 114; 105]%N) as ->; [|reflexivity].
  apply (terminated_prefix_unique _ _ rest
           (skipn 8 (tri_body 0x1000 name_tri)) Hcs).
  - repeat constructor; discriminate.
  - rewrite <- Hd. vm_compute. reflexivity.
Defined.

(** ** From the bytes of the body to the loaded mesh *)

Lemma firstn_plus {A} (a b : nat) (l : list A) :
  firstn (a + b) l = firstn a l ++ firstn b (skipn a l).
Proof.
  revert l. induction a as [|a IH]; intros l; [reflexivity|].
  destruct l as [|x l]; cbn [Nat.add firstn skipn app].
  - rewrite firstn_nil. reflexivity.
  - rewrite IH. reflexivity.
Qed.

Lemma slice_split (l : list byte) (p a b : Z) :
  0 <= p -> 0 <= a -> 0 <= b ->
  slice l p (a + b) = slice l p a ++ slice l (p + a) b.
Proof.
  intros Hp Ha Hb. unfold slice, take, drop.
  replace (Z.to_nat (a + b)) with (Z.to_nat a + Z.to_nat b)%nat by lia.
  rewrite firstn_plus, skipn_skipn. do 3 f_equal. lia.
Qed.

Lemma holds_array_vector3 (env : Env) (dp : bool) (rest : list byte)
    (start : Z) (m : Mesh env) (offset i : Z) :
  holds_array dp rest start m offset 3 ->
  0 <= vertex m i + offset -> 0 <= i < m_vertex_count m ->
  slice (m_vertices m) (vertex m i + offset) (3 * float_size env)
  = file_vector env dp rest start 3 i.
Proof.
  intros H Hq Hi. pose proof (float_size_cases env) as Hfs.
  replace (3 * float_size env)
    with (float_size env + (float_size env + float_size env)) by lia.
  rewrite slice_split by lia. rewrite slice_split by lia.
  pose proof (H i 0 Hi ltac:(lia)) as H0.
  pose proof (H i 1 Hi ltac:(lia)) as H1.
  pose proof (H i 2 Hi ltac:(lia)) as H2.
  replace (vertex m i + offset + 0 * float_size env)
    with (vertex m i + offset) in H0 by lia.
  replace (vertex m i + offset + 1 * float_size env)
    with (vertex m i + offset + float_size env) in H1 by lia.
  replace (vertex m i + offset + 2 * float_size env)
    with (vertex m i + offset + float_size env + float_size env)
    in H2 by lia.
  rewrite H0, H1, H2. unfold file_vector.
  change (Z.to_nat 3) with 3%nat.
  cbn [seq flat_map Z.of_nat Pos.of_succ_nat Pos.succ].
  rewrite app_nil_r. reflexivity.
Qed.

(** X14: the loader end to end, from the bytes of the body to the
    buffers of the loaded mesh.  The position of vertex [i] is
    [to_world] applied to the three position scalars of that vertex in
    the file; with normals stored in the file and not disabled, its
    normal is the transformed and normalized normal of the file; its
    texture coordinates and colors are the scalars of the file,
    untouched by the post-processing; and the face buffer starts with
    the indices of the file. *)
Theorem loaded_mesh_is_the_file_in_world_space
    (env : Env) (props : Properties env) (version : Z) (name0 : string)
    (z : ZStream) (s : io_state) (ld : Loaded env)
    (Hindex : 0 < index_bytes env)
    (Hload : fst (load_body env props version name0 z s) = Ok ld)
    (Hfit : sizes_fit env (face_normals props) (h_flags (ld_header ld))
              (h_vertex_count (ld_header ld))
              (h_face_count (ld_header ld)))
    (Hvc : h_vertex_count (ld_header ld) * 24 < 2 ^ 64)
    (Hfc : h_face_count (ld_header ld) * index_bytes env * 3 < 2 ^ 64) :
  let flags := h_flags (ld_header ld) in
  let n := h_vertex_count (ld_header ld) in
  let dp := has_flag flags DoublePrecision in
  let fbytes := h_face_count (ld_header ld) * index_bytes env * 3 in
  let m := ld_mesh ld in
  let tw := to_world props in
  exists name z0,
    read_body_header version name0 z
    = Ok (flags, name, n, h_face_count (ld_header ld), z0) /\
    m_vertex_count m = n /\
    (forall i, 0 <= i < n ->
       slice (m_vertices m) (vertex m i) (3 * float_size env)
       = fit (3 * float_size env)
           (transform_point env tw
              (file_vector env dp (z_rest z0) 0 3 i))) /\
    (has_flag flags HasNormals = true -> face_normals props = false ->
     forall i, 0 <= i < n ->
       slice (m_vertices m) (vertex m i + 3 * float_size env)
         (3 * float_size env)
       = fit (3 * float_size env)
           (transform_normal env tw
              (file_vector env dp (z_rest z0)
                 (normals_start flags n) 3 i))) /\
    (has_flag flags HasTexcoords = true ->
     holds_array dp (z_rest z0) (texcoords_start flags n) m
       (texcoords_field env (face_normals props)) 2) /\
    (has_flag flags HasColors = true ->
     holds_array dp (z_rest z0) (colors_start flags n) m
       (colors_field env (face_normals props) flags) 3) /\
    slice (m_faces m) 0 fbytes
    = slice (z_rest z0) (faces_start flags n) fbytes.
Proof.
  cbv zeta.
  destruct (loaded_effect env props version name0 z s ld
              Hindex Hload Hfit)
    as (m1 & D & Hin1 & Evc1 & Evs1 & Eno & Sh & Sf & L & Hpos & Hnor
        & Hfr & _).
  destruct (decode_ok_inv env _ _ _ _ _ _ _ D)
    as (name & z0 & m0 & Hh & Hi & Hr & _).
  exists name, z0. split; [exact Hh|].
  set (flags := h_flags (ld_header ld)) in *.
  set (n := h_vertex_count (ld_header ld)) in *.
  destruct (read_body_header_nonneg _ _ _ _ _ _ _ _ Hh) as [Hvc0 Hfc0].
  destruct (init_mesh_in_bounds env _ _ _ _ _ _ Hi Hvc0 Hfc0 Hindex Hfit)
    as (Hin0 & Evc0 & Efc0 & Evs0 & _).
  pose proof (init_mesh_ok env _ _ _ _ _ _ Hi) as (_ & Ed0 & _).
  rewrite <- Ed0 in Evs0.
  pose proof (read_arrays_stores env z0 (ld_stream ld) flags m0 m1
                Hin0 Hindex Evs0
                ltac:(rewrite Evc0; exact Hvc)
                ltac:(rewrite Efc0; exact Hfc0)
                ltac:(rewrite Efc0; exact Hfc) Hr) as H.
  cbv zeta in H. rewrite Evc0, Efc0, Ed0 in H.
  destruct H as (Hx & Hn & Ht & Hc & Hf & _).
  pose proof Hin1 as (Hok & _ & Hlen).
  pose proof Hok as (Hvcn & Hvs3 & _).
  pose proof (float_size_cases env) as Hfl.
  assert (has_vertex_normals m1 = negb (face_normals props)) as Ehn.
  { unfold has_vertex_normals. rewrite Eno.
    destruct (face_normals props); [reflexivity|].
    destruct (Z.eqb_spec (3 * float_size env) 0); [lia | reflexivity]. }
  pose proof (shape_fields env _ _ Sh) as (_ & _ & _ & _ & Evs & Evc & _).
  rewrite expected_struct_size in Evs1.
  unfold sentinel_start in Hlen.
  assert (forall i, 0 <= i < n ->
            0 <= m_vertex_size m1 * i /\
            m_vertex_size m1 * (i + 1) <= zlen (m_vertices m1)) as Hrec.
  { intros i Hi'. split; [apply Z.mul_nonneg_nonneg; lia|].
    assert (m_vertex_size m1 * (i + 1)
            <= m_vertex_size m1 * m_vertex_count m1)
      by (apply Z.mul_le_mono_nonneg_l; lia).
    lia. }
  (* a field behind the position and the normal is left alone *)
  assert (forall start offset dim,
            0 <= dim ->
            float_size env * (if face_normals props then 3 else 6)
            <= offset ->
            offset + dim * float_size env <= m_vertex_size m1 ->
            holds_array (has_flag flags DoublePrecision) (z_rest z0)
              start m1 offset dim ->
            holds_array (has_flag flags DoublePrecision) (z_rest z0)
              start (ld_mesh ld) offset dim) as Hkeep.
  { intros start offset dim Hdim Hlow Hhigh Hold i d Hi' Hd.
    rewrite Evc in Hi'. rewrite <- (Hold i d Hi' Hd).
    unfold vertex. rewrite Evs.
    destruct (Hrec i ltac:(lia)) as [R0 R1].
    assert (0 <= d * float_size env)
      by (apply Z.mul_nonneg_nonneg; lia).
    assert ((d + 1) * float_size env <= dim * float_size env)
      by (apply Z.mul_le_mono_nonneg_r; lia).
    assert (0 <= offset) by (destruct (face_normals props); lia).
    apply Hfr; [lia | lia | lia |].
    intros j Hj. unfold vertex. rewrite Ehn, Eno.
    destruct (Z.lt_trichotomy j i) as [Lt|[->|Gt]].
    - assert (m_vertex_size m1 * (j + 1) <= m_vertex_size m1 * i)
        by (apply Z.mul_le_mono_nonneg_l; lia).
      destruct (face_normals props); cbn [negb]; split;
        try discriminate; lia.
    - destruct (face_normals props); cbn [negb]; split;
        try discriminate; lia.
    - assert (m_vertex_size m1 * (i + 1) <= m_vertex_size m1 * j)
        by (apply Z.mul_le_mono_nonneg_l; lia).
      destruct (face_normals props); cbn [negb]; split;
        try discriminate; lia. }
  split; [congruence|]. split; [|split; [|split; [|split]]].
  - intros i Hi'. unfold vertex in Hpos |- *. rewrite Evs.
    rewrite (Hpos i ltac:(lia)). unfold world_position. do 2 f_equal.
    replace (vertex m1 i) with (vertex m1 i + 0) by lia.
    apply holds_array_vector3; [exact Hx | | lia].
    unfold vertex. destruct (Hrec i Hi'). lia.
  - intros N F i Hi'. unfold vertex. rewrite Evs.
    rewrite Ehn, F, Eno, F in Hnor. specialize (Hnor eq_refl N i).
    unfold vertex in Hnor. rewrite (Hnor ltac:(lia)).
    unfold world_normal. rewrite Eno, F. do 2 f_equal.
    apply holds_array_vector3; [apply Hn; assumption | | lia].
    unfold vertex. destruct (Hrec i Hi'). lia.
  - intros T. unfold texcoords_field.
    apply Hkeep; [lia | lia | | apply Ht; exact T].
    rewrite Evs1, T.
    destruct (face_normals props), (has_flag flags HasColors); lia.
  - intros C. unfold colors_field.
    apply Hkeep; [lia | | | apply Hc; exact C].
    + destruct (face_normals props), (has_flag flags HasTexcoords); lia.
    + rewrite Evs1, C.
      destruct (face_normals props), (has_flag flags HasTexcoords); lia.
  - rewrite Sf. exact Hf.
Qed.

(** The body of [normals_file]: the normal of its one vertex is the one
    of the file, the transform of the example being the identity. *)
Lemma loaded_mesh_is_the_file_in_world_space_witness :
  exists ld,
    fst (load_body env32 (props_of 0 false) 4 "n"
           {| z_rest := drop 4 normals_file; z_pos := 0 |} io_start)
    = Ok ld /\
    slice (m_vertices (ld_mesh ld)) 12 12 = f32_0 ++ f32_0 ++ f32_1.
Proof.
  destruct (fst (load_body env32 (props_of 0 false) 4 "n"
                   {| z_rest := drop 4 normals_file; z_pos := 0 |}
                   io_start)) as [ld|e] eqn:E;
    [|vm_compute in E; discriminate].
  exists ld. split; [reflexivity|].
  pose proof E as E'. vm_compute in E'. injection E' as E'.
  assert (0 < index_bytes env32) as Hi by reflexivity.
  assert (sizes_fit env32 (face_normals (props_of 0 false))
            (h_flags (ld_header ld)) (h_vertex_count (ld_header ld))
            (h_face_count (ld_header ld))) as Hfit
    by (rewrite <- E'; split; reflexivity).
  assert (h_vertex_count (ld_header ld) * 24 < 2 ^ 64) as Hvc
    by (rewrite <- E'; reflexivity).
  assert (h_face_count (ld_header ld) * index_bytes env32 * 3 < 2 ^ 64)
    as Hfc by (rewrite <- E'; reflexivity).
  destruct (loaded_mesh_is_the_file_in_world_space env32
              (props_of 0 false) 4 "n" _ io_start ld Hi E Hfit Hvc Hfc)
    as (name & z0 & Hh & _ & _ & Hn & _).
  rewrite <- E' in Hh, Hn |- *. cbn [ld_mesh ld_header] in Hh, Hn |- *.
  vm_compute in Hh. injection Hh as <- <-.
  specialize (Hn eq_refl eq_refl 0 ltac:(cbn; lia)).
  exact Hn.
Defined.

End SerializedMeshMoreFacts.
